(** * sketch-review: token authority, role resolution, totals and the
      purchase-order submission pipeline

    A shallow embedding of the HTTP handlers of the repository
    ([src/api/upload-po.js], [src/api/deal.js] and the po-quote handlers)
    together with the properties stated about them.

    Conventions of the embedding:
    - a JavaScript string is the list of its UTF-16 code units;
    - a [Buffer] is the list of its bytes;
    - the numbers of line items are JavaScript's numbers: IEEE 754
      binary64 values with their rounding, their infinities and NaN (the
      primitive [float]);
    - an external HTTP call is answered by an oracle (the [world]) and is
      recorded, in order, in the state threaded through a handler;
    - [console.log]/[console.error] and the CORS headers are not recorded. *)

From Stdlib Require Import PrimFloat.
From Stdlib Require FloatOps SpecFloat.
From Stdlib Require Import List NArith ZArith QArith Bool String Ascii Lia.
From Stdlib Require Import Permutation DecimalString.
Import ListNotations.

Set Warnings "-inexact-float".

Local Open Scope N_scope.

(* ================================================================== *)
(** ** JavaScript strings and scalar values *)

(** UTF-16 code units, each below 65536. *)
Definition jsstring := list N.

(** An ASCII literal of the source as a JavaScript string. *)
Definition lit (s : string) : jsstring :=
  map N_of_ascii (list_ascii_of_string s).

Fixpoint str_eqb (a b : jsstring) : bool :=
  match a, b with
  | [], [] => true
  | x :: a', y :: b' => (x =? y) && str_eqb a' b'
  | _, _ => false
  end.

(** The scalar values a query parameter, a JSON body field or a CRM
    property can hold.  [JNum] carries the integer-valued numbers that
    [String] writes in plain digits (those of magnitude below 10^21, the
    safe integers among them). *)
Inductive jsval : Type :=
| JUndefined
| JNull
| JBool (b : bool)
| JNum (z : Z)
| JStr (s : jsstring).

(** ToBoolean: [!v] is [negb (truthy v)]. *)
Definition truthy (v : jsval) : bool :=
  match v with
  | JUndefined | JNull => false
  | JBool b => b
  | JNum z => negb (z =? 0)%Z
  | JStr s => match s with [] => false | _ :: _ => true end
  end.

Definition decimal (z : Z) : jsstring :=
  lit (DecimalString.NilZero.string_of_int (Z.to_int z)).

(** [String(v)] and the conversion made by a template literal. *)
Definition js_String (v : jsval) : jsstring :=
  match v with
  | JUndefined => lit "undefined"
  | JNull => lit "null"
  | JBool true => lit "true"
  | JBool false => lit "false"
  | JNum z => decimal z
  | JStr s => s
  end.

(** [a || b] *)
Definition js_or (a b : jsval) : jsval := if truthy a then a else b.

(** [a === b] on scalars. *)
Definition strict_eqb (a b : jsval) : bool :=
  match a, b with
  | JUndefined, JUndefined | JNull, JNull => true
  | JBool x, JBool y => Bool.eqb x y
  | JNum x, JNum y => (x =? y)%Z
  | JStr x, JStr y => str_eqb x y
  | _, _ => false
  end.

(** [s.substring(0, n)] *)
Definition substring0 (n : nat) (s : jsstring) : jsstring := firstn n s.

(** [s.padEnd(n, '0')] *)
Definition padEnd0 (n : nat) (s : jsstring) : jsstring :=
  s ++ repeat 48 (n - List.length s).

(** [s.includes(c)] for a one-character needle. *)
Definition includes_char (c : N) (s : jsstring) : bool :=
  existsb (N.eqb c) s.

(** [s.split(c)] for a one-character separator: never empty. *)
Fixpoint split_char (c : N) (s : jsstring) : list jsstring :=
  match s with
  | [] => [[]]
  | x :: rest =>
      if x =? c then [] :: split_char c rest
      else match split_char c rest with
           | [] => [[x]]
           | seg :: segs => (x :: seg) :: segs
           end
  end.

(** WhiteSpace and LineTerminator code units, as [trim] sees them. *)
Definition is_space (c : N) : bool :=
  ((9 <=? c) && (c <=? 13)) || (c =? 32) || (c =? 160) || (c =? 0x1680)
  || ((0x2000 <=? c) && (c <=? 0x200A)) || (c =? 0x2028) || (c =? 0x2029)
  || (c =? 0x202F) || (c =? 0x205F) || (c =? 0x3000) || (c =? 0xFEFF).

Fixpoint trim_start (s : jsstring) : jsstring :=
  match s with
  | [] => []
  | c :: rest => if is_space c then trim_start rest else s
  end.

(** [s.trim()] *)
Definition trim (s : jsstring) : jsstring :=
  rev (trim_start (rev (trim_start s))).

(* ================================================================== *)
(** ** Buffers: UTF-8 encoding, hexadecimal, constant-time comparison *)

Definition buffer := list N.

Definition is_high_surrogate (c : N) : bool := (0xD800 <=? c) && (c <=? 0xDBFF).
Definition is_low_surrogate (c : N) : bool := (0xDC00 <=? c) && (c <=? 0xDFFF).

Definition utf8_cont (x : N) : N := N.lor 0x80 (N.land x 0x3F).

Definition utf8_of_code_point (p : N) : buffer :=
  if p <? 0x80 then [p]
  else if p <? 0x800 then [N.lor 0xC0 (N.shiftr p 6); utf8_cont p]
  else if p <? 0x10000 then
    [N.lor 0xE0 (N.shiftr p 12); utf8_cont (N.shiftr p 6); utf8_cont p]
  else
    [N.lor 0xF0 (N.shiftr p 18); utf8_cont (N.shiftr p 12);
     utf8_cont (N.shiftr p 6); utf8_cont p].

(** [Buffer.from(s, 'utf8')]: a surrogate pair is one code point of four
    bytes, a lone surrogate becomes U+FFFD. *)
Fixpoint utf8 (s : jsstring) : buffer :=
  match s with
  | [] => []
  | c :: rest =>
      if is_high_surrogate c then
        match rest with
        | d :: rest' =>
            if is_low_surrogate d
            then utf8_of_code_point
                   (0x10000 + (c - 0xD800) * 0x400 + (d - 0xDC00)) ++ utf8 rest'
            else utf8_of_code_point 0xFFFD ++ utf8 rest
        | [] => utf8_of_code_point 0xFFFD
        end
      else if is_low_surrogate c then utf8_of_code_point 0xFFFD ++ utf8 rest
      else utf8_of_code_point c ++ utf8 rest
  end.

Definition hex_digit (d : N) : N := if d <? 10 then 48 + d else 87 + d.

(** [buf.toString('hex')] / [digest('hex')]: two lower-case digits a byte. *)
Definition hex (b : buffer) : jsstring :=
  flat_map (fun x => [hex_digit (N.shiftr x 4); hex_digit (N.land x 15)]) b.

(** Exceptions of the runtime, with the [message] the handlers report. *)
Inductive exn_kind := ErrorK | TypeErrorK | RangeErrorK | SyntaxErrorK.

Record exn := Exn { kind : exn_kind; message : jsstring }.

Inductive result (A : Type) : Type :=
| Ok (a : A)
| Throw (e : exn).
Arguments Ok {A} a.
Arguments Throw {A} e.

Definition buffer_eqb (a b : buffer) : bool := str_eqb a b.

(** [crypto.timingSafeEqual(a, b)]: a RangeError unless the byte lengths
    agree, else whether the contents agree. *)
Definition timingSafeEqual (a b : buffer) : result bool :=
  if Nat.eqb (List.length a) (List.length b) then Ok (buffer_eqb a b)
  else Throw (Exn RangeErrorK
                (lit "Input buffers must have the same byte length")).

(* ================================================================== *)
(** ** The runtime's HMAC-SHA256 ([crypto.createHmac('sha256', key)])

    SHA-256 after FIPS 180-4 and HMAC after RFC 2104, on 32-bit words kept
    in [N] with the wrap-around written out. *)

Module Crypto.

Definition mask32 : N := 0xFFFFFFFF.
Definition add32 (x y : N) : N := N.land (x + y) mask32.
Definition rotr (n x : N) : N :=
  N.lor (N.shiftr x n) (N.land (N.shiftl x (32 - n)) mask32).
Definition not32 (x : N) : N := N.lxor x mask32.

Definition Ch (x y z : N) : N := N.lxor (N.land x y) (N.land (not32 x) z).
Definition Maj (x y z : N) : N :=
  N.lxor (N.lxor (N.land x y) (N.land x z)) (N.land y z).
Definition Sigma0 (x : N) : N := N.lxor (N.lxor (rotr 2 x) (rotr 13 x)) (rotr 22 x).
Definition Sigma1 (x : N) : N := N.lxor (N.lxor (rotr 6 x) (rotr 11 x)) (rotr 25 x).
Definition sigma0 (x : N) : N := N.lxor (N.lxor (rotr 7 x) (rotr 18 x)) (N.shiftr x 3).
Definition sigma1 (x : N) : N := N.lxor (N.lxor (rotr 17 x) (rotr 19 x)) (N.shiftr x 10).

(** The first [n] primes, found by trial division below [bound]. *)
Definition is_prime (p : N) : bool :=
  forallb (fun d => negb (p mod d =? 0))
          (map N.of_nat (seq 2 (N.to_nat p - 2))).

Definition primes (n bound : nat) : list N :=
  firstn n (filter is_prime (map N.of_nat (seq 2 bound))).

(** The integer cube root, one bit at a time from bit 40 down. *)
Definition cube_root (x : N) : N :=
  fold_left
    (fun r i =>
       let r' := r + N.shiftl 1 (N.of_nat i) in
       if r' * r' * r' <=? x then r' else r)
    (rev (seq 0 41)) 0.

(** The round constants: the first 32 bits of the fractional parts of the
    cube roots of the first 64 primes. *)
Definition K : list N :=
  Eval vm_compute in
    map (fun p => N.land (cube_root (N.shiftl p 96)) mask32) (primes 64 320).

(** The eight working variables, also the chaining value. *)
Record state := St { ha : N; hb : N; hc : N; hd : N;
                     he : N; hf : N; hg : N; hh : N }.

(** The initial hash value: the first 32 bits of the fractional parts of
    the square roots of the first 8 primes. *)
Definition initial_words : list N :=
  Eval vm_compute in
    map (fun p => N.land (N.sqrt (N.shiftl p 64)) mask32) (primes 8 20).

Definition H0 : state :=
  St (nth 0 initial_words 0) (nth 1 initial_words 0) (nth 2 initial_words 0)
     (nth 3 initial_words 0) (nth 4 initial_words 0) (nth 5 initial_words 0)
     (nth 6 initial_words 0) (nth 7 initial_words 0).

(** Message padding: the bit 1, zeros up to 56 modulo 64, then the
    message length in bits on eight bytes, most significant first. *)
Definition be_bytes (n : nat) (x : N) : buffer :=
  map (fun i => N.land (N.shiftr x (8 * N.of_nat i)) 0xFF) (rev (seq 0 n)).

Definition pad (m : buffer) : buffer :=
  let len := List.length m in
  m ++ [0x80] ++ repeat 0 ((64 - (len + 9) mod 64) mod 64)%nat
    ++ be_bytes 8 (8 * N.of_nat len).

Fixpoint words (b : buffer) : list N :=
  match b with
  | b0 :: b1 :: b2 :: b3 :: rest =>
      (N.shiftl b0 24 + N.shiftl b1 16 + N.shiftl b2 8 + b3) :: words rest
  | _ => []
  end.

(** The message schedule, newest word first while it is extended. *)
Fixpoint extend (n : nat) (w : list N) : list N :=
  match n with
  | O => w
  | S n' =>
      let x := add32 (add32 (sigma1 (nth 1 w 0)) (nth 6 w 0))
                     (add32 (sigma0 (nth 14 w 0)) (nth 15 w 0)) in
      extend n' (x :: w)
  end.

Definition schedule (block : list N) : list N :=
  rev (extend 48 (rev block)).

Definition round (s : state) (kw : N * N) : state :=
  let t1 := add32 (add32 (add32 (hh s) (Sigma1 (he s)))
                         (add32 (Ch (he s) (hf s) (hg s)) (fst kw))) (snd kw) in
  let t2 := add32 (Sigma0 (ha s)) (Maj (ha s) (hb s) (hc s)) in
  St (add32 t1 t2) (ha s) (hb s) (hc s) (add32 (hd s) t1) (he s) (hf s) (hg s).

Definition compress (s : state) (block : list N) : state :=
  let r := fold_left round (combine K (schedule block)) s in
  St (add32 (ha s) (ha r)) (add32 (hb s) (hb r)) (add32 (hc s) (hc r))
     (add32 (hd s) (hd r)) (add32 (he s) (he r)) (add32 (hf s) (hf r))
     (add32 (hg s) (hg r)) (add32 (hh s) (hh r)).

Fixpoint blocks (n : nat) (ws : list N) (s : state) : state :=
  match n with
  | O => s
  | S n' => blocks n' (skipn 16 ws) (compress s (firstn 16 ws))
  end.

Definition digest_bytes (s : state) : buffer :=
  be_bytes 4 (ha s) ++ be_bytes 4 (hb s) ++ be_bytes 4 (hc s)
  ++ be_bytes 4 (hd s) ++ be_bytes 4 (he s) ++ be_bytes 4 (hf s)
  ++ be_bytes 4 (hg s) ++ be_bytes 4 (hh s).

Definition sha256 (m : buffer) : buffer :=
  let ws := words (pad m) in
  digest_bytes (blocks (List.length ws / 16) ws H0).

(** HMAC: a key longer than a block is hashed first, then padded with
    zeros to the block size. *)
Definition hmac_key (key : buffer) : buffer :=
  let k := if (64 <? List.length key)%nat then sha256 key else key in
  k ++ repeat 0 (64 - List.length k)%nat.

Definition hmac_sha256 (key msg : buffer) : buffer :=
  let k := hmac_key key in
  sha256 (map (N.lxor 0x5c) k ++ sha256 (map (N.lxor 0x36) k ++ msg)).

End Crypto.

(* ================================================================== *)
(** ** Token authority ([validateToken], upload-po.js and po-quote-review) *)

(** [process.env]: a variable is unset or holds a string. *)
Record env := Env {
  PO_QUOTE_SECRET : option jsstring;
  HUBSPOT_TOKEN : option jsstring
}.

Definition env_value (v : option jsstring) : jsval :=
  match v with
  | None => JUndefined
  | Some s => JStr s
  end.

(** The value [validateToken] names [expected]: the first 16 hexadecimal
    characters of HMAC-SHA256(secret, String(dealId)).  It is also the
    token the link issuer hands out for [dealId]. *)
Definition expected (secret : jsstring) (dealId : jsval) : jsstring :=
  substring0 16
    (hex (Crypto.hmac_sha256 (utf8 secret) (utf8 (js_String dealId)))).

Definition validateToken (e : env) (dealId token : jsval) : result bool :=
  let secret := env_value (PO_QUOTE_SECRET e) in
  if negb (truthy secret) || negb (truthy token) then Ok false
  else
    timingSafeEqual
      (utf8 (expected (js_String secret) dealId))
      (utf8 (padEnd0 16 (substring0 16 (js_String token)))).

(* ================================================================== *)
(** ** Line items and the total (deal.js:119, po-quote handlers) *)

(** A resolved line item: what the handlers build from a batch result,
    after [parseFloat(..) || 0] and [parseInt(..) || 1]. *)
Record lineItem := LineItem {
  li_id : jsval;
  li_name : jsval;
  price : PrimFloat.float;
  quantity : PrimFloat.float;
  amount : PrimFloat.float
}.

(** ToBoolean on a number: [0], [-0] and NaN are falsy. *)
Definition falsy (x : PrimFloat.float) : bool :=
  PrimFloat.is_zero x || PrimFloat.is_nan x.

(** [x || d] on numbers. *)
Definition number_or (x d : PrimFloat.float) : PrimFloat.float :=
  if falsy x then d else x.

(** [item.amount || item.price * item.quantity] *)
Definition amount_or_product (item : lineItem) : PrimFloat.float :=
  number_or (amount item) (price item * quantity item)%float.

(** [lineItems.reduce((sum, item) => sum + (...), 0)] *)
Definition total (lineItems : list lineItem) : PrimFloat.float :=
  fold_left (fun sum item => (sum + amount_or_product item)%float)
            lineItems 0%float.

(** The rational a finite number stands for; NaN and the infinities stand
    for none. *)
Definition exact (x : PrimFloat.float) : option Q :=
  match FloatOps.Prim2SF x with
  | SpecFloat.S754_zero _ => Some 0%Q
  | SpecFloat.S754_finite s m e =>
      Some ((if s then -1 else 1) * (Zpos m # 1) * Qpower 2 e)%Q
  | _ => None
  end.








(* ================================================================== *)
(** ** Contact associations and role resolution *)

Record associationType := AssociationType {
  label : jsval;
  typeId : jsval
}.

(** An entry of [results] of the associations endpoint;
    [associationTypes] may be missing. *)
Record association := Association {
  toObjectId : Z;
  associationTypes : option (list associationType)
}.

(** [(r.associationTypes || []).some(a => a.label === name)] *)
Definition has_label (name : string) (r : association) : bool :=
  existsb (fun a => strict_eqb (label a) (JStr (lit name)))
          (match associationTypes r with Some l => l | None => [] end).

(** [allAssocs.find(r => ... 'Payer')] *)
Definition payerAssoc (allAssocs : list association) : option association :=
  find (has_label "Payer") allAssocs.

(** [allAssocs.find(r => ... 'Primary Contact') || allAssocs[0]] *)
Definition primaryAssoc (allAssocs : list association) : option association :=
  match find (has_label "Primary Contact") allAssocs with
  | Some r => Some r
  | None => nth_error allAssocs 0
  end.

(** The contact a resolved association designates. *)
Definition contact_of (r : option association) : option Z :=
  option_map toObjectId r.

(* ================================================================== *)
(** ** External calls and their answers *)

(** What the CRM answers, as far as the handlers read it.  A missing
    [properties] object makes the handler's property access throw. *)
Record dealProperties := DealProperties {
  dealname : jsval;
  po_quote_title : jsval
}.

Record dealJson := DealJson {
  deal_id : jsval;
  deal_properties : option dealProperties
}.

Record associationsJson := AssociationsJson {
  results : option (list association)
}.

Record contactProperties := ContactProperties {
  email : jsval;
  firstname : jsval;
  lastname : jsval
}.

Record contactJson := ContactJson {
  contact_id : jsval;
  contact_properties : option contactProperties
}.

(** The CRM holds the numbers of a line item as strings; the record
    carries what [parseFloat]/[parseInt] read from them, NaN when they
    read no number. *)
Record lineItemProperties := LineItemProperties {
  name : jsval;
  price_read : PrimFloat.float;
  quantity_read : PrimFloat.float;
  amount_read : PrimFloat.float
}.

Record lineItemJson := LineItemJson {
  item_id : jsval;
  item_properties : option lineItemProperties
}.

Record batchJson := BatchJson {
  batch_results : option (list lineItemJson)
}.

Record uploadJson := UploadJson {
  file_id : jsval;
  file_url : jsval
}.

(** The body of the po-received-notification webhook. *)
Record notification := Notification_ {
  n_dealId : jsval;
  n_dealName : jsval;
  n_fileName : jsval;
  n_fileUrl : jsval;
  n_contactEmail : jsval;
  n_contactName : jsval;
  n_ccEmail : jsval;
  n_ccName : jsval;
  n_quoteTitle : jsval
}.

(** The external calls of the handlers, each with the values its URL and
    body are built from. *)
Inductive call : Type :=
| DealGet (dealId : jsstring)
| AssociationsGet (dealId : jsstring) (toObjectType : string)
| ContactGet (contactId : Z)
| LineItemsBatchRead (ids : list Z)
| FileUpload (fileName : jsstring) (content : buffer) (contentType : jsval)
| NoteCreate (dealId : jsval) (fileName : jsval) (fileId : jsval)
| DealPatch (dealId : jsstring) (fileUrl fileId : jsval) (receivedDate : jsstring)
| Notify (n : notification)
| ErrorAlert (endpoint : string) (error : jsstring) (dealId : jsval).

Definition body_of (c : call) : Type :=
  match c with
  | DealGet _ => dealJson
  | AssociationsGet _ _ => associationsJson
  | ContactGet _ => contactJson
  | LineItemsBatchRead _ => batchJson
  | FileUpload _ _ _ => uploadJson
  | NoteCreate _ _ _ | DealPatch _ _ _ _ | Notify _ | ErrorAlert _ _ _ => unit
  end.

(** A [Response]: [json] is [None] when the body is not JSON, so that
    [res.json()] rejects. *)
Record response (J : Type) := Response {
  status : Z;
  text : jsstring;
  json : option J
}.
Arguments Response {J} status text json.
Arguments status {J} r.
Arguments text {J} r.
Arguments json {J} r.

(** [res.ok] *)
Definition ok_status (code : Z) : bool := ((200 <=? code) && (code <=? 299))%Z.
Definition ok {J : Type} (r : response J) : bool := ok_status (status r).

(** The promise of [fetch]: rejected (no response at all) or resolved. *)
Inductive fetched (J : Type) : Type :=
| Rejects (reason : jsstring)
| Resolves (r : response J).
Arguments Rejects {J} reason.
Arguments Resolves {J} r.

(** One external call as the handler saw it: the call and its answer. *)
Record event := Event {
  ev_call : call;
  ev_answer : fetched (body_of ev_call)
}.

(** The collaborators: the answer to a call may depend on the calls made
    before it; [today] is [new Date().toISOString().split('T')[0]]. *)
Record world := World {
  respond : list event -> forall c : call, fetched (body_of c);
  today : jsstring
}.

(* ================================================================== *)
(** ** The handler monad: a log of calls, the [let] variables a [catch]
       block can observe, and exceptions *)

Record st := St {
  trace : list event;
  dealName : jsval;
  contactEmail : jsval;
  contactName : jsval;
  ccEmail : jsval;
  ccName : jsval
}.

Definition M (A : Type) : Type := st -> st * result A.

Definition ret {A : Type} (a : A) : M A := fun s => (s, Ok a).

Definition bind {A B : Type} (m : M A) (f : A -> M B) : M B :=
  fun s =>
    match m s with
    | (s', Ok a) => f a s'
    | (s', Throw e) => (s', Throw e)
    end.

Definition throw {A : Type} (e : exn) : M A := fun s => (s, Throw e).

(** [try { m } catch (e) { h e }]: the handler sees the state at the throw. *)
Definition try_catch {A : Type} (m : M A) (h : exn -> M A) : M A :=
  fun s =>
    match m s with
    | (s', Ok a) => (s', Ok a)
    | (s', Throw e) => h e s'
    end.

Declare Scope handler_scope.
Delimit Scope handler_scope with handler.
Notation "x <- m ;; k" := (bind m (fun x => k))
  (at level 61, m at next level, right associativity) : handler_scope.
Notation "m ;;; k" := (bind m (fun _ => k))
  (at level 61, right associativity) : handler_scope.
Local Open Scope handler_scope.

Definition log (ev : event) (s : st) : st :=
  St (trace s ++ [ev]) (dealName s) (contactEmail s) (contactName s)
     (ccEmail s) (ccName s).

(** [await fetch(..)] *)
Definition fetch (w : world) (c : call) : M (response (body_of c)) :=
  fun s =>
    let answer := respond w (trace s) c in
    match answer with
    | Rejects reason => (log (Event c answer) s, Throw (Exn TypeErrorK reason))
    | Resolves r => (log (Event c answer) s, Ok r)
    end.

(** [await res.json()] *)
Definition read_json {J : Type} (r : response J) : M J :=
  match json r with
  | Some j => ret j
  | None => throw (Exn SyntaxErrorK (lit "Unexpected token in JSON"))
  end.

(** [x.properties] followed by a property read. *)
Definition properties_of {P : Type} (p : option P) : M P :=
  match p with
  | Some props => ret props
  | None => throw (Exn TypeErrorK (lit "Cannot read properties of undefined"))
  end.

Definition set_dealName (v : jsval) : M unit :=
  fun s => (St (trace s) v (contactEmail s) (contactName s) (ccEmail s) (ccName s),
            Ok tt).
Definition set_contact (e n : jsval) : M unit :=
  fun s => (St (trace s) (dealName s) e n (ccEmail s) (ccName s), Ok tt).
Definition set_cc (e n : jsval) : M unit :=
  fun s => (St (trace s) (dealName s) (contactEmail s) (contactName s) e n, Ok tt).
Definition get {A : Type} (f : st -> A) : M A := fun s => (s, Ok (f s)).

(** The view model of the po-quote-review endpoint (the fields copied
    unchanged from [deal.properties], the parsed verbiage and the
    expiration date read from the clock are left out). *)
Record contactView := ContactView {
  cv_id : jsval;
  cv_name : jsstring;
  cv_email : jsval
}.

Record quoteReview := QuoteReview {
  qr_dealId : jsval;
  qr_dealName : jsval;
  qr_total : PrimFloat.float;
  qr_lineItems : list lineItem;
  qr_primaryContact : option contactView;
  qr_payerContact : option contactView
}.

(** What a handler leaves behind: the reply it sent. *)
Inductive reply_body : Type :=
| NoBody
| ErrorBody (error : string) (details : option jsstring)
| UploadOk (fileUrl : jsval)
| ReviewOk (view : quoteReview).

Record reply := Reply { code : Z; body : reply_body }.

(** [error.message || String(error)] *)
Definition error_text (e : exn) : jsstring :=
  match message e with
  | [] => match kind e with
          | ErrorK => lit "Error"
          | TypeErrorK => lit "TypeError"
          | RangeErrorK => lit "RangeError"
          | SyntaxErrorK => lit "SyntaxError"
          end
  | _ :: _ => message e
  end.

Definition initial : st :=
  St [] JUndefined JUndefined JUndefined JUndefined JUndefined.

(** A handler run on one request: the calls it made, in order, and the
    reply it sent or the exception it let escape. *)
Definition run {A : Type} (m : M A) : list event * result A :=
  let (s, r) := m initial in (trace s, r).

(** Observations on the log. *)
Definition upload_answer (ev : event) : option (fetched uploadJson) :=
  match ev with
  | Event (FileUpload _ _ _) a => Some a
  | Event _ _ => None
  end.

Definition is_followup (ev : event) : bool :=
  match ev_call ev with
  | NoteCreate _ _ _ | DealPatch _ _ _ _ | Notify _ => true
  | _ => false
  end.

Definition is_note_or_patch (ev : event) : bool :=
  match ev_call ev with
  | NoteCreate _ _ _ | DealPatch _ _ _ _ => true
  | _ => false
  end.

Definition rejected (ev : event) : bool :=
  match ev with
  | Event c a =>
      match a with
      | Rejects _ => true
      | Resolves _ => false
      end
  end.

(** The HTTP status an answered call came back with. *)
Definition status_of (ev : event) : option Z :=
  match ev with
  | Event c a =>
      match a with
      | Rejects _ => None
      | Resolves r => Some (status r)
      end
  end.

(** A method call on a value that is a string in every intended request;
    on another scalar the method is missing and the call throws. *)
Definition as_string (method : string) (v : jsval) : M jsstring :=
  match v with
  | JStr s => ret s
  | _ => throw (Exn TypeErrorK (lit method ++ lit " is not a function"))
  end.

Definition lift {A : Type} (r : result A) : M A := fun s => (s, r).

(* ================================================================== *)
(** ** The write endpoint: src/api/upload-po.js *)

Module UploadPo.

(** [reportError(system, endpoint, error, dealId, dealName)]: one call to
    the error-alert webhook, whose own failure is silenced. *)
Definition reportError (w : world) (endpoint : string) (error : exn)
    (dealId dealName : jsval) : M unit :=
  try_catch
    (_ <- fetch w (ErrorAlert endpoint (error_text error)
                     (if truthy dealName
                      then JStr (js_String dealName ++ lit " ("
                                 ++ js_String dealId ++ lit ")")
                      else js_or dealId (JStr (lit "unknown")))) ;;
     ret tt)
    (fun _ => ret tt).

(** The fields read from [req.body || {}]. *)
Record fields := Fields {
  dealId : jsval;
  token : jsval;
  fileName : jsval;
  fileType : jsval;
  fileData : jsval
}.

Record request := Request {
  method : jsstring;
  req_body : option fields
}.

Definition fields_of (req : request) : fields :=
  match req_body req with
  | Some f => f
  | None => Fields JUndefined JUndefined JUndefined JUndefined JUndefined
  end.

Definition allowedTypes : list jsval :=
  [JStr (lit "application/pdf"); JStr (lit "image/png"); JStr (lit "image/jpeg")].

Definition maxSize : N := 3 * 1024 * 1024.

Definition too_large : string :=
  "File is too large (max 3MB). Please email your PO to support@showoffinc.com.".

Definition upload_failed : string :=
  "Upload failed. Please try again or email your PO to support@showoffinc.com.".

(** [`${p.properties.firstname || ''} ${p.properties.lastname || ''}`.trim()] *)
Definition full_name (p : contactProperties) : jsval :=
  JStr (trim (js_String (js_or (firstname p) (JStr [])) ++ lit " "
              ++ js_String (js_or (lastname p) (JStr [])))).

(** Lines 83-136: the recipients of the confirmation, best effort. *)
Definition resolve_recipients (w : world) (dealId : jsval) : M unit :=
  try_catch
    (assocRes <- fetch w (AssociationsGet (js_String dealId) "contacts") ;;
     if ok assocRes then
       assocData <- read_json assocRes ;;
       let allAssocs :=
         match results assocData with Some l => l | None => [] end in
       match payerAssoc allAssocs with
       | Some r =>
           pRes <- fetch w (ContactGet (toObjectId r)) ;;
           if ok pRes then
             p <- read_json pRes ;;
             props <- properties_of (contact_properties p) ;;
             set_contact (js_or (email props) (JStr [])) (full_name props)
           else ret tt
       | None => ret tt
       end ;;;
       match primaryAssoc allAssocs with
       | Some r =>
           cRes <- fetch w (ContactGet (toObjectId r)) ;;
           if ok cRes then
             c <- read_json cRes ;;
             props <- properties_of (contact_properties c) ;;
             let primaryEmail := js_or (email props) (JStr []) in
             let primaryName := full_name props in
             current <- get contactEmail ;;
             if negb (truthy current) then set_contact primaryEmail primaryName
             else if truthy primaryEmail && negb (strict_eqb primaryEmail current)
             then set_cc primaryEmail primaryName
             else ret tt
           else ret tt
       | None => ret tt
       end
     else ret tt)
    (fun _ => ret tt).

(** Lines 138-216: upload, note, patch, notification, success reply. *)
Definition upload_and_record (w : world) (f : fields) (fileBuffer : buffer)
    (quoteTitle : jsval) : M reply :=
  name <- as_string "fileName.split" (fileName f) ;;
  let ext := js_or (JStr (last (split_char 46 name) [])) (JStr (lit "pdf")) in
  dn <- get dealName ;;
  let hsFileName := js_String dn ++ lit "_PO." ++ js_String ext in
  uploadRes <- fetch w (FileUpload hsFileName fileBuffer
                          (js_or (fileType f) (JStr (lit "application/pdf")))) ;;
  if negb (ok uploadRes) then
    throw (Exn ErrorK (lit "HubSpot file upload failed: "
                       ++ decimal (status uploadRes) ++ lit " "
                       ++ substring0 300 (text uploadRes)))
  else
    uploadData <- read_json uploadRes ;;
    let fileId := file_id uploadData in
    let fileUrl := file_url uploadData in
    _ <- fetch w (NoteCreate (dealId f) (fileName f) fileId) ;;
    _ <- fetch w (DealPatch (js_String (dealId f)) fileUrl fileId (today w)) ;;
    ce <- get contactEmail ;;
    cn <- get contactName ;;
    cce <- get ccEmail ;;
    ccn <- get ccName ;;
    try_catch
      (_ <- fetch w (Notify (Notification_ (dealId f) dn (fileName f) fileUrl
                               ce cn cce ccn quoteTitle)) ;;
       ret tt)
      (fun _ => ret tt) ;;;
    ret (Reply 200 (UploadOk fileUrl)).

(** Lines 58-222: everything after the request has been validated. *)
Definition pipeline (e : env) (w : world) (f : fields) (fileBuffer : buffer)
    : M reply :=
  if negb (truthy (env_value (HUBSPOT_TOKEN e))) then
    ret (Reply 500 (ErrorBody "HubSpot token not configured" None))
  else
    set_dealName JNull ;;;
    try_catch
      (dealRes <- fetch w (DealGet (js_String (dealId f))) ;;
       if negb (ok dealRes) then
         ret (Reply 404 (ErrorBody "Deal not found" None))
       else
         deal <- read_json dealRes ;;
         props <- properties_of (deal_properties deal) ;;
         set_dealName (js_or (dealname props) (dealId f)) ;;;
         dn <- get dealName ;;
         let quoteTitle := js_or (po_quote_title props) dn in
         set_contact (JStr []) (JStr []) ;;;
         set_cc (JStr []) (JStr []) ;;;
         resolve_recipients w (dealId f) ;;;
         upload_and_record w f fileBuffer quoteTitle)
      (fun error =>
         dn <- get dealName ;;
         reportError w "/api/upload-po" error (dealId f) dn ;;;
         ret (Reply 500 (ErrorBody upload_failed (Some (message error))))).

Section Handler.

(** [Buffer.from(s, 'base64')], the decoder of the runtime. *)
Variable base64 : jsstring -> buffer.

(** [fileData.includes(',') ? fileData.split(',')[1] : fileData] *)
Definition base64Raw (data : jsstring) : jsstring :=
  if includes_char 44 data then nth 1 (split_char 44 data) [] else data.

Definition handler (e : env) (w : world) (req : request) : M reply :=
  if str_eqb (method req) (lit "OPTIONS") then ret (Reply 200 NoBody)
  else if negb (str_eqb (method req) (lit "POST")) then
    ret (Reply 405 (ErrorBody "POST only" None))
  else
    let f := fields_of req in
    if negb (truthy (dealId f)) || negb (truthy (token f)) then
      ret (Reply 400 (ErrorBody "dealId and token are required" None))
    else
      valid <- lift (validateToken e (dealId f) (token f)) ;;
      if negb valid then
        ret (Reply 403 (ErrorBody "Invalid or expired link" None))
      else if negb (truthy (fileData f)) || negb (truthy (fileName f)) then
        ret (Reply 400 (ErrorBody "fileName and fileData are required" None))
      else if truthy (fileType f)
              && negb (existsb (strict_eqb (fileType f)) allowedTypes) then
        ret (Reply 400
               (ErrorBody "File type not allowed. Please upload a PDF, PNG, or JPG."
                          None))
      else
        data <- as_string "fileData.includes" (fileData f) ;;
        let fileBuffer := base64 (base64Raw data) in
        if maxSize <? N.of_nat (List.length fileBuffer) then
          ret (Reply 400 (ErrorBody too_large None))
        else pipeline e w f fileBuffer.

End Handler.

End UploadPo.

(* ================================================================== *)
(** ** The token-gated read endpoint: po-quote-review *)

Module PoQuoteReview.

(** [reportError(system, endpoint, error, dealId)] *)
Definition reportError (w : world) (endpoint : string) (error : exn)
    (dealId : jsval) : M unit :=
  try_catch
    (_ <- fetch w (ErrorAlert endpoint (error_text error)
                     (js_or dealId (JStr (lit "unknown")))) ;;
     ret tt)
    (fun _ => ret tt).

(** [req.method] and the two parameters read from [req.query]. *)
Record request := Request {
  method : jsstring;
  dealId : jsval;
  token : jsval
}.

(** The callback of [(batchData.results || []).map(item => ...)]. *)
Definition resolve_item (item : lineItemJson) : M lineItem :=
  props <- properties_of (item_properties item) ;;
  ret (LineItem (item_id item)
                (js_or (name props) (JStr (lit "Item")))
                (number_or (price_read props) 0)
                (number_or (quantity_read props) 1)
                (number_or (amount_read props) 0)).

Fixpoint resolve_items (items : list lineItemJson) : M (list lineItem) :=
  match items with
  | [] => ret []
  | item :: rest =>
      x <- resolve_item item ;;
      xs <- resolve_items rest ;;
      ret (x :: xs)
  end.

(** Lines 106-137: the line items of the deal; a failed association or
    batch call leaves the list empty. *)
Definition fetch_line_items (w : world) (dealId : jsval) : M (list lineItem) :=
  assocRes <- fetch w (AssociationsGet (js_String dealId) "line_items") ;;
  if ok assocRes then
    assocData <- read_json assocRes ;;
    let ids :=
      map toObjectId (match results assocData with Some l => l | None => [] end) in
    match ids with
    | [] => ret []
    | _ :: _ =>
        batchRes <- fetch w (LineItemsBatchRead ids) ;;
        if ok batchRes then
          batchData <- read_json batchRes ;;
          resolve_items
            (match batch_results batchData with Some l => l | None => [] end)
        else ret []
    end
  else ret [].

(** [[first, last].filter(Boolean).join(' ')] *)
Definition joined_name (p : contactProperties) : jsstring :=
  match truthy (firstname p), truthy (lastname p) with
  | true, true => js_String (firstname p) ++ lit " " ++ js_String (lastname p)
  | true, false => js_String (firstname p)
  | false, true => js_String (lastname p)
  | false, false => []
  end.

(** The fetch of one resolved contact (lines 157-170 and 173-186). *)
Definition fetch_contact (w : world) (r : option association)
    : M (option contactView) :=
  match r with
  | Some a =>
      cRes <- fetch w (ContactGet (toObjectId a)) ;;
      if ok cRes then
        c <- read_json cRes ;;
        props <- properties_of (contact_properties c) ;;
        ret (Some (ContactView (contact_id c) (joined_name props) (email props)))
      else ret None
  | None => ret None
  end.

Definition handler (e : env) (w : world) (req : request) : M reply :=
  if str_eqb (method req) (lit "OPTIONS") then ret (Reply 200 NoBody)
  else if negb (truthy (dealId req)) then
    ret (Reply 400 (ErrorBody "dealId is required" None))
  else if negb (truthy (token req)) then
    ret (Reply 403 (ErrorBody "Access denied" None))
  else
    valid <- lift (validateToken e (dealId req) (token req)) ;;
    if negb valid then
      ret (Reply 403 (ErrorBody "Invalid or expired link" None))
    else if negb (truthy (env_value (HUBSPOT_TOKEN e))) then
      ret (Reply 500 (ErrorBody "HubSpot token not configured" None))
    else
      try_catch
        (dealRes <- fetch w (DealGet (js_String (dealId req))) ;;
         if negb (ok dealRes) then
           ret (Reply 404 (ErrorBody "Deal not found" None))
         else
           deal <- read_json dealRes ;;
           lineItems <- fetch_line_items w (dealId req) ;;
           contactRes <- fetch w (AssociationsGet (js_String (dealId req)) "contacts") ;;
           contacts <-
             (if ok contactRes then
                contactData <- read_json contactRes ;;
                let allAssocs :=
                  match results contactData with Some l => l | None => [] end in
                payerContact <- fetch_contact w (payerAssoc allAssocs) ;;
                primaryContact <- fetch_contact w (primaryAssoc allAssocs) ;;
                ret (primaryContact, payerContact)
              else ret (None, None)) ;;
           props <- properties_of (deal_properties deal) ;;
           ret (Reply 200
                  (ReviewOk (QuoteReview (deal_id deal)
                               (js_or (dealname props) (JStr []))
                               (total lineItems) lineItems
                               (fst contacts) (snd contacts)))))
        (fun error =>
           reportError w "/api/po-quote-review" error (dealId req) ;;;
           ret (Reply 500 (ErrorBody "Failed to fetch data" (Some (message error))))).

End PoQuoteReview.

(* ================================================================== *)
(** ** The examples of the specification *)


(** Three line items with the amounts 0.1, 0.2 and 0.3, as read from the
    strings "0.1", "0.2" and "0.3". *)
Definition tenths : list lineItem :=
  [LineItem (JStr (lit "1")) (JStr (lit "Item")) 0 1 0.1;
   LineItem (JStr (lit "2")) (JStr (lit "Item")) 0 1 0.2;
   LineItem (JStr (lit "3")) (JStr (lit "Item")) 0 1 0.3].

(** A contact association carrying the given labels. *)
Definition contact (id : Z) (labels : list string) : association :=
  Association id
    (Some (map (fun l => AssociationType (JStr (lit l)) (JNum 0)) labels)).

Definition spec_contacts : list association :=
  [contact 1 []; contact 2 ["Primary Contact"%string]; contact 3 ["Payer"%string]].

(* ================================================================== *)
(** ** Shapes of a run, used to state the pipeline's failure policy *)

(** Calls that only read from the CRM, and the error-alert webhook. *)
Definition is_lookup (c : call) : bool :=
  match c with
  | DealGet _ | AssociationsGet _ _ | ContactGet _ | LineItemsBatchRead _
  | ErrorAlert _ _ _ => true
  | _ => false
  end.

(** [only Q m]: whatever the state, [m] adds to the log only calls that
    satisfy [Q]. *)
Definition only (Q : call -> bool) {A : Type} (m : M A) : Prop :=
  forall s, exists evs,
    trace (fst (m s)) = trace s ++ evs
    /\ forallb (fun ev => Q (ev_call ev)) evs = true.

(** The outer [catch] of upload-po.js turns an exception into the 500
    reply. *)
Definition caught (r : result reply) : result reply :=
  match r with
  | Ok x => Ok x
  | Throw error =>
      Ok (Reply 500 (ErrorBody UploadPo.upload_failed (Some (message error))))
  end.

(** The calls of the write steps (upload, note, patch, notification) and
    how the steps end, before the outer [catch]. *)
Inductive upload_run : list event -> result reply -> Prop :=
| run_no_file_name error :
    upload_run [] (Throw error)
| run_upload_rejected n b t reason error :
    upload_run [Event (FileUpload n b t) (Rejects reason)] (Throw error)
| run_upload_refused n b t (resp : response uploadJson) :
    ok resp = false ->
    upload_run [Event (FileUpload n b t) (Resolves resp)]
      (Throw (Exn ErrorK (lit "HubSpot file upload failed: "
                          ++ decimal (status resp) ++ lit " "
                          ++ substring0 300 (text resp))))
| run_upload_unreadable n b t (resp : response uploadJson) error :
    ok resp = true -> json resp = None ->
    upload_run [Event (FileUpload n b t) (Resolves resp)] (Throw error)
| run_note_rejected n b t (resp : response uploadJson) data d fn fi reason error :
    ok resp = true -> json resp = Some data ->
    upload_run [Event (FileUpload n b t) (Resolves resp);
                Event (NoteCreate d fn fi) (Rejects reason)] (Throw error)
| run_patch_rejected n b t (resp : response uploadJson) data d fn fi
    (note : response unit) d' u i day reason error :
    ok resp = true -> json resp = Some data ->
    upload_run [Event (FileUpload n b t) (Resolves resp);
                Event (NoteCreate d fn fi) (Resolves note);
                Event (DealPatch d' u i day) (Rejects reason)] (Throw error)
| run_completed n b t (resp : response uploadJson) data d fn fi
    (note : response unit) d' u i day (patch : response unit) msg sent :
    ok resp = true -> json resp = Some data ->
    upload_run [Event (FileUpload n b t) (Resolves resp);
                Event (NoteCreate d fn fi) (Resolves note);
                Event (DealPatch d' u i day) (Resolves patch);
                Event (Notify msg) sent]
      (Ok (Reply 200 (UploadOk (file_url data)))).

(** [runs m P]: from every state, [m] adds some calls [evs] to the log and
    ends with a result [r] such that [P evs r]. *)
Definition runs {A : Type} (m : M A) (P : list event -> result A -> Prop)
    : Prop :=
  forall s, exists evs, trace (fst (m s)) = trace s ++ evs /\ P evs (snd (m s)).

Definition quiet (evs : list event) : Prop :=
  forallb (fun ev => is_lookup (ev_call ev)) evs = true.

(** A run in which no external call is made. *)
Definition no_call {A : Type} (evs : list event) (r : result A) : Prop :=
  evs = [].

(** A run of the write endpoint: look-ups, then the write steps (if they
    are reached at all), then the error alert of the outer [catch]. *)
Definition upload_outcome (evs : list event) (r : result reply) : Prop :=
  exists pre mid post,
    evs = pre ++ mid ++ post
    /\ quiet pre /\ quiet post
    /\ (mid = [] \/ exists r0, upload_run mid r0 /\ r = caught r0).

(* ================================================================== *)
(** ** A reference base64 decoder and sample collaborators

    The handler takes the runtime's decoder as a parameter; the examples
    run it with this one: the alphabets of RFC 4648 (standard and
    URL-safe), other characters skipped, decoding stopped at the first
    padding character. *)

Definition sextet (c : N) : option N :=
  if (65 <=? c) && (c <=? 90) then Some (c - 65)
  else if (97 <=? c) && (c <=? 122) then Some (c - 71)
  else if (48 <=? c) && (c <=? 57) then Some (c + 4)
  else if (c =? 43) || (c =? 45) then Some 62
  else if (c =? 47) || (c =? 95) then Some 63
  else None.

Fixpoint sextets (s : jsstring) : list N :=
  match s with
  | [] => []
  | c :: rest =>
      if c =? 61 then []
      else match sextet c with
           | Some v => v :: sextets rest
           | None => sextets rest
           end
  end.

Fixpoint octets (l : list N) : buffer :=
  match l with
  | a :: b :: c :: d :: rest =>
      N.lor (N.shiftl a 2) (N.shiftr b 4)
      :: N.lor (N.land (N.shiftl b 4) 0xFF) (N.shiftr c 2)
      :: N.lor (N.land (N.shiftl c 6) 0xFF) d
      :: octets rest
  | [a; b; c] =>
      [N.lor (N.shiftl a 2) (N.shiftr b 4);
       N.lor (N.land (N.shiftl b 4) 0xFF) (N.shiftr c 2)]
  | [a; b] => [N.lor (N.shiftl a 2) (N.shiftr b 4)]
  | _ => []
  end.

Definition base64_reference (s : jsstring) : buffer := octets (sextets s).

Definition sample_env : env := Env (Some (lit "s3cret")) (Some (lit "pat-1")).

(** A CRM that knows deal 12345 and the contacts of [spec_contacts]; the
    file store, the note and the patch answer with the given statuses. *)
Definition sample_world (upload note patch : Z) : world :=
  World
    (fun _ c =>
       match c return fetched (body_of c) with
       | DealGet _ =>
           Resolves (Response 200 []
             (Some (DealJson (JStr (lit "12345"))
                      (Some (DealProperties (JStr (lit "Acme")) JNull)))))
       | AssociationsGet _ _ =>
           Resolves (Response 200 []
             (Some (AssociationsJson (Some spec_contacts))))
       | ContactGet id =>
           Resolves (Response 200 []
             (Some (ContactJson (JNum id)
                      (Some (ContactProperties
                               (JStr (lit "c" ++ decimal id ++ lit "@example.com"))
                               (JStr (lit "Ada")) JNull)))))
       | LineItemsBatchRead _ =>
           Resolves (Response 200 []
             (Some (BatchJson
                      (Some [LineItemJson (JStr (lit "1"))
                               (Some (LineItemProperties JNull 10 2
                                        PrimFloat.nan));
                             LineItemJson (JStr (lit "2"))
                               (Some (LineItemProperties (JStr (lit "Cap"))
                                        5 1 7))]))))
       | FileUpload _ _ _ =>
           Resolves (Response upload (lit "store says no")
             (Some (UploadJson (JNum 77) (JStr (lit "https://files.example/po.pdf")))))
       | NoteCreate _ _ _ => Resolves (Response note (lit "note says no") None)
       | DealPatch _ _ _ _ => Resolves (Response patch (lit "patch says no") None)
       | Notify _ => Resolves (Response 200 [] None)
       | ErrorAlert _ _ _ => Resolves (Response 200 [] None)
       end)
    (lit "2024-05-01").

(** A submission for deal 12345 with the token issued for it and a PDF of
    three bytes sent as a data URL. *)
Definition sample_fields : UploadPo.fields :=
  UploadPo.Fields (JStr (lit "12345")) (JStr (lit "672b04fffe37d734"))
    (JStr (lit "po.pdf")) (JStr (lit "application/pdf"))
    (JStr (lit "data:application/pdf;base64,TWFu")).

Definition sample_request : UploadPo.request :=
  UploadPo.Request (lit "POST") (Some sample_fields).

(** A submission like [sample_fields] whose file is [chars] times the
    character 'A', which decodes to zero bytes, three for every four
    characters. *)
Definition mebibyte : nat := N.to_nat 1048576.

Definition big_fields (chars : nat) : UploadPo.fields :=
  UploadPo.Fields (JStr (lit "12345")) (JStr (lit "672b04fffe37d734"))
    (JStr (lit "po.pdf")) (JStr (lit "application/pdf"))
    (JStr (repeat 65 chars)).

Definition big_request (chars : nat) : UploadPo.request :=
  UploadPo.Request (lit "POST") (Some (big_fields chars)).

(* ================================================================== *)
(** ** Shapes of the runs of the write endpoint, path by path *)

Definition is_alert (c : call) : bool :=
  match c with
  | ErrorAlert _ _ _ => true
  | _ => false
  end.

(** Calls that read a contact association or a contact. *)
Definition is_contact_read (c : call) : bool :=
  match c with
  | AssociationsGet _ _ | ContactGet _ => true
  | _ => false
  end.

Definition all_calls (Q : call -> bool) (evs : list event) : Prop :=
  forallb (fun ev => Q (ev_call ev)) evs = true.

(** The reply of the outer [catch] of upload-po.js for [error]. *)
Definition failure_reply (error : exn) : reply :=
  Reply 500 (ErrorBody UploadPo.upload_failed (Some (message error))).

(** Every way [UploadPo.pipeline] can go for the fields [f]: the calls
    made and the reply. *)
Inductive pipeline_shape (f : UploadPo.fields)
    : list event -> result reply -> Prop :=
| shape_unconfigured :
    pipeline_shape f []
      (Ok (Reply 500 (ErrorBody "HubSpot token not configured" None)))
| shape_deal_unreachable reason endpoint text dealId alert :
    pipeline_shape f
      [Event (DealGet (js_String (UploadPo.dealId f))) (Rejects reason);
       Event (ErrorAlert endpoint text dealId) alert]
      (Ok (failure_reply (Exn TypeErrorK reason)))
| shape_deal_not_found (deal : response dealJson) :
    ok deal = false ->
    pipeline_shape f
      [Event (DealGet (js_String (UploadPo.dealId f))) (Resolves deal)]
      (Ok (Reply 404 (ErrorBody "Deal not found" None)))
| shape_deal_unreadable (deal : response dealJson) error endpoint text dealId
    alert :
    ok deal = true ->
    json deal = None
    \/ (exists d, json deal = Some d /\ deal_properties d = None) ->
    pipeline_shape f
      [Event (DealGet (js_String (UploadPo.dealId f))) (Resolves deal);
       Event (ErrorAlert endpoint text dealId) alert]
      (Ok (failure_reply error))
| shape_completed (deal : response dealJson) reads writes x :
    ok deal = true ->
    all_calls is_contact_read reads ->
    upload_run writes (Ok x) ->
    pipeline_shape f
      (Event (DealGet (js_String (UploadPo.dealId f))) (Resolves deal)
       :: reads ++ writes)
      (Ok x)
| shape_failed (deal : response dealJson) reads writes error endpoint text
    dealId alert :
    ok deal = true ->
    all_calls is_contact_read reads ->
    upload_run writes (Throw error) ->
    pipeline_shape f
      (Event (DealGet (js_String (UploadPo.dealId f))) (Resolves deal)
       :: reads ++ writes ++ [Event (ErrorAlert endpoint text dealId) alert])
      (Ok (failure_reply error)).

(** Every way [UploadPo.handler] can go: a reply or an exception of the
    request checks without any call, or the pipeline for a request whose
    token was verified. *)
Definition handler_shape (e : env) (req : UploadPo.request)
    (evs : list event) (r : result reply) : Prop :=
  (evs = []
   /\ (r = Ok (Reply 200 NoBody)
       \/ (exists c text,
              In c [400; 403; 405]%Z /\ r = Ok (Reply c (ErrorBody text None)))
       \/ (exists error, r = Throw error)))
  \/ (validateToken e (UploadPo.dealId (UploadPo.fields_of req))
        (UploadPo.token (UploadPo.fields_of req)) = Ok true
      /\ pipeline_shape (UploadPo.fields_of req) evs r).

(** The answer a deal read came back with. *)
Definition deal_answer (ev : event) : option (fetched dealJson) :=
  match ev with
  | Event (DealGet _) a => Some a
  | Event _ _ => None
  end.

Definition alert_calls (evs : list event) : list event :=
  filter (fun ev => is_alert (ev_call ev)) evs.

Definition is_notify (ev : event) : bool :=
  match ev_call ev with
  | Notify _ => true
  | _ => false
  end.

(** ** More sample collaborators *)

(** [w], except for the calls that [f] answers itself. *)
Definition override (w : world)
    (f : forall c : call, option (fetched (body_of c))) : world :=
  World (fun h c => match f c with
                    | Some a => a
                    | None => respond w h c
                    end)
        (today w).

(** The CRM does not know the deal. *)
Definition missing_deal_world : world :=
  override (sample_world 200 200 200)
    (fun c => match c return option (fetched (body_of c)) with
              | DealGet _ => Some (Resolves (Response 404 (lit "no such deal") None))
              | _ => None
              end).

(** The engagements endpoint cannot be reached. *)
Definition offline_note_world : world :=
  override (sample_world 200 200 200)
    (fun c => match c return option (fetched (body_of c)) with
              | NoteCreate _ _ _ => Some (Rejects (lit "fetch failed"))
              | _ => None
              end).

(** [sample_request] with another token. *)
Definition request_with_token (token : jsstring) : UploadPo.request :=
  UploadPo.Request (lit "POST")
    (Some (UploadPo.Fields (JStr (lit "12345")) (JStr token)
             (JStr (lit "po.pdf")) (JStr (lit "application/pdf"))
             (JStr (lit "data:application/pdf;base64,TWFu")))).

(** [sample_request] with another declared type. *)
Definition fields_with_type (fileType : jsval) : UploadPo.fields :=
  UploadPo.Fields (JStr (lit "12345")) (JStr (lit "672b04fffe37d734"))
    (JStr (lit "po.pdf")) fileType
    (JStr (lit "data:application/pdf;base64,TWFu")).

Definition request_with_type (fileType : jsval) : UploadPo.request :=
  UploadPo.Request (lit "POST") (Some (fields_with_type fileType)).

(** The recipients as the pipeline holds them: a recipient, and a CC that
    is either empty or a truthy address other than the recipient's, which
    is then truthy too. *)
Definition recipients_ok (s : st) : Prop :=
  ccEmail s = JStr []
  \/ (truthy (ccEmail s) = true
      /\ truthy (contactEmail s) = true
      /\ strict_eqb (ccEmail s) (contactEmail s) = false).

(* ================================================================== *)
(** ** Shapes of the runs of the token-gated read endpoint *)

(** The calls the read endpoint may make: reads of the CRM, a batch read
    only for a non-empty list of ids, and the error alert. *)
Definition review_call (c : call) : bool :=
  match c with
  | DealGet _ | AssociationsGet _ _ | ContactGet _ | ErrorAlert _ _ _ => true
  | LineItemsBatchRead ids => match ids with [] => false | _ :: _ => true end
  | _ => false
  end.

Definition is_crm_read (c : call) : bool :=
  match c with
  | DealGet _ | AssociationsGet _ _ | ContactGet _ | LineItemsBatchRead _ => true
  | _ => false
  end.

(** A line item as the handlers resolve it: the quantity is neither zero
    nor NaN (an unread or zero quantity is replaced by 1). *)
Definition well_resolved (item : lineItem) : Prop :=
  falsy (quantity item) = false.

(** The view model is consistent: its total is the total of its line
    items, all of them well resolved. *)
Definition consistent_view (v : quoteReview) : Prop :=
  qr_total v = total (qr_lineItems v)
  /\ Forall well_resolved (qr_lineItems v).

(** Every way [PoQuoteReview.handler] can go. *)
Inductive review_shape (e : env) (req : PoQuoteReview.request)
    : list event -> result reply -> Prop :=
| review_preflight :
    review_shape e req [] (Ok (Reply 200 NoBody))
| review_refused c text :
    In c [400; 403]%Z ->
    review_shape e req [] (Ok (Reply c (ErrorBody text None)))
| review_token_throws error :
    validateToken e (PoQuoteReview.dealId req) (PoQuoteReview.token req)
    = Throw error ->
    review_shape e req [] (Throw error)
| review_unconfigured :
    validateToken e (PoQuoteReview.dealId req) (PoQuoteReview.token req)
    = Ok true ->
    review_shape e req []
      (Ok (Reply 500 (ErrorBody "HubSpot token not configured" None)))
| review_not_found (deal : response dealJson) :
    validateToken e (PoQuoteReview.dealId req) (PoQuoteReview.token req)
    = Ok true ->
    ok deal = false ->
    review_shape e req
      [Event (DealGet (js_String (PoQuoteReview.dealId req))) (Resolves deal)]
      (Ok (Reply 404 (ErrorBody "Deal not found" None)))
| review_failed reads error endpoint text who alert :
    validateToken e (PoQuoteReview.dealId req) (PoQuoteReview.token req)
    = Ok true ->
    all_calls is_crm_read reads ->
    review_shape e req
      (reads ++ [Event (ErrorAlert endpoint text who) alert])
      (Ok (Reply 500 (ErrorBody "Failed to fetch data" (Some (message error)))))
| review_served reads view :
    validateToken e (PoQuoteReview.dealId req) (PoQuoteReview.token req)
    = Ok true ->
    all_calls is_crm_read reads ->
    consistent_view view ->
    review_shape e req reads (Ok (Reply 200 (ReviewOk view))).

(** The ids a batch read asked for. *)
Definition batch_ids (ev : event) : option (list Z) :=
  match ev_call ev with
  | LineItemsBatchRead ids => Some ids
  | _ => None
  end.

(** A request to the read endpoint for deal 12345. *)
Definition review_request (token : jsstring) : PoQuoteReview.request :=
  PoQuoteReview.Request (lit "GET") (JStr (lit "12345")) (JStr token).

(** The CRM knows the deal but refuses every association read. *)
Definition no_association_world : world :=
  override (sample_world 200 200 200)
    (fun c => match c return option (fetched (body_of c)) with
              | AssociationsGet _ _ =>
                  Some (Resolves (Response 403 (lit "missing scope") None))
              | _ => None
              end).

(* ================================================================== *)
(** ** The read endpoints without a token and the maintenance endpoint

    [src/api/deal.js] (first handler), the deal handler with the payer
    flag, the po-quote handler and the clear-options handler.  They read
    other properties and make other calls than the two endpoints above, so
    they have their own records, calls and log. *)

Module Reads.

(** [deal.properties] as these handlers read it; a number is carried as
    [parseFloat]/[parseInt] read it. *)
Record dealFields := DealFields {
  dealname : jsval;
  deal_amount_read : PrimFloat.float;
  designer_notes : jsval;
  sketch_video_url : jsval;
  has_stoning : jsval;
  stoning_budget_low_read : PrimFloat.float;
  stoning_budget_high_read : PrimFloat.float;
  is_po_customer : jsval;
  po_quote_addressee : jsval;
  po_quote_title : jsval;
  po_quote_notes : jsval;
  po_team_size_read : PrimFloat.float;
  sketch_public_url : jsval
}.

Record dealRecord := DealRecord {
  rec_id : jsval;
  properties : option dealFields
}.

(** The answer of the search endpoint: [results] may be missing. *)
Record searchJson := SearchJson {
  found : option (list dealRecord)
}.

(** A line item of a batch read: the four fields of [lineItemProperties]
    and the description. *)
Record itemRecord := ItemRecord {
  item_id : jsval;
  item_properties : option (lineItemProperties * jsval)
}.

Record itemsJson := ItemsJson {
  items : option (list itemRecord)
}.

Record quoteFields := QuoteFields {
  hs_title : jsval;
  hs_status : jsval;
  hs_expiration_date : jsval;
  hs_quote_link : jsval
}.

Record quoteRecord := QuoteRecord {
  quote_id : jsval;
  quote_properties : option quoteFields
}.

Inductive call : Type :=
| DealGet (dealId : jsstring)
| DealSearch (value : jsval)
| Associations (dealId : jsstring) (toObjectType : string)
| ItemsBatchRead (ids : list Z)
| QuoteGet (quoteId : Z)
| ContactGet (contactId : Z)
| OptionsClear (dealId : jsstring)
| ErrorAlert (endpoint : string) (error : jsstring) (dealId : jsval).

(** The body of the clear-options failure is passed on unread. *)
Definition body_of (c : call) : Type :=
  match c with
  | DealGet _ => dealRecord
  | DealSearch _ => searchJson
  | Associations _ _ => associationsJson
  | ItemsBatchRead _ => itemsJson
  | QuoteGet _ => quoteRecord
  | ContactGet _ => contactJson
  | OptionsClear _ => jsval
  | ErrorAlert _ _ _ => unit
  end.

Record event := Event {
  ev_call : call;
  ev_answer : fetched (body_of ev_call)
}.

Definition world : Type := list event -> forall c : call, fetched (body_of c).

(** The handler monad: the log of calls and exceptions. *)
Definition R (A : Type) : Type := list event -> list event * result A.

Definition ret {A : Type} (a : A) : R A := fun log => (log, Ok a).

Definition bind {A B : Type} (m : R A) (f : A -> R B) : R B :=
  fun log =>
    match m log with
    | (log', Ok a) => f a log'
    | (log', Throw e) => (log', Throw e)
    end.

Definition throw {A : Type} (e : exn) : R A := fun log => (log, Throw e).

Definition try_catch {A : Type} (m : R A) (h : exn -> R A) : R A :=
  fun log =>
    match m log with
    | (log', Ok a) => (log', Ok a)
    | (log', Throw e) => h e log'
    end.

Declare Scope reads_scope.
Delimit Scope reads_scope with reads.
Notation "x <- m ;; k" := (bind m (fun x => k))
  (at level 61, m at next level, right associativity) : reads_scope.
Notation "m ;;; k" := (bind m (fun _ => k))
  (at level 61, right associativity) : reads_scope.
Local Open Scope reads_scope.

Definition fetch (w : world) (c : call) : R (response (body_of c)) :=
  fun log =>
    let answer := w log c in
    match answer with
    | Rejects reason => (log ++ [Event c answer], Throw (Exn TypeErrorK reason))
    | Resolves r => (log ++ [Event c answer], Ok r)
    end.

Definition read_json {J : Type} (r : response J) : R J :=
  match json r with
  | Some j => ret j
  | None => throw (Exn SyntaxErrorK (lit "Unexpected token in JSON"))
  end.

Definition properties_of {P : Type} (p : option P) : R P :=
  match p with
  | Some props => ret props
  | None => throw (Exn TypeErrorK (lit "Cannot read properties of undefined"))
  end.

Definition run {A : Type} (m : R A) : list event * result A := m [].

(** [x || null] on a number that was read. *)
Definition number_or_null (x : PrimFloat.float) : option PrimFloat.float :=
  if falsy x then None else Some x.

(** A resolved line item with its description. *)
Record describedItem := DescribedItem {
  item : lineItem;
  description : jsval
}.

Definition resolve_item (r : itemRecord) : R describedItem :=
  props <- properties_of (item_properties r) ;;
  ret (DescribedItem
         (LineItem (item_id r)
            (js_or (name (fst props)) (JStr (lit "Item")))
            (number_or (price_read (fst props)) 0)
            (number_or (quantity_read (fst props)) 1)
            (number_or (amount_read (fst props)) 0))
         (js_or (snd props) (JStr []))).

Fixpoint resolve_items (l : list itemRecord) : R (list describedItem) :=
  match l with
  | [] => ret []
  | r :: rest =>
      x <- resolve_item r ;;
      xs <- resolve_items rest ;;
      ret (x :: xs)
  end.

(** The line items of a deal (deal.js:78-116): a failed association or
    batch call leaves the list empty. *)
Definition fetch_line_items (w : world) (dealId : jsval)
    : R (list describedItem) :=
  assocResponse <- fetch w (Associations (js_String dealId) "line_items") ;;
  if ok assocResponse then
    assocData <- read_json assocResponse ;;
    let lineItemIds :=
      map toObjectId (match results assocData with Some l => l | None => [] end) in
    match lineItemIds with
    | [] => ret []
    | _ :: _ =>
        lineItemsResponse <- fetch w (ItemsBatchRead lineItemIds) ;;
        if ok lineItemsResponse then
          lineItemsData <- read_json lineItemsResponse ;;
          resolve_items
            (match items lineItemsData with Some l => l | None => [] end)
        else ret []
    end
  else ret [].

(** Lines 30-76 of deal.js: the deal by its id or, failing that, the
    first deal whose name contains the id; the id to use from then on. *)
Definition find_deal (w : world) (dealId : jsval)
    : R (option (dealRecord * jsval)) :=
  directResponse <- fetch w (DealGet (js_String dealId)) ;;
  if ok directResponse then
    deal <- read_json directResponse ;;
    ret (Some (deal, dealId))
  else
    searchResponse <- fetch w (DealSearch dealId) ;;
    if ok searchResponse then
      searchData <- read_json searchResponse ;;
      match found searchData with
      | Some (deal :: _) => ret (Some (deal, rec_id deal))
      | _ => ret None
      end
    else ret None.

Record request := Request {
  method : jsstring;
  dealId : jsval
}.

(** The view model of deal.js. *)
Record dealView := DealView {
  v_dealId : jsval;
  v_dealName : jsval;
  v_amount : PrimFloat.float;
  v_lineItems : list describedItem;
  v_total : PrimFloat.float
}.

(** The further fields of the deal handler with the payer flag. *)
Record sketchView := SketchView {
  v_deal : dealView;
  v_designerNotes : jsval;
  v_sketchVideoUrl : jsval;
  v_hasPayer : bool;
  v_hasStoning : bool;
  v_stoningBudgetLow : option PrimFloat.float;
  v_stoningBudgetHigh : option PrimFloat.float
}.

Record quoteView := QuoteView {
  q_id : jsval;
  q_title : jsval;
  q_status : jsval;
  q_expirationDate : jsval;
  q_quoteLink : jsval
}.

Record poFields := PoFields {
  isPoCustomer : bool;
  addressee : jsval;
  title : jsval;
  notes : jsval;
  teamSize : option PrimFloat.float
}.

Record poQuoteView := PoQuoteView {
  p_dealId : jsval;
  p_dealName : jsval;
  p_amount : PrimFloat.float;
  p_total : PrimFloat.float;
  p_lineItems : list lineItem;
  p_existingQuote : option quoteView;
  p_primaryContact : option contactView;
  p_sketchUrl : jsval;
  p_poFields : poFields
}.

Inductive reply_body : Type :=
| NoBody
| ErrorBody (error : string) (details : option jsstring) (dealId : option jsval)
| UpstreamBody (error : string) (details : jsval)
| DealOk (view : dealView)
| SketchOk (view : sketchView)
| PoQuoteOk (view : poQuoteView)
| Success.

Record reply := Reply { code : Z; body : reply_body }.

(** The total over described items. *)
Definition total_of (l : list describedItem) : PrimFloat.float :=
  total (map item l).

(** [(r.associationTypes || []).some(a => a.typeId === 102 &&
    a.label === 'Payer')] *)
Definition is_payer (r : association) : bool :=
  existsb (fun a => strict_eqb (typeId a) (JNum 102)
                    && strict_eqb (label a) (JStr (lit "Payer")))
          (match associationTypes r with Some l => l | None => [] end).

(** [reportError(system, endpoint, error, dealId)] *)
Definition reportError (w : world) (endpoint : string) (error : exn)
    (dealId : jsval) : R unit :=
  try_catch
    (_ <- fetch w (ErrorAlert endpoint (error_text error)
                     (js_or dealId (JStr (lit "unknown")))) ;;
     ret tt)
    (fun _ => ret tt).

(** *** [src/api/deal.js], the first handler *)
Module Deal.

Definition handler (e : env) (w : world) (req : request) : R reply :=
  if str_eqb (method req) (lit "OPTIONS") then ret (Reply 200 NoBody)
  else if negb (truthy (dealId req)) then
    ret (Reply 400 (ErrorBody "dealId is required" None None))
  else if negb (truthy (env_value (HUBSPOT_TOKEN e))) then
    ret (Reply 500 (ErrorBody "HubSpot token not configured" None None))
  else
    try_catch
      (looked <- find_deal w (dealId req) ;;
       match looked with
       | None =>
           ret (Reply 404 (ErrorBody "Deal not found" None (Some (dealId req))))
       | Some (deal, hubspotDealId) =>
           lineItems <- fetch_line_items w hubspotDealId ;;
           props <- properties_of (properties deal) ;;
           ret (Reply 200
                  (DealOk (DealView (rec_id deal)
                             (js_or (dealname props) (JStr (lit "Your Order")))
                             (number_or (deal_amount_read props) (total_of lineItems))
                             lineItems
                             (total_of lineItems))))
       end)
      (fun error =>
         ret (Reply 500 (ErrorBody "Failed to fetch deal data"
                           (Some (message error)) None))).

End Deal.

(** *** The deal handler with the payer flag *)
Module Sketch.

(** Lines 93-106: the payer flag; nothing that goes wrong here leaves
    the block. *)
Definition has_payer (w : world) (hubspotDealId : jsval) : R bool :=
  try_catch
    (contactAssocResponse <-
       fetch w (Associations (js_String hubspotDealId) "contacts") ;;
     if ok contactAssocResponse then
       contactAssocData <- read_json contactAssocResponse ;;
       ret (existsb is_payer
              (match results contactAssocData with Some l => l | None => [] end))
     else ret false)
    (fun _ => ret false).

Definition handler (e : env) (w : world) (req : request) : R reply :=
  if str_eqb (method req) (lit "OPTIONS") then ret (Reply 200 NoBody)
  else if negb (truthy (dealId req)) then
    ret (Reply 400 (ErrorBody "dealId is required" None None))
  else if negb (truthy (env_value (HUBSPOT_TOKEN e))) then
    ret (Reply 500 (ErrorBody "HubSpot token not configured" None None))
  else
    try_catch
      (looked <- find_deal w (dealId req) ;;
       match looked with
       | None =>
           ret (Reply 404 (ErrorBody "Deal not found" None (Some (dealId req))))
       | Some (deal, hubspotDealId) =>
           hasPayer <- has_payer w hubspotDealId ;;
           lineItems <- fetch_line_items w hubspotDealId ;;
           props <- properties_of (properties deal) ;;
           ret (Reply 200
                  (SketchOk
                     (SketchView
                        (DealView (rec_id deal)
                           (js_or (dealname props) (JStr (lit "Your Order")))
                           (number_or (deal_amount_read props) (total_of lineItems))
                           lineItems
                           (total_of lineItems))
                        (js_or (designer_notes props) JNull)
                        (js_or (sketch_video_url props) JNull)
                        hasPayer
                        (strict_eqb (has_stoning props) (JStr (lit "Yes")))
                        (number_or_null (stoning_budget_low_read props))
                        (number_or_null (stoning_budget_high_read props)))))
       end)
      (fun error =>
         reportError w "/api/deal" error (dealId req) ;;;
         ret (Reply 500 (ErrorBody "Failed to fetch deal data"
                           (Some (message error)) None))).

End Sketch.

(** *** The po-quote handler *)
Module PoQuote.

(** Lines 75-100: the existing quote, the first of the associated ones. *)
Definition fetch_quote (w : world) (dealId : jsval) : R (option quoteView) :=
  quoteAssocRes <- fetch w (Associations (js_String dealId) "quotes") ;;
  if ok quoteAssocRes then
    quoteAssocData <- read_json quoteAssocRes ;;
    let quoteIds :=
      map toObjectId
          (match results quoteAssocData with Some l => l | None => [] end) in
    match quoteIds with
    | [] => ret None
    | first :: _ =>
        quoteRes <- fetch w (QuoteGet first) ;;
        if ok quoteRes then
          q <- read_json quoteRes ;;
          props <- properties_of (quote_properties q) ;;
          ret (Some (QuoteView (quote_id q) (hs_title props) (hs_status props)
                       (hs_expiration_date props) (hs_quote_link props)))
        else ret None
    end
  else ret None.

(** Lines 102-127: the primary contact. *)
Definition fetch_primary (w : world) (dealId : jsval)
    : R (option contactView) :=
  contactRes <- fetch w (Associations (js_String dealId) "contacts") ;;
  if ok contactRes then
    contactData <- read_json contactRes ;;
    match primaryAssoc
            (match results contactData with Some l => l | None => [] end) with
    | Some a =>
        cRes <- fetch w (ContactGet (toObjectId a)) ;;
        if ok cRes then
          c <- read_json cRes ;;
          props <- properties_of (contact_properties c) ;;
          ret (Some (ContactView (contact_id c)
                       (PoQuoteReview.joined_name props) (email props)))
        else ret None
    | None => ret None
    end
  else ret None.

Definition handler (e : env) (w : world) (req : request) : R reply :=
  if str_eqb (method req) (lit "OPTIONS") then ret (Reply 200 NoBody)
  else if negb (truthy (dealId req)) then
    ret (Reply 400 (ErrorBody "dealId is required" None None))
  else if negb (truthy (env_value (HUBSPOT_TOKEN e))) then
    ret (Reply 500 (ErrorBody "HubSpot token not configured" None None))
  else
    try_catch
      (dealRes <- fetch w (DealGet (js_String (dealId req))) ;;
       if negb (ok dealRes) then
         ret (Reply 404 (ErrorBody "Deal not found" None None))
       else
         deal <- read_json dealRes ;;
         lineItems <- fetch_line_items w (dealId req) ;;
         existingQuote <- fetch_quote w (dealId req) ;;
         primaryContact <- fetch_primary w (dealId req) ;;
         props <- properties_of (properties deal) ;;
         ret (Reply 200
                (PoQuoteOk
                   (PoQuoteView (rec_id deal)
                      (js_or (dealname props) (JStr []))
                      (number_or (deal_amount_read props) (total_of lineItems))
                      (total_of lineItems)
                      (map item lineItems)
                      existingQuote
                      primaryContact
                      (js_or (sketch_public_url props) JNull)
                      (PoFields
                         (strict_eqb (is_po_customer props) (JStr (lit "true")))
                         (js_or (po_quote_addressee props) (JStr []))
                         (js_or (po_quote_title props) (JStr []))
                         (js_or (po_quote_notes props) (JStr []))
                         (number_or_null (po_team_size_read props)))))))
      (fun error =>
         reportError w "/api/po-quote" error (dealId req) ;;;
         ret (Reply 500 (ErrorBody "Failed to fetch data"
                           (Some (message error)) None))).

End PoQuote.

(** *** The clear-options handler *)
Module ClearOptions.

(** [req.body] is absent when the request carried none. *)
Record request := Request {
  method : jsstring;
  body : option jsval
}.

Definition handler (e : env) (w : world) (req : request) : R reply :=
  if str_eqb (method req) (lit "OPTIONS") then ret (Reply 200 NoBody)
  else if negb (str_eqb (method req) (lit "POST")) then
    ret (Reply 405 (ErrorBody "POST only" None None))
  else if negb (truthy (env_value (HUBSPOT_TOKEN e))) then
    ret (Reply 500 (ErrorBody "HubSpot token not configured" None None))
  else
    match body req with
    | None =>
        throw (Exn TypeErrorK
                 (lit "Cannot destructure property 'dealId' of 'req.body' as it is undefined."))
    | Some dealId =>
        if negb (truthy dealId) then
          ret (Reply 400 (ErrorBody "dealId is required" None None))
        else
          try_catch
            (response <- fetch w (OptionsClear (js_String dealId)) ;;
             if negb (ok response) then
               err <- read_json response ;;
               ret (Reply (status response)
                      (UpstreamBody "HubSpot update failed" err))
             else ret (Reply 200 Success))
            (fun error =>
               ret (Reply 500 (ErrorBody "Failed to clear options"
                                 (Some (message error)) None)))
    end.

End ClearOptions.

(** *** Runs of these handlers *)

(** [runs m P]: from every log, [m] adds some calls [evs] and ends with a
    result [r] such that [P evs r]. *)
Definition runs {A : Type} (m : R A) (P : list event -> result A -> Prop)
    : Prop :=
  forall log, exists evs, fst (m log) = log ++ evs /\ P evs (snd (m log)).

Definition is_alert (ev : event) : bool :=
  match ev_call ev with
  | ErrorAlert _ _ _ => true
  | _ => false
  end.

(** The ways [find_deal] can go. *)
Inductive lookup (dealId : jsval)
    : list event -> result (option (dealRecord * jsval)) -> Prop :=
| lookup_direct (r : response dealRecord) deal :
    ok r = true -> json r = Some deal ->
    lookup dealId [Event (DealGet (js_String dealId)) (Resolves r)]
      (Ok (Some (deal, dealId)))
| lookup_by_name (r : response dealRecord) (rs : response searchJson)
    j deal rest :
    ok r = false -> ok rs = true ->
    json rs = Some j -> found j = Some (deal :: rest) ->
    lookup dealId
      [Event (DealGet (js_String dealId)) (Resolves r);
       Event (DealSearch dealId) (Resolves rs)]
      (Ok (Some (deal, rec_id deal)))
| lookup_nothing (r : response dealRecord) (rs : response searchJson) :
    ok r = false ->
    (ok rs = false
     \/ exists j, json rs = Some j /\ (found j = None \/ found j = Some [])) ->
    lookup dealId
      [Event (DealGet (js_String dealId)) (Resolves r);
       Event (DealSearch dealId) (Resolves rs)]
      (Ok None)
| lookup_fails a error :
    lookup dealId [Event (DealGet (js_String dealId)) a] (Throw error)
| lookup_search_fails (r : response dealRecord) a error :
    ok r = false ->
    lookup dealId
      [Event (DealGet (js_String dealId)) (Resolves r);
       Event (DealSearch dealId) a]
      (Throw error).

(** The deal a look-up found comes with the id to use from then on: the
    requested id after a direct hit, the id of the first search result
    otherwise. *)
Definition found_under (dealId : jsval) (lk : list event)
    (hubspotDealId : jsval) : Prop :=
  (exists resp,
     lk = [Event (DealGet (js_String dealId)) (Resolves resp)]
     /\ ok resp = true /\ hubspotDealId = dealId)
  \/ (exists direct resp j deal rest,
        lk = [Event (DealGet (js_String dealId)) (Resolves direct);
              Event (DealSearch dealId) (Resolves resp)]
        /\ ok direct = false /\ ok resp = true
        /\ json resp = Some j /\ found j = Some (deal :: rest)
        /\ hubspotDealId = rec_id deal).

(** The calls of [fetch_line_items]: the association read and, for a
    non-empty list of ids, the batch read. *)
Inductive item_reads (dealId : jsval) : list event -> Prop :=
| items_unread a :
    item_reads dealId
      [Event (Associations (js_String dealId) "line_items") a]
| items_read a id ids b :
    item_reads dealId
      [Event (Associations (js_String dealId) "line_items") a;
       Event (ItemsBatchRead (id :: ids)) b].

(** What the payer block makes of the answer to its one call. *)
Definition payer_flag (a : fetched associationsJson) : bool :=
  match a with
  | Rejects _ => false
  | Resolves r =>
      ok r && match json r with
              | Some j =>
                  existsb is_payer
                    (match results j with Some l => l | None => [] end)
              | None => false
              end
  end.

(** The view model is consistent with the deal and its line items. *)
Definition consistent (deal : dealRecord) (v : dealView) : Prop :=
  v_dealId v = rec_id deal
  /\ v_total v = total_of (v_lineItems v)
  /\ (v_amount v = v_total v
      \/ exists props, properties deal = Some props
                       /\ deal_amount_read props = v_amount v).

(** Every way [Deal.handler] can go. *)
Inductive deal_shape (req : request) : list event -> result reply -> Prop :=
| deal_early c b :
    In c [200; 400; 500]%Z ->
    deal_shape req [] (Ok (Reply c b))
| deal_not_found lk :
    lookup (dealId req) lk (Ok None) ->
    deal_shape req lk
      (Ok (Reply 404 (ErrorBody "Deal not found" None (Some (dealId req)))))
| deal_lookup_failed lk error :
    lookup (dealId req) lk (Throw error) ->
    deal_shape req lk
      (Ok (Reply 500 (ErrorBody "Failed to fetch deal data"
                        (Some (message error)) None)))
| deal_failed lk deal hubspotDealId itemReads error :
    lookup (dealId req) lk (Ok (Some (deal, hubspotDealId))) ->
    item_reads hubspotDealId itemReads ->
    deal_shape req (lk ++ itemReads)
      (Ok (Reply 500 (ErrorBody "Failed to fetch deal data"
                        (Some (message error)) None)))
| deal_served lk deal hubspotDealId itemReads view :
    lookup (dealId req) lk (Ok (Some (deal, hubspotDealId))) ->
    item_reads hubspotDealId itemReads ->
    consistent deal view ->
    deal_shape req (lk ++ itemReads) (Ok (Reply 200 (DealOk view))).

(** Every way [Sketch.handler] can go. *)
Inductive sketch_shape (req : request) : list event -> result reply -> Prop :=
| sketch_early c b :
    In c [200; 400; 500]%Z ->
    (b = NoBody \/ exists text, b = ErrorBody text None None) ->
    sketch_shape req [] (Ok (Reply c b))
| sketch_not_found lk :
    lookup (dealId req) lk (Ok None) ->
    sketch_shape req lk
      (Ok (Reply 404 (ErrorBody "Deal not found" None (Some (dealId req)))))
| sketch_lookup_failed lk error alert :
    lookup (dealId req) lk (Throw error) ->
    is_alert alert = true ->
    sketch_shape req (lk ++ [alert])
      (Ok (Reply 500 (ErrorBody "Failed to fetch deal data"
                        (Some (message error)) None)))
| sketch_failed lk deal hubspotDealId a itemReads error alert :
    lookup (dealId req) lk (Ok (Some (deal, hubspotDealId))) ->
    item_reads hubspotDealId itemReads ->
    is_alert alert = true ->
    sketch_shape req
      (lk ++ Event (Associations (js_String hubspotDealId) "contacts") a
          :: itemReads ++ [alert])
      (Ok (Reply 500 (ErrorBody "Failed to fetch deal data"
                        (Some (message error)) None)))
| sketch_served lk deal hubspotDealId a itemReads view :
    lookup (dealId req) lk (Ok (Some (deal, hubspotDealId))) ->
    item_reads hubspotDealId itemReads ->
    consistent deal (v_deal view) ->
    v_hasPayer view = payer_flag a ->
    sketch_shape req
      (lk ++ Event (Associations (js_String hubspotDealId) "contacts") a
          :: itemReads)
      (Ok (Reply 200 (SketchOk view))).

(** The answer an association read was given. *)
Definition association_answer (ev : event)
    : option (fetched associationsJson) :=
  match ev with
  | Event (Associations _ _) a => Some a
  | Event _ _ => None
  end.

(** The status an answered call came back with. *)
Definition status_of (ev : event) : option Z :=
  match ev with
  | Event c a =>
      match a with
      | Rejects _ => None
      | Resolves r => Some (status r)
      end
  end.

(** The answer the clearing of the options was given. *)
Definition clear_answer (ev : event) : option (fetched jsval) :=
  match ev with
  | Event (OptionsClear _) a => Some a
  | Event _ _ => None
  end.

Definition is_quote_read (ev : event) : bool :=
  match ev_call ev with
  | QuoteGet _ => true
  | _ => false
  end.

(** The calls of [PoQuote.fetch_quote]: the association read and, when it
    lists quotes, the read of the first. *)
Inductive quote_reads (dealId : jsval) : list event -> Prop :=
| quote_unread a :
    quote_reads dealId [Event (Associations (js_String dealId) "quotes") a]
| quote_read (resp : response associationsJson) j first more b :
    ok resp = true -> json resp = Some j ->
    results j = Some (first :: more) ->
    quote_reads dealId
      [Event (Associations (js_String dealId) "quotes") (Resolves resp);
       Event (QuoteGet (toObjectId first)) b].

(** The calls of [PoQuote.fetch_primary]. *)
Inductive contact_reads (dealId : jsval) : list event -> Prop :=
| contact_unread a :
    contact_reads dealId
      [Event (Associations (js_String dealId) "contacts") a]
| contact_read a id b :
    contact_reads dealId
      [Event (Associations (js_String dealId) "contacts") a;
       Event (ContactGet id) b].

(** How far the po-quote handler got after reading the deal. *)
Inductive po_reads (dealId : jsval) : list event -> Prop :=
| po_at_deal :
    po_reads dealId []
| po_at_items i :
    item_reads dealId i -> po_reads dealId i
| po_at_quote i q :
    item_reads dealId i -> quote_reads dealId q -> po_reads dealId (i ++ q)
| po_at_contact i q c :
    item_reads dealId i -> quote_reads dealId q -> contact_reads dealId c ->
    po_reads dealId (i ++ q ++ c).

(** Every way [PoQuote.handler] can go. *)
Inductive po_shape (req : request) : list event -> result reply -> Prop :=
| po_early c b :
    In c [200; 400; 500]%Z ->
    po_shape req [] (Ok (Reply c b))
| po_not_found (r : response dealRecord) :
    ok r = false ->
    po_shape req [Event (DealGet (js_String (dealId req))) (Resolves r)]
      (Ok (Reply 404 (ErrorBody "Deal not found" None None)))
| po_unreachable reason error alert :
    is_alert alert = true ->
    po_shape req
      [Event (DealGet (js_String (dealId req))) (Rejects reason); alert]
      (Ok (Reply 500 (ErrorBody "Failed to fetch data"
                        (Some (message error)) None)))
| po_failed (r : response dealRecord) reads error alert :
    ok r = true ->
    po_reads (dealId req) reads ->
    is_alert alert = true ->
    po_shape req
      (Event (DealGet (js_String (dealId req))) (Resolves r)
         :: reads ++ [alert])
      (Ok (Reply 500 (ErrorBody "Failed to fetch data"
                        (Some (message error)) None)))
| po_served (r : response dealRecord) i q c view :
    ok r = true ->
    item_reads (dealId req) i ->
    quote_reads (dealId req) q ->
    contact_reads (dealId req) c ->
    p_total view = total (p_lineItems view) ->
    po_shape req
      (Event (DealGet (js_String (dealId req))) (Resolves r) :: i ++ q ++ c)
      (Ok (Reply 200 (PoQuoteOk view))).

(** Every way [ClearOptions.handler] can go. *)
Inductive clear_shape (e : env) (req : ClearOptions.request)
    : list event -> result reply -> Prop :=
| clear_preflight :
    clear_shape e req [] (Ok (Reply 200 NoBody))
| clear_early c text :
    In c [405; 500; 400]%Z ->
    clear_shape e req [] (Ok (Reply c (ErrorBody text None None)))
| clear_no_body error :
    ClearOptions.method req = lit "POST" ->
    truthy (env_value (HUBSPOT_TOKEN e)) = true ->
    ClearOptions.body req = None ->
    clear_shape e req [] (Throw error)
| clear_done dealId (resp : response jsval) :
    ClearOptions.body req = Some dealId ->
    ok resp = true ->
    clear_shape e req
      [Event (OptionsClear (js_String dealId)) (Resolves resp)]
      (Ok (Reply 200 Success))
| clear_refused dealId (resp : response jsval) err :
    ClearOptions.body req = Some dealId ->
    ok resp = false ->
    json resp = Some err ->
    clear_shape e req
      [Event (OptionsClear (js_String dealId)) (Resolves resp)]
      (Ok (Reply (status resp) (UpstreamBody "HubSpot update failed" err)))
| clear_unreadable dealId (resp : response jsval) error :
    ClearOptions.body req = Some dealId ->
    ok resp = false ->
    json resp = None ->
    clear_shape e req
      [Event (OptionsClear (js_String dealId)) (Resolves resp)]
      (Ok (Reply 500 (ErrorBody "Failed to clear options"
                        (Some (message error)) None)))
| clear_unreachable dealId reason error :
    ClearOptions.body req = Some dealId ->
    clear_shape e req
      [Event (OptionsClear (js_String dealId)) (Rejects reason)]
      (Ok (Reply 500 (ErrorBody "Failed to clear options"
                        (Some (message error)) None))).

(** *** Sample collaborators

    A CRM that knows deal 12345 under its id and finds deal 900 when asked
    for the name "D-77"; every deal has two line items, the quotes 7 and 8
    and the contacts of [spec_contacts]. *)
Definition sample_deal (id : string) : dealRecord :=
  DealRecord (JStr (lit id))
    (Some (DealFields (JStr (lit "Showcase")) PrimFloat.nan
             (JStr (lit "rush")) JUndefined (JStr (lit "Yes")) 150
             PrimFloat.nan (JStr (lit "true")) JUndefined
             (JStr (lit "Final quote")) JUndefined 12 JUndefined)).

Definition sample_items : list itemRecord :=
  [ItemRecord (JStr (lit "1"))
     (Some (LineItemProperties JUndefined 10 2 PrimFloat.nan, JUndefined));
   ItemRecord (JStr (lit "2"))
     (Some (LineItemProperties (JStr (lit "Rhinestones")) 5 1 7,
            JStr (lit "per team")))].

Definition refused {J : Type} (code : Z) : fetched J :=
  Resolves (Response code [] None).

Definition answers {J : Type} (j : J) : fetched J :=
  Resolves (Response 200 [] (Some j)).

Definition crm : world :=
  fun _ c =>
    match c return fetched (body_of c) with
    | DealGet id =>
        if str_eqb id (lit "12345") then answers (sample_deal "12345")
        else refused 404
    | DealSearch value =>
        if strict_eqb value (JStr (lit "D-77"))
        then answers (SearchJson (Some [sample_deal "900"]))
        else answers (SearchJson (Some []))
    | Associations _ kind =>
        if String.eqb kind "line_items"
        then answers (AssociationsJson
                        (Some [Association 1 None; Association 2 None]))
        else if String.eqb kind "quotes"
        then answers (AssociationsJson
                        (Some [Association 7 None; Association 8 None]))
        else answers (AssociationsJson (Some spec_contacts))
    | ItemsBatchRead _ => answers (ItemsJson (Some sample_items))
    | QuoteGet id =>
        answers (QuoteRecord (JNum id)
                   (Some (QuoteFields (JStr (lit "PO quote")) (JStr (lit "DRAFT"))
                            JUndefined JUndefined)))
    | ContactGet id =>
        answers (ContactJson (JNum id)
                   (Some (ContactProperties (JStr (lit "pat@example.com"))
                            (JStr (lit "Pat")) JUndefined)))
    | OptionsClear _ => answers JNull
    | ErrorAlert _ _ _ => answers tt
    end.

(** The same CRM with every contact association labelled "Payer" under
    the type 102. *)
Definition crm_with_payer : world :=
  fun log c =>
    match c return fetched (body_of c) with
    | Associations id kind =>
        if String.eqb kind "contacts"
        then answers (AssociationsJson
                        (Some [Association 31
                                 (Some [AssociationType (JStr (lit "Payer"))
                                          (JNum 102)])]))
        else crm log (Associations id kind)
    | c' => crm log c'
    end.

(** The same CRM out of reach for the contact associations. *)
Definition crm_without_contacts : world :=
  fun log c =>
    match c return fetched (body_of c) with
    | Associations id kind =>
        if String.eqb kind "contacts" then Rejects (lit "fetch failed")
        else crm log (Associations id kind)
    | c' => crm log c'
    end.

Definition get (id : string) : request := Request (lit "GET") (JStr (lit id)).

(** The CRM refuses the clearing of the options with a 409 and a body. *)
Definition crm_in_conflict : world :=
  fun log c =>
    match c return fetched (body_of c) with
    | OptionsClear _ =>
        Resolves (Response 409 [] (Some (JStr (lit "conflict"))))
    | c' => crm log c'
    end.

Definition clear (id : string) : ClearOptions.request :=
  ClearOptions.Request (lit "POST") (Some (JStr (lit id))).

End Reads.

(* ================================================================== *)
(** * Properties *)

(** ** The HMAC-SHA256 model *)

(** Known answers of SHA-256 and HMAC-SHA256 (FIPS 180-4 and RFC 4231
    style vectors). *)
Example sha256_abc :
  hex (Crypto.sha256 (utf8 (lit "abc")))
  = lit "ba7816bf8f01cfea414140de5dae2223b00361a396177a9cb410ff61f20015ad".
Proof. vm_compute. reflexivity. Qed.

Example sha256_two_blocks :
  hex (Crypto.sha256 (repeat 97 120))
  = lit "2f3d335432c70b580af0e8e1b3674a7c020d683aa5f73aaaedfdc55af904c21c".
Proof. vm_compute. reflexivity. Qed.

Example hmac_sha256_fox :
  hex (Crypto.hmac_sha256 (utf8 (lit "key"))
         (utf8 (lit "The quick brown fox jumps over the lazy dog")))
  = lit "f7bc83f430538424b13298e6aa6fb143ef4d59a14946175997479dbc2d1a3cd8".
Proof. vm_compute. reflexivity. Qed.

Example hmac_sha256_long_key :
  hex (Crypto.hmac_sha256 (repeat 107 100) (utf8 (lit "12345")))
  = lit "f689001ca16509d9e995532e3b6c44cc931e65a9c830cb6abdd2dda6951ff139".
Proof. vm_compute. reflexivity. Qed.


(* ================================================================== *)
(** ** Token authority *)

Lemma str_eqb_refl (s : jsstring) : str_eqb s s = true.
Proof.
  induction s as [|c s IH]; simpl; [reflexivity|].
  now rewrite N.eqb_refl, IH.
Qed.

Lemma str_eqb_eq (a b : jsstring) : str_eqb a b = true <-> a = b.
Proof.
  split.
  - revert b; induction a as [|x a IH]; intros [|y b] H; simpl in H;
      try discriminate; [reflexivity|].
    apply andb_true_iff in H as [Hxy Hab].
    apply N.eqb_eq in Hxy. apply IH in Hab. now subst.
  - intros ->. apply str_eqb_refl.
Qed.

Lemma hex_length (b : buffer) : List.length (hex b) = (2 * List.length b)%nat.
Proof.
  induction b as [|x b IH]; [reflexivity|].
  change (hex (x :: b))
    with ([hex_digit (N.shiftr x 4); hex_digit (N.land x 15)] ++ hex b).
  rewrite length_app, IH. simpl. lia.
Qed.

Lemma sha256_length (m : buffer) : List.length (Crypto.sha256 m) = 32%nat.
Proof.
  unfold Crypto.sha256.
  generalize (Crypto.blocks
                (List.length (Crypto.words (Crypto.pad m)) / 16)
                (Crypto.words (Crypto.pad m)) Crypto.H0).
  intro s. reflexivity.
Qed.

Lemma hmac_sha256_length (key msg : buffer) :
  List.length (Crypto.hmac_sha256 key msg) = 32%nat.
Proof. unfold Crypto.hmac_sha256. apply sha256_length. Qed.

Lemma expected_length (secret : jsstring) (dealId : jsval) :
  List.length (expected secret dealId) = 16%nat.
Proof.
  unfold expected, substring0.
  rewrite length_firstn, hex_length, hmac_sha256_length. reflexivity.
Qed.

(** A string of exactly 16 code units is left alone by
    [substring(0, 16).padEnd(16, '0')]. *)
Lemma pad_of_16 (s : jsstring) :
  List.length s = 16%nat -> padEnd0 16 (substring0 16 s) = s.
Proof.
  intro H. unfold padEnd0, substring0.
  rewrite firstn_all2 by lia. rewrite H. simpl. apply app_nil_r.
Qed.

Lemma timingSafeEqual_same (b : buffer) : timingSafeEqual b b = Ok true.
Proof.
  unfold timingSafeEqual, buffer_eqb.
  now rewrite Nat.eqb_refl, str_eqb_refl.
Qed.

(** C1 -- Token round trip: under every non-empty secret, and for every
    deal id, [validateToken] accepts the token issued for that deal id,
    the first 16 hexadecimal characters of
    HMAC-SHA256(secret, String(dealId)). *)
Theorem token_round_trip (e : env) (secret : jsstring) (dealId : jsval) :
  PO_QUOTE_SECRET e = Some secret ->
  secret <> [] ->
  validateToken e dealId (JStr (expected secret dealId)) = Ok true.
Proof.
  intros Hsecret Hne. unfold validateToken. rewrite Hsecret.
  destruct secret as [|c secret]; [contradiction|].
  pose proof (expected_length (c :: secret) dealId) as Hlen.
  cbn [env_value js_String].
  remember (expected (c :: secret) dealId) as tok eqn:Htok.
  destruct tok as [|x xs]; [discriminate Hlen|].
  cbn [truthy negb orb].
  rewrite pad_of_16 by exact Hlen.
  apply timingSafeEqual_same.
Qed.

Lemma token_round_trip_witness :
  validateToken (Env (Some (lit "s3cret")) None) (JStr (lit "12345"))
    (JStr (expected (lit "s3cret") (JStr (lit "12345")))) = Ok true.
Proof.
  apply token_round_trip; [reflexivity|].
  intro H. apply (f_equal (@List.length N)) in H. cbn in H. discriminate H.
Defined.

(** The token issued for deal 12345 under the secret "s3cret". *)
Example expected_12345 :
  expected (lit "s3cret") (JStr (lit "12345")) = lit "672b04fffe37d734".
Proof. vm_compute. reflexivity. Qed.

(** C2 -- Fail-closed verification: [validateToken] answers [false]
    whenever the secret is unset (or empty), whatever the deal id and the
    supplied token, and whenever the supplied token is absent or empty,
    whatever the secret and the deal id. *)
Theorem validateToken_fail_closed :
  (forall hubspot dealId token,
      validateToken (Env None hubspot) dealId token = Ok false)
  /\ (forall hubspot dealId token,
      validateToken (Env (Some []) hubspot) dealId token = Ok false)
  /\ (forall e dealId,
      validateToken e dealId JUndefined = Ok false
      /\ validateToken e dealId JNull = Ok false
      /\ validateToken e dealId (JStr []) = Ok false).
Proof.
  split; [|split].
  - reflexivity.
  - reflexivity.
  - intros e dealId. unfold validateToken.
    destruct (truthy (env_value (PO_QUOTE_SECRET e))); simpl; auto.
Qed.

(** *** Byte length of the two compared buffers *)

Lemma land_255_lt (x : N) : N.land x 0xFF < 256.
Proof.
  change 0xFF with (N.ones 8). rewrite N.land_ones.
  apply N.mod_lt. discriminate.
Qed.

Lemma sha256_bytes (m : buffer) : Forall (fun x => x < 256) (Crypto.sha256 m).
Proof.
  unfold Crypto.sha256.
  generalize (Crypto.blocks
                (List.length (Crypto.words (Crypto.pad m)) / 16)
                (Crypto.words (Crypto.pad m)) Crypto.H0).
  intro s. unfold Crypto.digest_bytes, Crypto.be_bytes.
  cbn [map rev seq app].
  repeat (constructor; [apply land_255_lt|]). constructor.
Qed.

Lemma hex_digit_ascii (d : N) : d < 16 -> hex_digit d < 128.
Proof. unfold hex_digit. intro H. destruct (d <? 10); lia. Qed.

Lemma hex_ascii (b : buffer) :
  Forall (fun x => x < 256) b -> Forall (fun c => c < 128) (hex b).
Proof.
  induction 1 as [|x b Hx _ IH]; [constructor|].
  change (hex (x :: b))
    with ([hex_digit (N.shiftr x 4); hex_digit (N.land x 15)] ++ hex b).
  apply Forall_app. split; [|exact IH].
  constructor; [|constructor; [|constructor]]; apply hex_digit_ascii.
  - rewrite N.shiftr_div_pow2. change (2 ^ 4) with 16.
    apply N.Div0.div_lt_upper_bound. lia.
  - change 15 with (N.ones 4). rewrite N.land_ones.
    apply N.mod_lt. discriminate.
Qed.

(** ASCII text is its own UTF-8 encoding. *)
Lemma utf8_ascii (s : jsstring) : Forall (fun c => c < 128) s -> utf8 s = s.
Proof.
  induction 1 as [|c s Hc _ IH]; [reflexivity|].
  cbn [utf8]. unfold is_high_surrogate, is_low_surrogate, utf8_of_code_point.
  replace (0xD800 <=? c) with false by (symmetry; apply N.leb_gt; lia).
  replace (0xDC00 <=? c) with false by (symmetry; apply N.leb_gt; lia).
  replace (c <? 0x80) with true by (symmetry; apply N.ltb_lt; lia).
  cbn [andb app]. now rewrite IH.
Qed.

Lemma Forall_prefix {A : Type} (P : A -> Prop) (n : nat) (l : list A) :
  Forall P l -> Forall P (firstn n l).
Proof.
  intro H. revert n. induction H as [|x l Hx _ IH]; intros [|n]; simpl;
    constructor; auto.
Qed.

Lemma expected_utf8 (secret : jsstring) (dealId : jsval) :
  utf8 (expected secret dealId) = expected secret dealId.
Proof.
  apply utf8_ascii. unfold expected, substring0.
  apply Forall_prefix, hex_ascii, sha256_bytes.
Qed.

(** What [validateToken] does once the secret is set and a non-empty
    string is supplied: it throws unless the supplied token, cut and padded
    to 16 code units, encodes to exactly 16 bytes. *)
Lemma validateToken_outcome (e : env) (secret : jsstring) (dealId : jsval)
    (c : N) (t : jsstring) :
  PO_QUOTE_SECRET e = Some secret ->
  secret <> [] ->
  let supplied := utf8 (padEnd0 16 (substring0 16 (c :: t))) in
  validateToken e dealId (JStr (c :: t)) =
    if Nat.eqb 16 (List.length supplied)
    then Ok (buffer_eqb (expected secret dealId) supplied)
    else Throw (Exn RangeErrorK
                  (lit "Input buffers must have the same byte length")).
Proof.
  intros Hsecret Hne supplied. unfold validateToken. rewrite Hsecret.
  destruct secret as [|x secret]; [contradiction|].
  simpl negb. simpl orb. cbv iota.
  unfold timingSafeEqual. simpl js_String.
  rewrite expected_utf8, expected_length. reflexivity.
Qed.

(** C10 -- Totality of token verification fails on the code: with the
    secret set, a supplied token holding one non-ASCII character is cut
    and padded to 16 code units but encodes to 17 bytes, and
    [timingSafeEqual] throws a RangeError. *)
Theorem validateToken_throws_on_non_ascii_token :
  validateToken (Env (Some (lit "s3cret")) (Some (lit "pat")))
    (JStr (lit "12345")) (JStr [0xE9])
  = Throw (Exn RangeErrorK (lit "Input buffers must have the same byte length")).
Proof. vm_compute. reflexivity. Qed.

(* ================================================================== *)
(** ** Totals *)






(* ================================================================== *)
(** ** Role resolution *)

Lemma find_filter {A : Type} (p : A -> bool) (l : list A) :
  find p l = hd_error (filter p l).
Proof.
  induction l as [|x l IH]; simpl; [reflexivity|].
  destruct (p x); [reflexivity|exact IH].
Qed.

Lemma filter_perm {A : Type} (p : A -> bool) (l1 l2 : list A) :
  Permutation l1 l2 -> Permutation (filter p l1) (filter p l2).
Proof.
  induction 1 as [|x l1 l2 _ IH|x y l1|l1 l2 l3 _ IH1 _ IH2]; simpl.
  - constructor.
  - destruct (p x); [now constructor|exact IH].
  - destruct (p x), (p y); try reflexivity. apply perm_swap.
  - now transitivity (filter p l2).
Qed.

(** A list of at most one element has no other arrangement. *)
Lemma short_perm {A : Type} (l1 l2 : list A) :
  Permutation l1 l2 -> (List.length l1 <= 1)%nat -> l1 = l2.
Proof.
  intros H Hlen. destruct l1 as [|x [|y l1]]; simpl in Hlen; [| |lia].
  - now apply Permutation_nil in H.
  - now apply Permutation_length_1_inv in H.
Qed.

(** When at most one entry satisfies [p], [find p] does not depend on the
    order of the list. *)
Lemma find_unique_perm {A : Type} (p : A -> bool) (l1 l2 : list A) :
  Permutation l1 l2 ->
  (List.length (filter p l1) <= 1)%nat ->
  find p l1 = find p l2.
Proof.
  intros H Hlen. rewrite !find_filter.
  now rewrite (short_perm _ _ (filter_perm p _ _ H) Hlen).
Qed.

Lemma find_present {A : Type} (p : A -> bool) (l : list A) :
  (0 < List.length (filter p l))%nat -> exists x, find p l = Some x.
Proof.
  rewrite find_filter. destruct (filter p l) as [|x f]; simpl; [lia|].
  intros _. now exists x.
Qed.

(** C4, as amended -- Role resolution is order-independent when the
    labels single out the contacts: for every two permutations of an
    association list in which at most one entry carries "Payer" and
    exactly one entry carries "Primary Contact", the same entry is
    selected as Payer and the same entry is selected as Primary. *)
Theorem role_resolution_order_independent (l1 l2 : list association) :
  Permutation l1 l2 ->
  (List.length (filter (has_label "Payer") l1) <= 1)%nat ->
  List.length (filter (has_label "Primary Contact") l1) = 1%nat ->
  payerAssoc l1 = payerAssoc l2 /\ primaryAssoc l1 = primaryAssoc l2.
Proof.
  intros Hperm Hpayer Hprimary. unfold payerAssoc, primaryAssoc. split.
  - now apply find_unique_perm.
  - rewrite <- (find_unique_perm _ l1 l2 Hperm) by lia.
    destruct (find_present (has_label "Primary Contact") l1) as [x Hx]; [lia|].
    now rewrite Hx.
Qed.

Lemma role_resolution_order_independent_witness :
  contact_of (payerAssoc spec_contacts) = Some 3%Z
  /\ contact_of (primaryAssoc spec_contacts) = Some 2%Z
  /\ payerAssoc spec_contacts
     = payerAssoc [contact 3 ["Payer"%string]; contact 1 [];
                   contact 2 ["Primary Contact"%string]]
  /\ primaryAssoc spec_contacts
     = primaryAssoc [contact 3 ["Payer"%string]; contact 1 [];
                     contact 2 ["Primary Contact"%string]].
Proof.
  split; [reflexivity|]. split; [reflexivity|].
  apply role_resolution_order_independent.
  - unfold spec_contacts.
    apply Permutation_sym, (Permutation_cons_app [_; _] []). reflexivity.
  - vm_compute. lia.
  - reflexivity.
Defined.

(** The example of the specification, in every order: Payer is contact 3
    and Primary is contact 2. *)
Lemma spec_contacts_any_order (l : list association) :
  Permutation spec_contacts l ->
  contact_of (payerAssoc l) = Some 3%Z
  /\ contact_of (primaryAssoc l) = Some 2%Z.
Proof.
  intro Hperm. unfold payerAssoc, primaryAssoc.
  rewrite <- (find_unique_perm (has_label "Payer") _ _ Hperm)
    by (vm_compute; lia).
  rewrite <- (find_unique_perm (has_label "Primary Contact") _ _ Hperm)
    by (vm_compute; lia).
  split; reflexivity.
Qed.

(** C4 -- as stated the claim fails: two contacts that both carry
    "Payer" (and no "Primary Contact") are resolved to the one that comes
    first, so the two orders of the same list select different contacts. *)
Lemma role_resolution_depends_on_order :
  ~ (forall l1 l2 : list association,
        Permutation l1 l2 ->
        contact_of (payerAssoc l1) = contact_of (payerAssoc l2)
        /\ contact_of (primaryAssoc l1) = contact_of (primaryAssoc l2)).
Proof.
  intro H.
  destruct (H [contact 1 ["Payer"%string]; contact 2 ["Payer"%string]]
              [contact 2 ["Payer"%string]; contact 1 ["Payer"%string]]
              (perm_swap _ _ _)) as [Hpayer _].
  vm_compute in Hpayer. discriminate Hpayer.
Qed.

(** C5 -- Fallback primary: in a non-empty association list none of whose
    entries carries "Primary Contact", the first entry is the Primary,
    whatever its labels. *)
Theorem fallback_primary_is_first (first : association)
    (rest : list association) :
  (forall r, In r (first :: rest) -> has_label "Primary Contact" r = false) ->
  primaryAssoc (first :: rest) = Some first.
Proof.
  intro Hnone. unfold primaryAssoc.
  destruct (find (has_label "Primary Contact") (first :: rest)) as [r|] eqn:Hfind;
    [|reflexivity].
  apply find_some in Hfind as [Hin Hlabel].
  rewrite (Hnone r Hin) in Hlabel. discriminate Hlabel.
Qed.

Lemma fallback_primary_is_first_witness :
  contact_of (primaryAssoc [contact 5 []]) = Some 5%Z.
Proof.
  rewrite (fallback_primary_is_first (contact 5 []) []); [reflexivity|].
  intros r [<-|[]]. reflexivity.
Defined.

(* ================================================================== *)
(** ** The handler monad *)

Lemma only_ret (Q : call -> bool) {A : Type} (a : A) : only Q (ret a).
Proof. intro s. exists []. simpl. now rewrite app_nil_r. Qed.

Lemma only_throw (Q : call -> bool) {A : Type} (e : exn) :
  only Q (@throw A e).
Proof. intro s. exists []. simpl. now rewrite app_nil_r. Qed.

Lemma only_lift (Q : call -> bool) {A : Type} (r : result A) :
  only Q (lift r).
Proof. intro s. exists []. simpl. now rewrite app_nil_r. Qed.

Lemma only_get (Q : call -> bool) {A : Type} (f : st -> A) : only Q (get f).
Proof. intro s. exists []. simpl. now rewrite app_nil_r. Qed.

Lemma only_set_dealName (Q : call -> bool) (v : jsval) :
  only Q (set_dealName v).
Proof. intro s. exists []. simpl. now rewrite app_nil_r. Qed.

Lemma only_set_contact (Q : call -> bool) (x y : jsval) :
  only Q (set_contact x y).
Proof. intro s. exists []. simpl. now rewrite app_nil_r. Qed.

Lemma only_set_cc (Q : call -> bool) (x y : jsval) : only Q (set_cc x y).
Proof. intro s. exists []. simpl. now rewrite app_nil_r. Qed.

Lemma only_fetch (Q : call -> bool) (w : world) (c : call) :
  Q c = true -> only Q (fetch w c).
Proof.
  intros HQ s. exists [Event c (respond w (trace s) c)]. unfold fetch.
  destruct (respond w (trace s) c); simpl; now rewrite HQ.
Qed.

Lemma only_bind (Q : call -> bool) {A B : Type} (m : M A) (f : A -> M B) :
  only Q m -> (forall a, only Q (f a)) -> only Q (bind m f).
Proof.
  intros Hm Hf s. unfold bind.
  destruct (Hm s) as [evs [Htrace Hall]].
  destruct (m s) as [s1 [a|e]]; simpl in Htrace.
  - destruct (Hf a s1) as [evs' [Htrace' Hall']].
    exists (evs ++ evs'). rewrite Htrace', Htrace, app_assoc, forallb_app.
    now rewrite Hall, Hall'.
  - now exists evs.
Qed.

Lemma only_try_catch (Q : call -> bool) {A : Type} (m : M A)
    (h : exn -> M A) :
  only Q m -> (forall e, only Q (h e)) -> only Q (try_catch m h).
Proof.
  intros Hm Hh s. unfold try_catch.
  destruct (Hm s) as [evs [Htrace Hall]].
  destruct (m s) as [s1 [a|e]]; simpl in Htrace.
  - now exists evs.
  - destruct (Hh e s1) as [evs' [Htrace' Hall']].
    exists (evs ++ evs'). rewrite Htrace', Htrace, app_assoc, forallb_app.
    now rewrite Hall, Hall'.
Qed.

Lemma only_read_json (Q : call -> bool) {J : Type} (r : response J) :
  only Q (read_json r).
Proof.
  unfold read_json. destruct (json r); [apply only_ret|apply only_throw].
Qed.

Lemma only_properties_of (Q : call -> bool) {P : Type} (p : option P) :
  only Q (properties_of p).
Proof.
  unfold properties_of. destruct p; [apply only_ret|apply only_throw].
Qed.

Lemma only_as_string (Q : call -> bool) (method : string) (v : jsval) :
  only Q (as_string method v).
Proof.
  unfold as_string. destruct v; try apply only_throw. apply only_ret.
Qed.

Create HintDb only_db.
#[local] Hint Resolve only_ret only_throw only_lift only_get only_set_dealName
  only_set_contact only_set_cc only_read_json only_properties_of
  only_as_string : only_db.

(** Walk through a handler: binds and catches split, conditionals and
    matches are decided both ways, a fetch must be an allowed call. *)
Ltac only_step :=
  match goal with
  | |- only _ (bind _ _) => apply only_bind; [|intro]
  | |- only _ (try_catch _ _) => apply only_try_catch; [|intro]
  | |- only _ (fetch _ _) => apply only_fetch; reflexivity
  | |- only _ (if ?b then _ else _) => destruct b
  | |- only _ (match ?x with _ => _ end) => destruct x
  | |- only _ _ => solve [auto with only_db]
  end.

(** A [catch] that returns normally leaves no exception behind. *)
Lemma swallowed (m : M unit) (s : st) :
  snd (try_catch m (fun _ => ret tt) s) = Ok tt.
Proof.
  unfold try_catch. destruct (m s) as [s1 [[]|e]]; reflexivity.
Qed.

(* ================================================================== *)
(** ** The write endpoint *)

Lemma resolve_recipients_only (w : world) (dealId : jsval) :
  only is_lookup (UploadPo.resolve_recipients w dealId).
Proof. unfold UploadPo.resolve_recipients. repeat only_step. Qed.

Lemma resolve_recipients_returns (w : world) (dealId : jsval) (s : st) :
  snd (UploadPo.resolve_recipients w dealId s) = Ok tt.
Proof. apply swallowed. Qed.

Lemma reportError_only (w : world) (endpoint : string) (error : exn)
    (dealId dealName : jsval) :
  only is_lookup (UploadPo.reportError w endpoint error dealId dealName).
Proof. unfold UploadPo.reportError. repeat only_step. Qed.

Lemma reportError_returns (w : world) (endpoint : string) (error : exn)
    (dealId dealName : jsval) (s : st) :
  snd (UploadPo.reportError w endpoint error dealId dealName s) = Ok tt.
Proof. apply swallowed. Qed.

(** *** Rules for [runs] *)

Lemma runs_ret {A : Type} (a : A) (P : list event -> result A -> Prop) :
  P [] (Ok a) -> runs (ret a) P.
Proof. intros H s. exists []. cbn [ret fst snd]. now rewrite app_nil_r. Qed.

Lemma runs_throw {A : Type} (e : exn) (P : list event -> result A -> Prop) :
  P [] (Throw e) -> runs (throw e) P.
Proof. intros H s. exists []. cbn [throw fst snd]. now rewrite app_nil_r. Qed.

Lemma runs_lift {A : Type} (r : result A)
    (P : list event -> result A -> Prop) :
  P [] r -> runs (lift r) P.
Proof. intros H s. exists []. cbn [lift fst snd]. now rewrite app_nil_r. Qed.

Lemma runs_get {A : Type} (f : st -> A) (P : list event -> result A -> Prop) :
  (forall a, P [] (Ok a)) -> runs (get f) P.
Proof. intros H s. exists []. cbn [get fst snd]. now rewrite app_nil_r. Qed.

Lemma runs_set_dealName (v : jsval) (P : list event -> result unit -> Prop) :
  P [] (Ok tt) -> runs (set_dealName v) P.
Proof.
  intros H s. exists []. cbn [set_dealName fst snd trace].
  now rewrite app_nil_r.
Qed.

Lemma runs_set_contact (x y : jsval) (P : list event -> result unit -> Prop) :
  P [] (Ok tt) -> runs (set_contact x y) P.
Proof.
  intros H s. exists []. cbn [set_contact fst snd trace].
  now rewrite app_nil_r.
Qed.

Lemma runs_set_cc (x y : jsval) (P : list event -> result unit -> Prop) :
  P [] (Ok tt) -> runs (set_cc x y) P.
Proof.
  intros H s. exists []. cbn [set_cc fst snd trace]. now rewrite app_nil_r.
Qed.

Lemma runs_fetch (w : world) (c : call)
    (P : list event -> result (response (body_of c)) -> Prop) :
  (forall reason, P [Event c (Rejects reason)] (Throw (Exn TypeErrorK reason))) ->
  (forall r, P [Event c (Resolves r)] (Ok r)) ->
  runs (fetch w c) P.
Proof.
  intros Hrej Hres s. unfold fetch.
  destruct (respond w (trace s) c) as [reason|r]; cbn [fst snd trace log];
    eexists; split; try reflexivity; auto.
Qed.

Lemma runs_bind {A B : Type} (m : M A) (f : A -> M B)
    (P : list event -> result B -> Prop) :
  runs m (fun evs1 r1 =>
            match r1 with
            | Ok a => runs (f a) (fun evs2 r => P (evs1 ++ evs2) r)
            | Throw e => P evs1 (Throw e)
            end) ->
  runs (bind m f) P.
Proof.
  intros Hm s. unfold bind. destruct (Hm s) as [evs1 [Htrace H]].
  destruct (m s) as [s1 [a|e]]; cbn [fst snd] in *.
  - destruct (H s1) as [evs2 [Htrace2 H2]].
    exists (evs1 ++ evs2). now rewrite Htrace2, Htrace, app_assoc.
  - now exists evs1.
Qed.

Lemma runs_try_catch {A : Type} (m : M A) (h : exn -> M A)
    (P : list event -> result A -> Prop) :
  runs m (fun evs1 r1 =>
            match r1 with
            | Ok a => P evs1 (Ok a)
            | Throw e => runs (h e) (fun evs2 r => P (evs1 ++ evs2) r)
            end) ->
  runs (try_catch m h) P.
Proof.
  intros Hm s. unfold try_catch. destruct (Hm s) as [evs1 [Htrace H]].
  destruct (m s) as [s1 [a|e]]; cbn [fst snd] in *.
  - now exists evs1.
  - destruct (H s1) as [evs2 [Htrace2 H2]].
    exists (evs1 ++ evs2). now rewrite Htrace2, Htrace, app_assoc.
Qed.

Lemma runs_consequence {A : Type} (m : M A)
    (P P' : list event -> result A -> Prop) :
  runs m P -> (forall evs r, P evs r -> P' evs r) -> runs m P'.
Proof.
  intros Hm Himp s. destruct (Hm s) as [evs [Htrace H]].
  exists evs. auto.
Qed.

(** A step that only makes look-ups and swallows its exceptions. *)
Lemma runs_quietly (m : M unit) :
  only is_lookup m -> (forall s, snd (m s) = Ok tt) ->
  runs m (fun evs r => quiet evs /\ r = Ok tt).
Proof.
  intros Honly Hret s. destruct (Honly s) as [evs [Htrace Hall]].
  exists evs. auto.
Qed.

Lemma run_outcome {A : Type} (m : M A) (P : list event -> result A -> Prop)
    (calls : list event) (r : result A) :
  runs m P -> run m = (calls, r) -> P calls r.
Proof.
  intros Hm Hrun. unfold run in Hrun. destruct (Hm initial) as [evs [Htrace H]].
  destruct (m initial) as [s r']. cbn [fst snd] in *.
  injection Hrun as <- <-. rewrite Htrace. exact H.
Qed.

(** Symbolic execution of a handler: unfold the monad, then decide the
    next answer of the world, status or body. *)
Ltac run_monad :=
  cbv beta iota zeta
      delta [bind ret throw try_catch get fetch read_json properties_of lift
             as_string fst snd trace log set_dealName set_contact set_cc
             dealName contactEmail contactName ccEmail ccName].

Ltac run_step :=
  match goal with
  | |- context [respond ?w ?h ?c] =>
      let Ha := fresh "Ha" in
      destruct (respond w h c) as [?|?] eqn:Ha
  | |- context [negb (ok ?r)] =>
      let Hok := fresh "Hok" in destruct (ok r) eqn:Hok; cbn [negb]
  | |- context [json ?r] =>
      let Hj := fresh "Hj" in destruct (json r) eqn:Hj
  end.

(** The write steps run in one of the shapes of [upload_run]. *)
Lemma upload_and_record_run (w : world) (f : UploadPo.fields) (buf : buffer)
    (quoteTitle : jsval) (s : st) :
  exists evs,
    trace (fst (UploadPo.upload_and_record w f buf quoteTitle s))
    = trace s ++ evs
    /\ upload_run evs (snd (UploadPo.upload_and_record w f buf quoteTitle s)).
Proof.
  destruct s as [tr dn ce cn cce ccn].
  unfold UploadPo.upload_and_record.
  destruct (UploadPo.fileName f) as [| |b|z|name]; run_monad;
    try (exists []; rewrite app_nil_r; split; [reflexivity|constructor]).
  repeat (run_step; run_monad).
  all: rewrite <- ?app_assoc; cbn [app].
  all: eexists; split; [reflexivity|].
  all: try (econstructor; eassumption).
Qed.

Lemma upload_and_record_runs (w : world) (f : UploadPo.fields) (buf : buffer)
    (quoteTitle : jsval) :
  runs (UploadPo.upload_and_record w f buf quoteTitle) upload_run.
Proof. intro s. apply upload_and_record_run. Qed.

Lemma resolve_recipients_runs (w : world) (dealId : jsval) :
  runs (UploadPo.resolve_recipients w dealId)
       (fun evs r => quiet evs /\ r = Ok tt).
Proof.
  apply runs_quietly;
    [apply resolve_recipients_only|apply resolve_recipients_returns].
Qed.

Lemma reportError_runs (w : world) (endpoint : string) (error : exn)
    (dealId dealName : jsval) :
  runs (UploadPo.reportError w endpoint error dealId dealName)
       (fun evs r => quiet evs /\ r = Ok tt).
Proof.
  apply runs_quietly; [apply reportError_only|apply reportError_returns].
Qed.

Ltac wp_step :=
  cbv beta iota;
  match goal with
  | |- runs (bind _ _) _ => apply runs_bind
  | |- runs (try_catch _ _) _ => apply runs_try_catch
  | |- runs (fetch _ _) _ => apply runs_fetch; intro
  | |- runs (ret _) _ => apply runs_ret
  | |- runs (throw _) _ => apply runs_throw
  | |- runs (lift _) _ => apply runs_lift
  | |- runs (get _) _ => apply runs_get; intro
  | |- runs (set_dealName _) _ => apply runs_set_dealName
  | |- runs (set_contact _ _) _ => apply runs_set_contact
  | |- runs (set_cc _ _) _ => apply runs_set_cc
  | |- runs (read_json ?r) _ => unfold read_json; destruct (json r)
  | |- runs (properties_of ?p) _ => unfold properties_of; destruct p
  | |- runs (if ?b then _ else _) _ => destruct b
  | |- runs (as_string _ ?v) _ => unfold as_string; destruct v
  | |- match ?x with Ok _ => _ | Throw _ => _ end => destruct x
  | |- runs (UploadPo.resolve_recipients _ _) _ =>
      eapply runs_consequence; [apply resolve_recipients_runs|];
      let evs := fresh "lookups" in
      let Hq := fresh "Hquiet" in
      intros evs ? [Hq ->]
  | |- runs (UploadPo.reportError _ _ _ _ _) _ =>
      eapply runs_consequence; [apply reportError_runs|];
      let evs := fresh "alerts" in
      let Hq := fresh "Hquiet" in
      intros evs ? [Hq ->]
  end.

Lemma quiet_nil : quiet [].
Proof. reflexivity. Qed.

Lemma quiet_cons (ev : event) (evs : list event) :
  is_lookup (ev_call ev) = true -> quiet evs -> quiet (ev :: evs).
Proof. unfold quiet. cbn [forallb]. now intros -> ->. Qed.

Lemma quiet_app (evs evs' : list event) :
  quiet evs -> quiet evs' -> quiet (evs ++ evs').
Proof. unfold quiet. rewrite forallb_app. now intros -> ->. Qed.

#[local] Hint Resolve quiet_nil quiet_cons quiet_app : only_db.

(** A run that made look-ups only never reached the write steps. *)
Lemma quiet_outcome (evs : list event) (r : result reply) :
  quiet evs -> upload_outcome evs r.
Proof.
  intro H. exists evs, [], []. rewrite !app_nil_r.
  repeat split; auto with only_db.
Qed.

Lemma pipeline_runs (e : env) (w : world) (f : UploadPo.fields) (buf : buffer) :
  runs (UploadPo.pipeline e w f buf) upload_outcome.
Proof.
  unfold UploadPo.pipeline.
  repeat wp_step.
  all: cbv beta iota; cbn [app].
  all: try (apply quiet_outcome; auto with only_db).
  eapply runs_consequence; [apply upload_and_record_runs|].
  intros evs [x|error] Hrun.
  - exists ({| ev_call := DealGet (js_String (UploadPo.dealId f));
               ev_answer := Resolves r |} :: lookups), evs, [].
    rewrite app_nil_r. repeat split; auto with only_db.
    right. now exists (Ok x).
  - repeat wp_step. cbv beta iota. cbn [app].
    exists ({| ev_call := DealGet (js_String (UploadPo.dealId f));
               ev_answer := Resolves r |} :: lookups), evs, alerts.
    rewrite !app_nil_r, <- app_assoc. repeat split; auto with only_db.
    right. now exists (Throw error).
Qed.

Section HandlerRuns.

Variable base64 : jsstring -> buffer.

Lemma handler_runs (e : env) (w : world) (req : UploadPo.request) :
  runs (UploadPo.handler base64 e w req) upload_outcome.
Proof.
  unfold UploadPo.handler.
  repeat wp_step.
  all: cbv beta iota; cbn [app].
  all: try (apply quiet_outcome; auto with only_db).
  eapply runs_consequence; [apply pipeline_runs|].
  intros evs r H. exact H.
Qed.

End HandlerRuns.

Lemma quiet_in (evs : list event) (ev : event) :
  quiet evs -> In ev evs -> is_lookup (ev_call ev) = true.
Proof.
  unfold quiet. rewrite forallb_forall. intros H Hin. exact (H ev Hin).
Qed.

(** A look-up is neither the upload nor one of the steps after it. *)
Lemma lookup_is_no_write (ev : event) :
  is_lookup (ev_call ev) = true ->
  upload_answer ev = None /\ is_followup ev = false
  /\ is_note_or_patch ev = false.
Proof.
  destruct ev as [c a]. destruct c; cbn; intro H; try discriminate H; auto.
Qed.

Example base64_reference_man :
  base64_reference (lit "TWFu") = utf8 (lit "Man")
  /\ base64_reference (lit "TWE=") = utf8 (lit "Ma")
  /\ base64_reference (lit "TQ==") = utf8 (lit "M").
Proof. vm_compute. auto. Qed.

(** C6 -- Fatal upload failure: when the file store answers the upload
    with a non-success status, the write endpoint replies HTTP 500 (with
    the retry message and the status in the details) and calls neither
    the note creation, nor the deal patch, nor the notification webhook. *)
Theorem upload_failure_is_fatal (base64 : jsstring -> buffer) (e : env)
    (w : world) (req : UploadPo.request) (calls : list event)
    (r : result reply) (ev : event) (resp : response uploadJson) :
  run (UploadPo.handler base64 e w req) = (calls, r) ->
  In ev calls ->
  upload_answer ev = Some (Resolves resp) ->
  ok resp = false ->
  r = Ok (Reply 500
            (ErrorBody UploadPo.upload_failed
               (Some (lit "HubSpot file upload failed: "
                      ++ decimal (status resp) ++ lit " "
                      ++ substring0 300 (text resp)))))
  /\ forall ev', In ev' calls -> is_followup ev' = false.
Proof.
  intros Hrun Hin Hup Hok.
  destruct (run_outcome _ _ _ _ (handler_runs base64 e w req) Hrun)
    as [pre [mid [post [-> [Hpre [Hpost Hmid]]]]]].
  assert (Hev : In ev mid).
  { apply in_app_or in Hin as [Hin|Hin];
      [|apply in_app_or in Hin as [Hin|Hin]]; auto.
    - apply (quiet_in _ _ Hpre), lookup_is_no_write in Hin as [Hnone _].
      congruence.
    - apply (quiet_in _ _ Hpost), lookup_is_no_write in Hin as [Hnone _].
      congruence. }
  destruct Hmid as [->|[r0 [Hshape ->]]]; [destruct Hev|].
  destruct Hshape; cbn [In] in Hev;
    repeat match goal with
           | H : _ \/ _ |- _ => destruct H
           | H : False |- _ => destruct H
           end;
    subst ev; cbn [upload_answer] in Hup; try discriminate Hup;
    injection Hup as Hresp; subst; try congruence.
  split; [reflexivity|].
  intros ev' Hin'.
  apply in_app_or in Hin' as [Hin'|Hin'];
    [|apply in_app_or in Hin' as [Hin'|Hin']].
  - now apply (quiet_in _ _ Hpre), lookup_is_no_write in Hin'.
  - destruct Hin' as [<-|[]]. reflexivity.
  - now apply (quiet_in _ _ Hpost), lookup_is_no_write in Hin'.
Qed.

(** The part of the non-fatal policy that the code implements: when the
    file store accepted the upload and returned the file, and the note
    creation and the deal patch were answered, the write endpoint replies
    HTTP 200 with the file's URL whatever the statuses of these two
    answers. *)
Theorem answered_note_and_patch_failures_are_not_fatal (base64 : jsstring -> buffer)
    (e : env) (w : world) (req : UploadPo.request) (calls : list event)
    (r : result reply) (ev : event) (resp : response uploadJson)
    (data : uploadJson) :
  run (UploadPo.handler base64 e w req) = (calls, r) ->
  In ev calls ->
  upload_answer ev = Some (Resolves resp) ->
  ok resp = true ->
  json resp = Some data ->
  (forall ev', In ev' calls -> is_note_or_patch ev' = true ->
               rejected ev' = false) ->
  r = Ok (Reply 200 (UploadOk (file_url data))).
Proof.
  intros Hrun Hin Hup Hok Hjson Hanswered.
  destruct (run_outcome _ _ _ _ (handler_runs base64 e w req) Hrun)
    as [pre [mid [post [-> [Hpre [Hpost Hmid]]]]]].
  assert (Hev : In ev mid).
  { apply in_app_or in Hin as [Hin|Hin];
      [|apply in_app_or in Hin as [Hin|Hin]]; auto.
    - apply (quiet_in _ _ Hpre), lookup_is_no_write in Hin as [Hnone _].
      congruence.
    - apply (quiet_in _ _ Hpost), lookup_is_no_write in Hin as [Hnone _].
      congruence. }
  assert (Hmid' : forall ev', In ev' mid -> is_note_or_patch ev' = true ->
                              rejected ev' = false).
  { intros ev' Hin'. apply Hanswered. apply in_or_app. right.
    apply in_or_app. now left. }
  destruct Hmid as [->|[r0 [Hshape ->]]]; [destruct Hev|].
  destruct Hshape; cbn [In] in Hev;
    repeat match goal with
           | H : _ \/ _ |- _ => destruct H
           | H : False |- _ => destruct H
           end;
    subst ev; cbn [upload_answer] in Hup; try discriminate Hup;
    injection Hup as Hresp; subst; try congruence.
  - match goal with
    | |- context [Throw ?x] =>
        specialize (Hmid' _ (or_intror (or_introl eq_refl)) eq_refl)
    end.
    discriminate Hmid'.
  - specialize (Hmid' _ (or_intror (or_intror (or_introl eq_refl))) eq_refl).
    discriminate Hmid'.
  - cbn [caught]. congruence.
Qed.

Lemma upload_failure_is_fatal_witness :
  let out := run (UploadPo.handler base64_reference sample_env
                    (sample_world 503 200 200) sample_request) in
  snd out
  = Ok (Reply 500
          (ErrorBody UploadPo.upload_failed
             (Some (lit "HubSpot file upload failed: 503 store says no"))))
  /\ forall ev', In ev' (fst out) -> is_followup ev' = false.
Proof.
  intro out.
  refine (upload_failure_is_fatal base64_reference sample_env
            (sample_world 503 200 200) sample_request (fst out) (snd out)
            (Event (FileUpload (lit "Acme_PO.pdf") (utf8 (lit "Man"))
                      (JStr (lit "application/pdf")))
                   (Resolves (Response 503 (lit "store says no")
                      (Some (UploadJson (JNum 77)
                               (JStr (lit "https://files.example/po.pdf")))))))
            (Response 503 (lit "store says no")
               (Some (UploadJson (JNum 77)
                        (JStr (lit "https://files.example/po.pdf")))))
            _ _ _ _).
  - apply surjective_pairing.
  - vm_compute. do 4 right. left. reflexivity.
  - reflexivity.
  - reflexivity.
Defined.

Lemma answered_note_and_patch_failures_are_not_fatal_witness :
  snd (run (UploadPo.handler base64_reference sample_env
              (sample_world 201 500 404) sample_request))
  = Ok (Reply 200 (UploadOk (JStr (lit "https://files.example/po.pdf")))).
Proof.
  refine (answered_note_and_patch_failures_are_not_fatal base64_reference sample_env
            (sample_world 201 500 404) sample_request
            (fst (run (UploadPo.handler base64_reference sample_env
                         (sample_world 201 500 404) sample_request)))
            _
            (Event (FileUpload (lit "Acme_PO.pdf") (utf8 (lit "Man"))
                      (JStr (lit "application/pdf")))
                   (Resolves (Response 201 (lit "store says no")
                      (Some (UploadJson (JNum 77)
                               (JStr (lit "https://files.example/po.pdf")))))))
            (Response 201 (lit "store says no")
               (Some (UploadJson (JNum 77)
                        (JStr (lit "https://files.example/po.pdf")))))
            (UploadJson (JNum 77) (JStr (lit "https://files.example/po.pdf")))
            _ _ _ _ _ _).
  - apply surjective_pairing.
  - vm_compute. do 4 right. left. reflexivity.
  - reflexivity.
  - reflexivity.
  - reflexivity.
  - vm_compute. intros ev' Hin.
    repeat (destruct Hin as [<-|Hin]; [cbn; intro H; (reflexivity || discriminate H)|]).
    destruct Hin.
Defined.

(** C7 -- Non-fatal write degradation fails on the code: the file store
    accepts the upload and returns the file, the creation of the note
    gets no response (the fetch rejects), and the write endpoint replies
    HTTP 500 instead of HTTP 200 with the file's URL; the deal is not
    patched and the notification is not sent. *)
Theorem note_failure_without_response_is_fatal :
  let out := run (UploadPo.handler base64_reference sample_env
                    offline_note_world sample_request) in
  (exists up (resp : response uploadJson),
      In up (fst out)
      /\ upload_answer up = Some (Resolves resp)
      /\ ok resp = true
      /\ json resp
         = Some (UploadJson (JNum 77)
                   (JStr (lit "https://files.example/po.pdf"))))
  /\ (exists note,
         In note (fst out)
         /\ is_note_or_patch note = true
         /\ rejected note = true)
  /\ snd out
     = Ok (Reply 500 (ErrorBody UploadPo.upload_failed
                        (Some (lit "fetch failed"))))
  /\ snd out
     <> Ok (Reply 200 (UploadOk (JStr (lit "https://files.example/po.pdf")))).
Proof.
  cbv zeta.
  assert (Hreply : snd (run (UploadPo.handler base64_reference sample_env
                               offline_note_world sample_request))
                   = Ok (Reply 500 (ErrorBody UploadPo.upload_failed
                                      (Some (lit "fetch failed"))))).
  { vm_compute. reflexivity. }
  split; [|split; [|split]].
  - eexists. eexists. split; [vm_compute; do 4 right; left; reflexivity|].
    repeat split; reflexivity.
  - eexists. split; [vm_compute; do 5 right; left; reflexivity|].
    split; reflexivity.
  - exact Hreply.
  - rewrite Hreply. discriminate.
Qed.

(* ================================================================== *)
(** ** Validation and configuration *)

Lemma validateToken_without_secret (e : env) (dealId token : jsval) :
  truthy (env_value (PO_QUOTE_SECRET e)) = false ->
  validateToken e dealId token = Ok false.
Proof. intro H. unfold validateToken. now rewrite H. Qed.

Lemma validateToken_needs_token (e : env) (dealId token : jsval) :
  validateToken e dealId token = Ok true -> truthy token = true.
Proof.
  unfold validateToken. destruct (truthy token); [reflexivity|].
  rewrite orb_true_r. discriminate.
Qed.

Lemma allowed_type_found (t : jsval) :
  In t UploadPo.allowedTypes ->
  existsb (strict_eqb t) UploadPo.allowedTypes = true.
Proof.
  intros [<-|[<-|[<-|[]]]]; vm_compute; reflexivity.
Qed.

Section Validation.

Variable base64 : jsstring -> buffer.

(** A request that passes every check of lines 36-56 is handed to the
    pipeline with the decoded file. *)
Lemma validated_request_enters_pipeline (e : env) (w : world)
    (req : UploadPo.request) (f : UploadPo.fields) (data : jsstring) :
  UploadPo.method req = lit "POST" ->
  UploadPo.req_body req = Some f ->
  truthy (UploadPo.dealId f) = true ->
  validateToken e (UploadPo.dealId f) (UploadPo.token f) = Ok true ->
  UploadPo.fileData f = JStr data -> data <> [] ->
  truthy (UploadPo.fileName f) = true ->
  (truthy (UploadPo.fileType f) = false
   \/ In (UploadPo.fileType f) UploadPo.allowedTypes) ->
  forall s,
    UploadPo.handler base64 e w req s =
    if UploadPo.maxSize
       <? N.of_nat (List.length (base64 (UploadPo.base64Raw data)))
    then (s, Ok (Reply 400 (ErrorBody UploadPo.too_large None)))
    else UploadPo.pipeline e w f (base64 (UploadPo.base64Raw data)) s.
Proof.
  intros Hmethod Hbody Hdeal Hvalid Hdata Hne Hname Htype s.
  unfold UploadPo.handler, UploadPo.fields_of.
  rewrite Hmethod, Hbody.
  change (str_eqb (lit "POST") (lit "OPTIONS")) with false.
  change (str_eqb (lit "POST") (lit "POST")) with true.
  rewrite Hdeal, (validateToken_needs_token _ _ _ Hvalid), Hvalid, Hdata, Hname.
  destruct data as [|c data]; [contradiction|].
  cbn [negb orb truthy].
  replace (truthy (UploadPo.fileType f)
           && negb (existsb (strict_eqb (UploadPo.fileType f))
                      UploadPo.allowedTypes)) with false.
  2:{ destruct Htype as [->|Hin]; [reflexivity|].
      rewrite (allowed_type_found _ Hin). now rewrite andb_false_r. }
  unfold bind, lift, as_string, ret.
  destruct (UploadPo.maxSize <? _); reflexivity.
Qed.

(** C8 -- File size boundary: a validated submission whose decoded
    payload is exactly 3*1024*1024 bytes passes the size check and goes on
    to the pipeline; one whose payload is at least 3*1024*1024+1 bytes is
    rejected with HTTP 400 and the size-limit message, and no external
    call is made. *)
Theorem size_check_boundary (e : env) (w : world) (req : UploadPo.request)
    (f : UploadPo.fields) (data : jsstring) :
  UploadPo.method req = lit "POST" ->
  UploadPo.req_body req = Some f ->
  truthy (UploadPo.dealId f) = true ->
  validateToken e (UploadPo.dealId f) (UploadPo.token f) = Ok true ->
  UploadPo.fileData f = JStr data -> data <> [] ->
  truthy (UploadPo.fileName f) = true ->
  (truthy (UploadPo.fileType f) = false
   \/ In (UploadPo.fileType f) UploadPo.allowedTypes) ->
  let fileBuffer := base64 (UploadPo.base64Raw data) in
  (N.of_nat (List.length fileBuffer) = 3 * 1024 * 1024 ->
   forall s, UploadPo.handler base64 e w req s
             = UploadPo.pipeline e w f fileBuffer s)
  /\ (3 * 1024 * 1024 + 1 <= N.of_nat (List.length fileBuffer) ->
      run (UploadPo.handler base64 e w req)
      = ([], Ok (Reply 400
                   (ErrorBody
                      "File is too large (max 3MB). Please email your PO to support@showoffinc.com."
                      None)))).
Proof.
  intros Hmethod Hbody Hdeal Hvalid Hdata Hne Hname Htype fileBuffer.
  pose proof (validated_request_enters_pipeline e w req f data Hmethod Hbody
                Hdeal Hvalid Hdata Hne Hname Htype) as Hrun.
  fold fileBuffer in Hrun. split.
  - intros Hsize s. rewrite Hrun, Hsize.
    change (UploadPo.maxSize <? 3 * 1024 * 1024) with false. reflexivity.
  - intro Hsize. unfold run. rewrite Hrun.
    replace (UploadPo.maxSize <? N.of_nat (List.length fileBuffer)) with true.
    + reflexivity.
    + symmetry. apply N.ltb_lt. unfold UploadPo.maxSize. lia.
Qed.

End Validation.

(** *** Payloads at the size boundary *)

Lemma sextets_of_As (n : nat) : sextets (repeat 65 n) = repeat 0 n.
Proof.
  induction n as [|n IH]; [reflexivity|].
  cbn [repeat sextets].
  change (65 =? 61) with false. change (sextet 65) with (Some 0).
  cbv iota. now rewrite IH.
Qed.

Lemma octets_of_zeros (k : nat) (rest : list N) :
  octets (repeat 0 (4 * k) ++ rest) = repeat 0 (3 * k) ++ octets rest.
Proof.
  induction k as [|k IH]; [reflexivity|].
  replace (4 * S k)%nat with (4 + 4 * k)%nat by lia.
  replace (3 * S k)%nat with (3 + 3 * k)%nat by lia.
  cbn [repeat Nat.add app]. cbn [octets]. rewrite IH. reflexivity.
Qed.

Lemma no_comma_in_As (n : nat) : includes_char 44 (repeat 65 n) = false.
Proof.
  unfold includes_char. induction n as [|n IH]; [reflexivity|].
  cbn [repeat existsb]. now rewrite IH.
Qed.

(** Four characters 'A' decode to three bytes, whatever follows them. *)
Lemma decoded_size_of_As (k j : nat) :
  List.length
    (base64_reference (UploadPo.base64Raw (repeat 65 (4 * k + j))))
  = (3 * k + List.length (octets (repeat 0%N j)))%nat.
Proof.
  unfold UploadPo.base64Raw, base64_reference.
  rewrite no_comma_in_As, sextets_of_As, repeat_app, octets_of_zeros.
  now rewrite length_app, repeat_length.
Qed.

Lemma size_check_boundary_witness :
  (forall s,
      UploadPo.handler base64_reference sample_env (sample_world 200 200 200)
        (big_request (4 * mebibyte + 0)) s
      = UploadPo.pipeline sample_env (sample_world 200 200 200)
          (big_fields (4 * mebibyte + 0))
          (base64_reference
             (UploadPo.base64Raw (repeat 65 (4 * mebibyte + 0)))) s)
  /\ run (UploadPo.handler base64_reference sample_env
            (sample_world 200 200 200) (big_request (4 * mebibyte + 2)))
     = ([], Ok (Reply 400
                  (ErrorBody
                     "File is too large (max 3MB). Please email your PO to support@showoffinc.com."
                     None))).
Proof.
  assert (Hreach : forall chars, (0 < chars)%nat ->
            UploadPo.method (big_request chars) = lit "POST"
            /\ UploadPo.req_body (big_request chars) = Some (big_fields chars)
            /\ truthy (UploadPo.dealId (big_fields chars)) = true
            /\ validateToken sample_env (UploadPo.dealId (big_fields chars))
                 (UploadPo.token (big_fields chars)) = Ok true
            /\ UploadPo.fileData (big_fields chars) = JStr (repeat 65 chars)
            /\ repeat 65 chars <> []
            /\ truthy (UploadPo.fileName (big_fields chars)) = true
            /\ (truthy (UploadPo.fileType (big_fields chars)) = false
                \/ In (UploadPo.fileType (big_fields chars))
                      UploadPo.allowedTypes)).
  { intros chars Hchars. unfold big_request, big_fields.
    cbn [UploadPo.method UploadPo.req_body UploadPo.dealId UploadPo.token
         UploadPo.fileData UploadPo.fileName UploadPo.fileType].
    split; [reflexivity|]. split; [reflexivity|]. split; [reflexivity|].
    split; [vm_compute; reflexivity|]. split; [reflexivity|].
    split; [destruct chars; [lia|discriminate]|].
    split; [reflexivity|]. right. left. reflexivity. }
  assert (Hmib : (0 < mebibyte)%nat) by (unfold mebibyte; lia).
  split.
  - destruct (Hreach (4 * mebibyte + 0)%nat ltac:(lia))
      as (H1 & H2 & H3 & H4 & H5 & H6 & H7 & H8).
    apply (proj1 (size_check_boundary base64_reference sample_env
                    (sample_world 200 200 200) _ _ _ H1 H2 H3 H4 H5 H6 H7 H8)).
    rewrite decoded_size_of_As. cbn [repeat octets List.length].
    unfold mebibyte. lia.
  - destruct (Hreach (4 * mebibyte + 2)%nat ltac:(lia))
      as (H1 & H2 & H3 & H4 & H5 & H6 & H7 & H8).
    apply (proj2 (size_check_boundary base64_reference sample_env
                    (sample_world 200 200 200) _ _ _ H1 H2 H3 H4 H5 H6 H7 H8)).
    rewrite decoded_size_of_As. cbn [repeat octets List.length].
    unfold mebibyte. lia.
Defined.

(** *** Missing configuration *)

Lemma pipeline_without_crm_token (e : env) (w : world) (f : UploadPo.fields)
    (buf : buffer) (s : st) :
  truthy (env_value (HUBSPOT_TOKEN e)) = false ->
  UploadPo.pipeline e w f buf s
  = (s, Ok (Reply 500 (ErrorBody "HubSpot token not configured" None))).
Proof. intro H. unfold UploadPo.pipeline. now rewrite H. Qed.

Lemma upload_makes_no_call (base64 : jsstring -> buffer) (e : env) (w : world)
    (req : UploadPo.request) :
  truthy (env_value (PO_QUOTE_SECRET e)) = false
  \/ truthy (env_value (HUBSPOT_TOKEN e)) = false ->
  runs (UploadPo.handler base64 e w req) no_call.
Proof.
  intros [Hsecret|Hcrm]; unfold UploadPo.handler.
  - rewrite (validateToken_without_secret _ _ _ Hsecret).
    repeat (cbn [negb]; wp_step); reflexivity.
  - repeat wp_step; try reflexivity.
    intro s0. exists []. rewrite (pipeline_without_crm_token _ _ _ _ _ Hcrm).
    cbn [fst snd]. rewrite app_nil_r. split; reflexivity.
Qed.

Lemma review_makes_no_call (e : env) (w : world)
    (req : PoQuoteReview.request) :
  truthy (env_value (PO_QUOTE_SECRET e)) = false
  \/ truthy (env_value (HUBSPOT_TOKEN e)) = false ->
  runs (PoQuoteReview.handler e w req) no_call.
Proof.
  intros [Hsecret|Hcrm]; unfold PoQuoteReview.handler.
  - rewrite (validateToken_without_secret _ _ _ Hsecret).
    repeat (cbn [negb]; wp_step); reflexivity.
  - rewrite Hcrm. repeat (cbn [negb]; wp_step); reflexivity.
Qed.

Lemma no_call_run {A : Type} (m : M A) : runs m no_call -> fst (run m) = [].
Proof.
  intro H. destruct (run m) as [calls r] eqn:Hrun.
  exact (run_outcome m no_call calls r H Hrun).
Qed.

(** C9, as amended -- Missing configuration: when the shared secret or
    the CRM bearer token is missing, neither the write endpoint nor the
    token-gated read endpoint makes an external call.  The reply is HTTP
    500 when the CRM token is missing and the request has passed the checks
    made before it (method, parameters, access token and, on the write
    endpoint, the file checks); when the secret is missing, a request that
    carries a deal id and a token is refused with HTTP 403. *)
Theorem missing_configuration (base64 : jsstring -> buffer) (e : env)
    (w : world) :
  truthy (env_value (PO_QUOTE_SECRET e)) = false
  \/ truthy (env_value (HUBSPOT_TOKEN e)) = false ->
  (forall req, fst (run (UploadPo.handler base64 e w req)) = [])
  /\ (forall req, fst (run (PoQuoteReview.handler e w req)) = [])
  /\ (truthy (env_value (HUBSPOT_TOKEN e)) = false ->
      (forall req f data,
          UploadPo.method req = lit "POST" ->
          UploadPo.req_body req = Some f ->
          truthy (UploadPo.dealId f) = true ->
          validateToken e (UploadPo.dealId f) (UploadPo.token f) = Ok true ->
          UploadPo.fileData f = JStr data -> data <> [] ->
          truthy (UploadPo.fileName f) = true ->
          (truthy (UploadPo.fileType f) = false
           \/ In (UploadPo.fileType f) UploadPo.allowedTypes) ->
          N.of_nat (List.length (base64 (UploadPo.base64Raw data)))
          <= UploadPo.maxSize ->
          snd (run (UploadPo.handler base64 e w req))
          = Ok (Reply 500 (ErrorBody "HubSpot token not configured" None)))
      /\ (forall req,
             str_eqb (PoQuoteReview.method req) (lit "OPTIONS") = false ->
             truthy (PoQuoteReview.dealId req) = true ->
             validateToken e (PoQuoteReview.dealId req)
               (PoQuoteReview.token req) = Ok true ->
             snd (run (PoQuoteReview.handler e w req))
             = Ok (Reply 500 (ErrorBody "HubSpot token not configured" None))))
  /\ (truthy (env_value (PO_QUOTE_SECRET e)) = false ->
      (forall req f,
          UploadPo.method req = lit "POST" ->
          UploadPo.req_body req = Some f ->
          truthy (UploadPo.dealId f) = true ->
          truthy (UploadPo.token f) = true ->
          snd (run (UploadPo.handler base64 e w req))
          = Ok (Reply 403 (ErrorBody "Invalid or expired link" None)))
      /\ (forall req,
             str_eqb (PoQuoteReview.method req) (lit "OPTIONS") = false ->
             truthy (PoQuoteReview.dealId req) = true ->
             truthy (PoQuoteReview.token req) = true ->
             snd (run (PoQuoteReview.handler e w req))
             = Ok (Reply 403 (ErrorBody "Invalid or expired link" None)))).
Proof.
  intro Hmissing. split; [|split; [|split]].
  - intro req. apply no_call_run. now apply upload_makes_no_call.
  - intro req. apply no_call_run. now apply review_makes_no_call.
  - intro Hcrm. split.
    + intros req f data Hmethod Hbody Hdeal Hvalid Hdata Hne Hname Htype Hsize.
      unfold run.
      rewrite (validated_request_enters_pipeline base64 e w req f data
                 Hmethod Hbody Hdeal Hvalid Hdata Hne Hname Htype).
      replace (UploadPo.maxSize
               <? N.of_nat (List.length (base64 (UploadPo.base64Raw data))))
        with false by (symmetry; apply N.ltb_ge; exact Hsize).
      now rewrite (pipeline_without_crm_token _ _ _ _ _ Hcrm).
    + intros req Hmethod Hdeal Hvalid.
      unfold run, PoQuoteReview.handler, bind, lift.
      rewrite Hmethod, Hdeal, (validateToken_needs_token _ _ _ Hvalid),
        Hvalid, Hcrm.
      reflexivity.
  - intro Hsecret. split.
    + intros req f Hmethod Hbody Hdeal Htoken.
      unfold run, UploadPo.handler, UploadPo.fields_of, bind, lift.
      rewrite Hmethod, Hbody, Hdeal, Htoken,
        (validateToken_without_secret _ _ _ Hsecret).
      reflexivity.
    + intros req Hmethod Hdeal Htoken.
      unfold run, PoQuoteReview.handler, bind, lift.
      rewrite Hmethod, Hdeal, Htoken,
        (validateToken_without_secret _ _ _ Hsecret).
      reflexivity.
Qed.

Lemma missing_configuration_witness :
  (forall req,
      fst (run (UploadPo.handler base64_reference (Env None (Some (lit "pat-1")))
                  (sample_world 200 200 200) req)) = [])
  /\ snd (run (UploadPo.handler base64_reference (Env None (Some (lit "pat-1")))
                 (sample_world 200 200 200) sample_request))
     = Ok (Reply 403 (ErrorBody "Invalid or expired link" None)).
Proof.
  destruct (missing_configuration base64_reference
              (Env None (Some (lit "pat-1"))) (sample_world 200 200 200)
              (or_introl eq_refl)) as (Hupload & _ & _ & Hsecret).
  split; [exact Hupload|].
  apply (proj1 (Hsecret eq_refl) sample_request sample_fields); reflexivity.
Defined.

(** C9 -- as stated the claim fails: with the secret unset, a well-formed
    submission is answered HTTP 403, not HTTP 500. *)
Lemma missing_secret_is_not_a_500 :
  ~ (forall (e : env) (w : world) (req : UploadPo.request),
        PO_QUOTE_SECRET e = None \/ HUBSPOT_TOKEN e = None ->
        exists body,
          run (UploadPo.handler base64_reference e w req)
          = ([], Ok (Reply 500 body))).
Proof.
  intro H.
  destruct (H (Env None (Some (lit "pat-1"))) (sample_world 200 200 200)
              sample_request (or_introl eq_refl)) as [body Hrun].
  vm_compute in Hrun. discriminate Hrun.
Qed.

(* ================================================================== *)
(** * Further properties of the handlers *)

(** ** Token verification on the tokens a link can carry *)

Lemma padded_length (s : jsstring) :
  List.length (padEnd0 16 (substring0 16 s)) = 16%nat.
Proof.
  unfold padEnd0, substring0.
  rewrite length_app, repeat_length, length_firstn. lia.
Qed.

Lemma padded_ascii (s : jsstring) :
  Forall (fun c => c < 128) s ->
  Forall (fun c => c < 128) (padEnd0 16 (substring0 16 s)).
Proof.
  intro H. unfold padEnd0, substring0. apply Forall_app. split.
  - now apply Forall_prefix.
  - induction (16 - List.length (firstn 16 s))%nat as [|n IH]; cbn [repeat];
      constructor; [lia|exact IH].
Qed.

(** With the secret set, a non-empty ASCII token never makes
    [validateToken] throw, and it is accepted exactly when its first 16
    characters, completed with '0' up to 16, are the expected token. *)
Theorem validateToken_decides_ascii_tokens (e : env) (secret : jsstring)
    (dealId : jsval) (token : jsstring) :
  PO_QUOTE_SECRET e = Some secret -> secret <> [] ->
  token <> [] ->
  Forall (fun c => c < 128) token ->
  exists verdict,
    validateToken e dealId (JStr token) = Ok verdict
    /\ (verdict = true
        <-> padEnd0 16 (substring0 16 token) = expected secret dealId).
Proof.
  intros Hsecret Hne Htoken Hascii.
  destruct token as [|c t]; [contradiction|].
  rewrite (validateToken_outcome e secret dealId c t Hsecret Hne).
  cbv zeta.
  rewrite (utf8_ascii _ (padded_ascii _ Hascii)), padded_length.
  cbn [Nat.eqb]. eexists. split; [reflexivity|].
  unfold buffer_eqb. rewrite str_eqb_eq. split; congruence.
Qed.

Lemma validateToken_decides_ascii_tokens_witness :
  exists verdict,
    validateToken sample_env (JStr (lit "12345")) (JStr (lit "not-the-token"))
    = Ok verdict
    /\ (verdict = true
        <-> padEnd0 16 (substring0 16 (lit "not-the-token"))
            = expected (lit "s3cret") (JStr (lit "12345"))).
Proof.
  apply validateToken_decides_ascii_tokens.
  - reflexivity.
  - discriminate.
  - discriminate.
  - unfold lit. cbn [list_ascii_of_string map].
    repeat (constructor; [vm_compute; reflexivity|]). constructor.
Defined.

(** Only the first 16 characters of the supplied token count: whatever
    follows a valid token, it is still accepted. *)
Theorem validateToken_ignores_what_follows (e : env) (secret : jsstring)
    (dealId : jsval) (suffix : jsstring) :
  PO_QUOTE_SECRET e = Some secret -> secret <> [] ->
  validateToken e dealId (JStr (expected secret dealId ++ suffix)) = Ok true.
Proof.
  intros Hsecret Hne. unfold validateToken. rewrite Hsecret.
  destruct secret as [|c secret]; [contradiction|].
  pose proof (expected_length (c :: secret) dealId) as Hlen.
  cbn [env_value js_String].
  remember (expected (c :: secret) dealId) as tok eqn:Htok.
  destruct tok as [|x xs]; [discriminate Hlen|].
  cbn [truthy negb orb app].
  change (x :: xs ++ suffix) with ((x :: xs) ++ suffix).
  unfold substring0. rewrite firstn_app, Hlen, firstn_all2 by lia.
  change (16 - 16)%nat with 0%nat. cbn [firstn]. rewrite app_nil_r.
  unfold padEnd0. rewrite Hlen. cbn [Nat.sub repeat]. rewrite app_nil_r.
  apply timingSafeEqual_same.
Qed.

Lemma validateToken_ignores_what_follows_witness :
  validateToken sample_env (JStr (lit "12345"))
    (JStr (expected (lit "s3cret") (JStr (lit "12345")) ++ lit "&x=1"))
  = Ok true.
Proof.
  apply validateToken_ignores_what_follows; [reflexivity|discriminate].
Defined.

(** A supplied token shorter than 16 characters is completed with '0':
    it is accepted when the expected token is that token followed by
    zeros only. *)
Theorem validateToken_completes_with_zeros (e : env) (secret : jsstring)
    (dealId : jsval) (token : jsstring) (zeros : nat) :
  PO_QUOTE_SECRET e = Some secret -> secret <> [] ->
  token <> [] ->
  expected secret dealId = token ++ repeat 48 zeros ->
  validateToken e dealId (JStr token) = Ok true.
Proof.
  intros Hsecret Hne Htoken Hexpected.
  pose proof (expected_length secret dealId) as Hlen.
  rewrite Hexpected, length_app, repeat_length in Hlen.
  unfold validateToken. rewrite Hsecret.
  destruct secret as [|c secret]; [contradiction|].
  destruct token as [|x t]; [contradiction|].
  cbn [env_value js_String truthy negb orb].
  rewrite Hexpected.
  unfold substring0. rewrite firstn_all2 by lia.
  unfold padEnd0. replace (16 - List.length (x :: t))%nat with zeros by lia.
  apply timingSafeEqual_same.
Qed.

Lemma validateToken_completes_with_zeros_witness :
  expected (lit "s3cret") (JStr (lit "9")) = lit "53fc2215e17adf10"
  /\ validateToken sample_env (JStr (lit "9")) (JStr (lit "53fc2215e17adf1"))
     = Ok true.
Proof.
  assert (H : expected (lit "s3cret") (JStr (lit "9"))
              = lit "53fc2215e17adf1" ++ repeat 48 1)
    by (vm_compute; reflexivity).
  split; [exact H|].
  apply (validateToken_completes_with_zeros sample_env (lit "s3cret")
           (JStr (lit "9")) (lit "53fc2215e17adf1") 1);
    [reflexivity|discriminate|discriminate|exact H].
Defined.

(** With the secret set, a non-empty string token makes [validateToken]
    throw exactly when, cut and completed to 16 characters, it does not
    encode to 16 bytes. *)
Theorem validateToken_throws_iff (e : env) (secret : jsstring)
    (dealId : jsval) (token : jsstring) :
  PO_QUOTE_SECRET e = Some secret -> secret <> [] ->
  token <> [] ->
  ((exists error, validateToken e dealId (JStr token) = Throw error)
   <-> List.length (utf8 (padEnd0 16 (substring0 16 token))) <> 16%nat).
Proof.
  intros Hsecret Hne Htoken. destruct token as [|c t]; [contradiction|].
  rewrite (validateToken_outcome e secret dealId c t Hsecret Hne). cbv zeta.
  destruct (Nat.eqb 16 (List.length (utf8 (padEnd0 16 (substring0 16 (c :: t))))))
    eqn:Hlen.
  - apply Nat.eqb_eq in Hlen. split.
    + intros [error H]. discriminate H.
    + intro H. now rewrite <- Hlen in H.
  - apply Nat.eqb_neq in Hlen. split.
    + intros _ H. now rewrite H in Hlen.
    + intros _. eexists. reflexivity.
Qed.

Lemma validateToken_throws_iff_witness :
  (exists error,
      validateToken sample_env (JStr (lit "12345")) (JStr [0x20AC]) = Throw error)
  <-> List.length (utf8 (padEnd0 16 (substring0 16 [0x20AC]))) <> 16%nat.
Proof.
  apply (validateToken_throws_iff sample_env (lit "s3cret"));
    [reflexivity|discriminate|discriminate].
Defined.

(* ================================================================== *)
(** ** The write endpoint, path by path *)

Lemma resolve_recipients_reads (w : world) (dealId : jsval) :
  runs (UploadPo.resolve_recipients w dealId)
       (fun evs r => all_calls is_contact_read evs /\ r = Ok tt).
Proof.
  intro s.
  assert (Honly : only is_contact_read (UploadPo.resolve_recipients w dealId))
    by (unfold UploadPo.resolve_recipients; repeat only_step).
  destruct (Honly s) as [evs [Htrace Hall]]. exists evs.
  repeat split; auto. apply resolve_recipients_returns.
Qed.

(** [reportError] makes exactly one call, to the error-alert webhook, and
    returns whatever becomes of it. *)
Lemma reportError_alerts (w : world) (endpoint : string) (error : exn)
    (dealId dealName : jsval) :
  runs (UploadPo.reportError w endpoint error dealId dealName)
       (fun evs r =>
          r = Ok tt
          /\ exists text who alert,
               evs = [Event (ErrorAlert endpoint text who) alert]).
Proof.
  unfold UploadPo.reportError. apply runs_try_catch, runs_bind, runs_fetch.
  - intro reason. cbv beta iota. apply runs_ret. cbn [app].
    split; [reflexivity|]. eauto.
  - intro r. cbv beta iota. apply runs_ret. cbn [app].
    split; [reflexivity|]. eauto.
Qed.

Ltac wp_step_eq :=
  cbv beta iota;
  match goal with
  | |- runs (bind _ _) _ => apply runs_bind
  | |- runs (try_catch _ _) _ => apply runs_try_catch
  | |- runs (fetch _ _) _ => apply runs_fetch; intro
  | |- runs (ret _) _ => apply runs_ret
  | |- runs (throw _) _ => apply runs_throw
  | |- runs (lift _) _ => apply runs_lift
  | |- runs (get _) _ => apply runs_get; intro
  | |- runs (set_dealName _) _ => apply runs_set_dealName
  | |- runs (set_contact _ _) _ => apply runs_set_contact
  | |- runs (set_cc _ _) _ => apply runs_set_cc
  | |- runs (read_json ?r) _ =>
      let H := fresh "Hjson" in unfold read_json; destruct (json r) eqn:H
  | |- runs (properties_of ?p) _ =>
      let H := fresh "Hprops" in unfold properties_of; destruct p eqn:H
  | |- runs (if ?b then _ else _) _ =>
      let H := fresh "Hif" in destruct b eqn:H
  | |- runs (as_string _ ?v) _ =>
      let H := fresh "Hstr" in unfold as_string; destruct v eqn:H
  | |- match ?x with Ok _ => _ | Throw _ => _ end =>
      let H := fresh "Hres" in destruct x eqn:H
  | |- runs (match ?x with _ => _ end) _ =>
      let H := fresh "Hcase" in destruct x eqn:H
  | |- runs (UploadPo.resolve_recipients _ _) _ =>
      eapply runs_consequence; [apply resolve_recipients_reads|];
      let evs := fresh "reads" in
      let Hq := fresh "Hreads" in
      intros evs ? [Hq ->]
  | |- runs (UploadPo.reportError _ _ _ _ _) _ =>
      eapply runs_consequence; [apply reportError_alerts|];
      let text := fresh "text" in
      let who := fresh "who" in
      let alert := fresh "alert" in
      intros ? ? [-> [text [who [alert ->]]]]
  end.

Lemma negb_true (b : bool) : negb b = true -> b = false.
Proof. now destruct b. Qed.

Lemma negb_false (b : bool) : negb b = false -> b = true.
Proof. now destruct b. Qed.

Lemma pipeline_shape_runs (e : env) (w : world) (f : UploadPo.fields)
    (buf : buffer) :
  runs (UploadPo.pipeline e w f buf) (pipeline_shape f).
Proof.
  unfold UploadPo.pipeline.
  repeat wp_step_eq.
  all: cbv beta iota; cbn [app].
  all: repeat match goal with
              | H : negb _ = true |- _ => apply negb_true in H
              | H : negb _ = false |- _ => apply negb_false in H
              end.
  - constructor.
  - apply shape_deal_unreachable.
  - now apply shape_deal_not_found.
  - eapply runs_consequence; [apply upload_and_record_runs|].
    intros writes [x|error] Hrun.
    + now apply shape_completed.
    + repeat wp_step_eq. cbv beta iota. cbn [app].
      rewrite <- app_assoc. now apply shape_failed.
  - apply shape_deal_unreachable || (apply shape_deal_unreadable; eauto).
  - apply shape_deal_unreadable; auto.
Qed.

Section HandlerShape.

Variable base64 : jsstring -> buffer.

Lemma handler_shape_runs (e : env) (w : world) (req : UploadPo.request) :
  runs (UploadPo.handler base64 e w req) (handler_shape e req).
Proof.
  unfold UploadPo.handler.
  repeat wp_step_eq.
  all: cbv beta iota; cbn [app].
  all: try (left; split; [reflexivity|];
            first [ left; reflexivity
                  | right; left; do 2 eexists; split; [|reflexivity];
                    cbn [In]; auto
                  | right; right; eexists; reflexivity ]).
  eapply runs_consequence; [apply pipeline_shape_runs|].
  intros evs r Hshape. right. split; [|exact Hshape].
  match goal with
  | Hv : validateToken _ _ _ = Ok ?a, Ha : negb ?a = false |- _ =>
      apply negb_false in Ha; now rewrite Ha in Hv
  end.
Qed.

End HandlerShape.

(** *** What a run of the write endpoint does and never does *)

Lemma upload_run_reply (writes : list event) (x : reply) :
  upload_run writes (Ok x) ->
  exists n b t (resp : response uploadJson) data d fn fi
         (note : response unit) d' u i day (patch : response unit) msg sent,
    writes = [Event (FileUpload n b t) (Resolves resp);
              Event (NoteCreate d fn fi) (Resolves note);
              Event (DealPatch d' u i day) (Resolves patch);
              Event (Notify msg) sent]
    /\ ok resp = true /\ json resp = Some data
    /\ x = Reply 200 (UploadOk (file_url data)).
Proof.
  intro H. inversion H; subst. repeat eexists; eauto.
Qed.

Lemma upload_run_has_no_alert (writes : list event) (r : result reply) :
  upload_run writes r -> alert_calls writes = [].
Proof. intro H. destruct H; reflexivity. Qed.

Lemma reads_have_no_alert (reads : list event) :
  all_calls is_contact_read reads -> alert_calls reads = [].
Proof.
  unfold all_calls, alert_calls. induction reads as [|[c a] reads IH];
    [reflexivity|].
  cbn [forallb filter ev_call]. intro H. apply andb_true_iff in H as [Hc H].
  destruct c; try discriminate Hc; cbn [is_alert]; auto.
Qed.

Lemma alert_calls_app (evs evs' : list event) :
  alert_calls (evs ++ evs') = alert_calls evs ++ alert_calls evs'.
Proof. apply filter_app. Qed.

Section UploadRuns.

Variable base64 : jsstring -> buffer.

Lemma upload_shape (e : env) (w : world) (req : UploadPo.request)
    (calls : list event) (r : result reply) :
  run (UploadPo.handler base64 e w req) = (calls, r) ->
  handler_shape e req calls r.
Proof. apply run_outcome, handler_shape_runs. Qed.

(** Access control: the write endpoint makes no external call at all
    unless the token of the request was verified for its deal id. *)
Theorem upload_calls_need_a_verified_token (e : env) (w : world)
    (req : UploadPo.request) (calls : list event) (r : result reply) :
  run (UploadPo.handler base64 e w req) = (calls, r) ->
  calls <> [] ->
  validateToken e (UploadPo.dealId (UploadPo.fields_of req))
    (UploadPo.token (UploadPo.fields_of req)) = Ok true.
Proof.
  intros Hrun Hcalls.
  destruct (upload_shape _ _ _ _ _ Hrun) as [[-> _]|[Hvalid _]];
    [contradiction|exact Hvalid].
Qed.

(** A request refused with HTTP 400, 403 or 405 has had no external
    effect: no call was made. *)
Theorem upload_client_errors_make_no_call (e : env) (w : world)
    (req : UploadPo.request) (calls : list event) (c : Z)
    (body : reply_body) :
  run (UploadPo.handler base64 e w req) = (calls, Ok (Reply c body)) ->
  In c [400; 403; 405]%Z ->
  calls = [].
Proof.
  intros Hrun Hc.
  destruct (upload_shape _ _ _ _ _ Hrun) as [[-> _]|[_ Hshape]];
    [reflexivity|].
  exfalso. inversion Hshape; subst; cbn [In] in Hc;
    try (unfold failure_reply in *; intuition congruence).
  match goal with
  | H : upload_run _ (Ok _) |- _ =>
      apply upload_run_reply in H;
      destruct H as (? & ? & ? & ? & ? & ? & ? & ? & ? & ? & ? & ? & ? & ?
                       & ? & ? & _ & _ & _ & Hx)
  end.
  injection Hx as -> _. intuition congruence.
Qed.

(** An exception escapes the handler only from the request checks, before
    any call: everything after them is caught. *)
Theorem upload_exceptions_escape_before_any_call (e : env) (w : world)
    (req : UploadPo.request) (calls : list event) (error : exn) :
  run (UploadPo.handler base64 e w req) = (calls, Throw error) ->
  calls = [].
Proof.
  intro Hrun.
  destruct (upload_shape _ _ _ _ _ Hrun) as [[-> _]|[_ Hshape]];
    [reflexivity|].
  inversion Hshape.
Qed.

(** A deal the CRM does not know: the reply is HTTP 404, the deal read is
    the only call (no upload, no write, no error alert). *)
Theorem upload_deal_not_found (e : env) (w : world)
    (req : UploadPo.request) (calls : list event) (r : result reply)
    (ev : event) (deal : response dealJson) :
  run (UploadPo.handler base64 e w req) = (calls, r) ->
  In ev calls ->
  deal_answer ev = Some (Resolves deal) ->
  ok deal = false ->
  r = Ok (Reply 404 (ErrorBody "Deal not found" None)) /\ calls = [ev].
Proof.
  intros Hrun Hin Hdeal Hok.
  destruct (upload_shape _ _ _ _ _ Hrun) as [[-> _]|[_ Hshape]];
    [destruct Hin|].
  assert (Hreads : forall reads, all_calls is_contact_read reads ->
                                 In ev reads -> False).
  { intros reads Hall Hin'. unfold all_calls in Hall.
    rewrite forallb_forall in Hall. specialize (Hall ev Hin').
    destruct ev as [c a]. destruct c; try discriminate Hall;
      discriminate Hdeal. }
  assert (Hwrites : forall writes r0, upload_run writes r0 ->
                                      In ev writes -> False).
  { intros writes r0 Hshape' Hin'.
    destruct Hshape'; cbn [In] in Hin';
      repeat match goal with
             | H : _ \/ _ |- _ => destruct H
             | H : False |- _ => destruct H
             end; subst ev; discriminate Hdeal. }
  inversion Hshape; subst; cbn [In] in Hin.
  - destruct Hin.
  - destruct Hin as [<-|[<-|[]]]; discriminate Hdeal.
  - destruct Hin as [<-|[]]. auto.
  - destruct Hin as [<-|[<-|[]]]; [|discriminate Hdeal].
    cbn [deal_answer] in Hdeal. injection Hdeal as <-. congruence.
  - destruct Hin as [<-|Hin].
    + cbn [deal_answer] in Hdeal. injection Hdeal as <-. congruence.
    + exfalso. apply in_app_or in Hin as [Hin|Hin]; eauto.
  - destruct Hin as [<-|Hin].
    + cbn [deal_answer] in Hdeal. injection Hdeal as <-. congruence.
    + exfalso. apply in_app_or in Hin as [Hin|Hin]; eauto.
      apply in_app_or in Hin as [Hin|Hin]; eauto.
      destruct Hin as [<-|[]]. discriminate Hdeal.
Qed.

(** Diagnostic reporting: the error-alert webhook is called exactly once
    when the reply is the HTTP 500 of the outer catch, and never
    otherwise (not for a refused request, a missing configuration, a 404
    or a success). *)
Theorem upload_alerts_once_per_failure (e : env) (w : world)
    (req : UploadPo.request) :
  let calls := fst (run (UploadPo.handler base64 e w req)) in
  let r := snd (run (UploadPo.handler base64 e w req)) in
  ((exists details,
       r = Ok (Reply 500 (ErrorBody UploadPo.upload_failed (Some details))))
   /\ List.length (alert_calls calls) = 1%nat)
  \/ ((forall text details,
          r <> Ok (Reply 500 (ErrorBody text (Some details))))
      /\ alert_calls calls = []).
Proof.
  intros calls r.
  pose proof (surjective_pairing (run (UploadPo.handler base64 e w req)))
    as Hrun.
  fold calls r in Hrun. clearbody calls r.
  destruct (upload_shape _ _ _ _ _ Hrun) as [[-> Hr]|[_ Hshape]].
  - right. split; [|reflexivity].
    destruct Hr as [->|[(c & text & _ & ->)|[error ->]]]; congruence.
  - inversion Hshape; subst.
    + right. split; [congruence|reflexivity].
    + left. split; [eexists; reflexivity|reflexivity].
    + right. split; [congruence|reflexivity].
    + left. split; [eexists; reflexivity|reflexivity].
    + right. split.
      * match goal with
        | H : upload_run _ (Ok _) |- _ =>
            apply upload_run_reply in H;
            destruct H as (? & ? & ? & ? & ? & ? & ? & ? & ? & ? & ? & ? & ?
                             & ? & ? & ? & _ & _ & _ & ->)
        end.
        congruence.
      * change (Event ?c ?a :: ?l) with ([Event c a] ++ l).
        rewrite !alert_calls_app, (reads_have_no_alert reads),
          (upload_run_has_no_alert writes (Ok x)); auto.
    + left. split; [eexists; reflexivity|].
      change (Event (DealGet ?i) ?a :: ?l)
        with ([Event (DealGet i) a] ++ l).
      rewrite !alert_calls_app, (reads_have_no_alert reads),
        (upload_run_has_no_alert writes (Throw error)); auto.
Qed.

(** The one gap in the non-fatal policy: when the note creation or the
    deal patch gets no response at all (the fetch rejects), the reply is
    the HTTP 500 of the outer catch although the file was uploaded, and
    the notification is not sent. *)
Theorem upload_write_without_response_is_fatal (e : env) (w : world)
    (req : UploadPo.request) (calls : list event) (r : result reply)
    (ev : event) :
  run (UploadPo.handler base64 e w req) = (calls, r) ->
  In ev calls ->
  is_note_or_patch ev = true ->
  rejected ev = true ->
  (exists details,
      r = Ok (Reply 500 (ErrorBody UploadPo.upload_failed (Some details))))
  /\ (exists up (resp : response uploadJson),
         In up calls /\ upload_answer up = Some (Resolves resp)
         /\ ok resp = true)
  /\ forall ev', In ev' calls -> is_notify ev' = false.
Proof.
  intros Hrun Hin Hkind Hrej.
  destruct (upload_shape _ _ _ _ _ Hrun) as [[-> _]|[_ Hshape]];
    [destruct Hin|].
  assert (Hreads : forall reads ev', all_calls is_contact_read reads ->
                     In ev' reads ->
                     is_note_or_patch ev' = false /\ is_notify ev' = false).
  { intros reads ev' Hall Hin'. unfold all_calls in Hall.
    rewrite forallb_forall in Hall. specialize (Hall ev' Hin').
    destruct ev' as [c a]. destruct c; try discriminate Hall; auto. }
  destruct Hshape
    as [ | reason endpoint text dealId alert | deal Hok
       | deal error endpoint text dealId alert Hok Hunread
       | deal reads writes x Hok Hall Hwrites
       | deal reads writes error endpoint text dealId alert Hok Hall Hwrites ].
  - destruct Hin.
  - destruct Hin as [<-|[<-|[]]]; discriminate Hkind.
  - destruct Hin as [<-|[]]; discriminate Hkind.
  - destruct Hin as [<-|[<-|[]]]; discriminate Hkind.
  - exfalso. destruct Hin as [<-|Hin]; [discriminate Hkind|].
    apply in_app_or in Hin as [Hin|Hin].
    + apply (Hreads _ _ Hall) in Hin as [Hno _]. congruence.
    + apply upload_run_reply in Hwrites
        as (? & ? & ? & ? & ? & ? & ? & ? & ? & ? & ? & ? & ? & ? & ? & ?
              & -> & _).
      cbn [In] in Hin.
      repeat match goal with
             | H : _ \/ _ |- _ => destruct H
             | H : False |- _ => destruct H
             end; subst; (discriminate Hkind || discriminate Hrej).
  - split; [eexists; reflexivity|].
    destruct Hin as [<-|Hin]; [discriminate Hkind|].
    apply in_app_or in Hin as [Hin|Hin];
      [apply (Hreads _ _ Hall) in Hin as [Hno _]; congruence|].
    apply in_app_or in Hin as [Hin|[<-|[]]]; [|discriminate Hkind].
    inversion Hwrites; subst; cbn [In] in Hin;
      repeat match goal with
             | H : _ \/ _ |- _ => destruct H
             | H : False |- _ => destruct H
             end; subst; try discriminate Hkind; try discriminate Hrej.
    + split.
      * eexists; eexists. split; [right; apply in_or_app; right; left;
                                  reflexivity|].
        split; [reflexivity|assumption].
      * intros ev' [<-|Hin']; [reflexivity|].
        apply in_app_or in Hin' as [Hin'|Hin'];
          [now apply (Hreads _ _ Hall) in Hin'|].
        cbn [In app] in Hin'.
        repeat match goal with
               | H : _ \/ _ |- _ => destruct H
               | H : False |- _ => destruct H
               end; subst; reflexivity.
    + split.
      * eexists; eexists. split; [right; apply in_or_app; right; left;
                                  reflexivity|].
        split; [reflexivity|assumption].
      * intros ev' [<-|Hin']; [reflexivity|].
        apply in_app_or in Hin' as [Hin'|Hin'];
          [now apply (Hreads _ _ Hall) in Hin'|].
        cbn [In app] in Hin'.
        repeat match goal with
               | H : _ \/ _ |- _ => destruct H
               | H : False |- _ => destruct H
               end; subst; reflexivity.
Qed.

(** A success reply is earned: HTTP 200 with a file URL is sent only
    after the four write calls were made in order (upload, note, patch,
    notification), the upload having been accepted, and the URL is the one
    the file store returned. *)
Theorem upload_success_means_all_steps (e : env) (w : world)
    (req : UploadPo.request) (calls : list event) (url : jsval) :
  run (UploadPo.handler base64 e w req)
  = (calls, Ok (Reply 200 (UploadOk url))) ->
  exists before n b t (resp : response uploadJson) data d fn fi
         (note : response unit) d' u i day (patch : response unit) msg sent,
    calls = before
            ++ [Event (FileUpload n b t) (Resolves resp);
                Event (NoteCreate d fn fi) (Resolves note);
                Event (DealPatch d' u i day) (Resolves patch);
                Event (Notify msg) sent]
    /\ ok resp = true /\ json resp = Some data /\ url = file_url data
    /\ alert_calls calls = [].
Proof.
  intro Hrun.
  destruct (upload_shape _ _ _ _ _ Hrun) as [[-> Hr]|[_ Hshape]].
  - exfalso. destruct Hr as [Hr|[(c & text & _ & Hr)|[error Hr]]];
      discriminate Hr.
  - remember (Ok (Reply 200 (UploadOk url))) as r eqn:Hr.
    destruct Hshape
      as [ | reason endpoint text dealId alert | deal Hdeal
         | deal error endpoint text dealId alert Hdeal Hunread
         | deal reads writes x Hdeal Hall Hwrites
         | deal reads writes error endpoint text dealId alert Hdeal Hall
             Hwrites ]; try discriminate Hr.
    injection Hr as ->.
    apply upload_run_reply in Hwrites
      as (n & b & t & resp & data & d & fn & fi & note & d' & u & i & day
            & patch & msg & sent & -> & Hok & Hjson & Hx).
    injection Hx as ->.
    exists (Event (DealGet (js_String (UploadPo.dealId (UploadPo.fields_of req))))
                  (Resolves deal) :: reads).
    exists n, b, t, resp, data, d, fn, fi, note, d', u, i, day, patch, msg, sent.
    repeat split; auto.
    change (Event (DealGet ?k) ?a :: ?l) with ([Event (DealGet k) a] ++ l).
    rewrite !alert_calls_app, (reads_have_no_alert reads) by assumption.
    reflexivity.
Qed.

End UploadRuns.

(** *** The sample runs *)

Lemma upload_calls_need_a_verified_token_witness :
  validateToken sample_env (JStr (lit "12345")) (JStr (lit "672b04fffe37d734"))
  = Ok true.
Proof.
  refine (upload_calls_need_a_verified_token base64_reference sample_env
            (sample_world 200 200 200) sample_request
            (fst (run (UploadPo.handler base64_reference sample_env
                         (sample_world 200 200 200) sample_request)))
            (snd (run (UploadPo.handler base64_reference sample_env
                         (sample_world 200 200 200) sample_request)))
            (surjective_pairing _) _).
  vm_compute. discriminate.
Defined.

Lemma upload_client_errors_make_no_call_witness :
  fst (run (UploadPo.handler base64_reference sample_env
              (sample_world 200 200 200)
              (request_with_token (lit "0000000000000000")))) = [].
Proof.
  apply (upload_client_errors_make_no_call base64_reference sample_env
           (sample_world 200 200 200)
           (request_with_token (lit "0000000000000000")) _ 403
           (ErrorBody "Invalid or expired link" None)).
  - vm_compute. reflexivity.
  - right. left. reflexivity.
Defined.

Lemma upload_exceptions_escape_before_any_call_witness :
  fst (run (UploadPo.handler base64_reference sample_env
              (sample_world 200 200 200) (request_with_token [0xE9]))) = [].
Proof.
  apply (upload_exceptions_escape_before_any_call base64_reference sample_env
           (sample_world 200 200 200) (request_with_token [0xE9]) _
           (Exn RangeErrorK
              (lit "Input buffers must have the same byte length"))).
  vm_compute. reflexivity.
Defined.

Lemma upload_deal_not_found_witness :
  run (UploadPo.handler base64_reference sample_env missing_deal_world
         sample_request)
  = ([Event (DealGet (lit "12345"))
        (Resolves (Response 404 (lit "no such deal") None))],
     Ok (Reply 404 (ErrorBody "Deal not found" None))).
Proof.
  destruct (upload_deal_not_found base64_reference sample_env
              missing_deal_world sample_request
              (fst (run (UploadPo.handler base64_reference sample_env
                           missing_deal_world sample_request)))
              (snd (run (UploadPo.handler base64_reference sample_env
                           missing_deal_world sample_request)))
              (Event (DealGet (lit "12345"))
                 (Resolves (Response 404 (lit "no such deal") None)))
              (Response 404 (lit "no such deal") None)
              (surjective_pairing _)) as [Hreply Hcalls].
  - vm_compute. left. reflexivity.
  - reflexivity.
  - reflexivity.
  - rewrite (surjective_pairing (run _)), Hreply, Hcalls. reflexivity.
Defined.

Lemma upload_write_without_response_is_fatal_witness :
  let out := run (UploadPo.handler base64_reference sample_env
                    offline_note_world sample_request) in
  (exists details,
      snd out = Ok (Reply 500 (ErrorBody UploadPo.upload_failed (Some details))))
  /\ (exists up (resp : response uploadJson),
         In up (fst out) /\ upload_answer up = Some (Resolves resp)
         /\ ok resp = true)
  /\ forall ev', In ev' (fst out) -> is_notify ev' = false.
Proof.
  intro out.
  apply (upload_write_without_response_is_fatal base64_reference sample_env
           offline_note_world sample_request (fst out) (snd out)
           (Event (NoteCreate (JStr (lit "12345")) (JStr (lit "po.pdf"))
                     (JNum 77))
                  (Rejects (lit "fetch failed")))).
  - apply surjective_pairing.
  - vm_compute. do 5 right. left. reflexivity.
  - reflexivity.
  - reflexivity.
Defined.

Lemma upload_success_means_all_steps_witness :
  exists before n b t (resp : response uploadJson) data d fn fi
         (note : response unit) d' u i day (patch : response unit) msg sent,
    fst (run (UploadPo.handler base64_reference sample_env
                (sample_world 201 500 404) sample_request))
    = before
      ++ [Event (FileUpload n b t) (Resolves resp);
          Event (NoteCreate d fn fi) (Resolves note);
          Event (DealPatch d' u i day) (Resolves patch);
          Event (Notify msg) sent]
    /\ ok resp = true /\ json resp = Some data
    /\ JStr (lit "https://files.example/po.pdf") = file_url data
    /\ alert_calls
         (fst (run (UploadPo.handler base64_reference sample_env
                      (sample_world 201 500 404) sample_request))) = [].
Proof.
  apply (upload_success_means_all_steps base64_reference sample_env
           (sample_world 201 500 404) sample_request).
  vm_compute. reflexivity.
Defined.

(** *** The request checks *)

Lemma strict_eqb_eq (a b : jsval) : strict_eqb a b = true -> a = b.
Proof.
  destruct a, b; cbn [strict_eqb]; try discriminate; try reflexivity.
  - intro H. apply Bool.eqb_prop in H. now subst.
  - intro H. apply Z.eqb_eq in H. now subst.
  - intro H. apply str_eqb_eq in H. now subst.
Qed.

Lemma allowed_type_iff (t : jsval) :
  existsb (strict_eqb t) UploadPo.allowedTypes = true
  <-> In t UploadPo.allowedTypes.
Proof.
  split; [|apply allowed_type_found].
  rewrite existsb_exists. intros [a [Hin Heq]].
  apply strict_eqb_eq in Heq. now subst.
Qed.

(** [fileData.includes(',') ? fileData.split(',')[1] : fileData]: a
    payload without a comma is taken as it is; after a data-URL prefix
    the payload is what follows the first comma. *)
Lemma split_char_app (c : N) (a b : jsstring) :
  includes_char c a = false ->
  split_char c (a ++ c :: b) = a :: split_char c b.
Proof.
  unfold includes_char. induction a as [|x a IH]; cbn [app split_char existsb].
  - now rewrite N.eqb_refl.
  - intro H. apply orb_false_iff in H as [Hx Ha].
    rewrite N.eqb_sym, Hx, (IH Ha). reflexivity.
Qed.

Lemma split_char_none (c : N) (a : jsstring) :
  includes_char c a = false -> split_char c a = [a].
Proof.
  unfold includes_char. induction a as [|x a IH]; cbn [split_char existsb];
    [reflexivity|].
  intro H. apply orb_false_iff in H as [Hx Ha].
  now rewrite N.eqb_sym, Hx, (IH Ha).
Qed.

Theorem base64Raw_strips_data_url_prefix (prefix payload : jsstring) :
  includes_char 44 prefix = false ->
  includes_char 44 payload = false ->
  UploadPo.base64Raw payload = payload
  /\ UploadPo.base64Raw (prefix ++ lit "," ++ payload) = payload.
Proof.
  intros Hprefix Hpayload. unfold UploadPo.base64Raw. split.
  - now rewrite Hpayload.
  - change (lit "," ++ payload) with (44 :: payload).
    replace (includes_char 44 (prefix ++ 44 :: payload)) with true.
    + rewrite (split_char_app _ _ _ Hprefix), (split_char_none _ _ Hpayload).
      reflexivity.
    + unfold includes_char. rewrite existsb_app. cbn [existsb].
      rewrite N.eqb_refl. now rewrite orb_true_r.
Qed.

Lemma base64Raw_strips_data_url_prefix_witness :
  UploadPo.base64Raw (lit "TWFu") = lit "TWFu"
  /\ UploadPo.base64Raw (lit "data:application/pdf;base64" ++ lit "," ++ lit "TWFu")
     = lit "TWFu".
Proof.
  apply base64Raw_strips_data_url_prefix; vm_compute; reflexivity.
Defined.

Section Mime.

Variable base64 : jsstring -> buffer.

(** The MIME allow-list: a declared type other than PDF, PNG or JPEG is
    refused with HTTP 400 and no call; an absent type, or one of the
    three, is never refused for its type. *)
Theorem upload_mime_allow_list (e : env) (w : world)
    (req : UploadPo.request) (f : UploadPo.fields) :
  UploadPo.method req = lit "POST" ->
  UploadPo.req_body req = Some f ->
  truthy (UploadPo.dealId f) = true ->
  validateToken e (UploadPo.dealId f) (UploadPo.token f) = Ok true ->
  truthy (UploadPo.fileData f) = true ->
  truthy (UploadPo.fileName f) = true ->
  (truthy (UploadPo.fileType f) = true ->
   ~ In (UploadPo.fileType f) UploadPo.allowedTypes ->
   run (UploadPo.handler base64 e w req)
   = ([], Ok (Reply 400
                (ErrorBody
                   "File type not allowed. Please upload a PDF, PNG, or JPG."
                   None))))
  /\ (truthy (UploadPo.fileType f) = false
      \/ In (UploadPo.fileType f) UploadPo.allowedTypes ->
      snd (run (UploadPo.handler base64 e w req))
      <> Ok (Reply 400
               (ErrorBody
                  "File type not allowed. Please upload a PDF, PNG, or JPG."
                  None))).
Proof.
  intros Hmethod Hbody Hdeal Hvalid Hdata Hname. split.
  - intros Htype Hnot.
    unfold run, UploadPo.handler, UploadPo.fields_of, bind, lift.
    rewrite Hmethod, Hbody, Hdeal, (validateToken_needs_token _ _ _ Hvalid),
      Hvalid, Hdata, Hname, Htype.
    replace (existsb (strict_eqb (UploadPo.fileType f)) UploadPo.allowedTypes)
      with false; [reflexivity|].
    symmetry. apply not_true_is_false. now rewrite allowed_type_iff.
  - intros Htype Hreply.
    destruct (UploadPo.fileData f) as [| |b|z|data] eqn:Hfile.
    1,2: discriminate Hdata.
    1,2: unfold run, UploadPo.handler, UploadPo.fields_of, bind, lift in Hreply;
      rewrite Hmethod, Hbody, Hdeal, (validateToken_needs_token _ _ _ Hvalid),
        Hvalid, Hfile, Hname in Hreply;
      cbv beta iota in Hreply; rewrite Hdata in Hreply;
      replace (truthy (UploadPo.fileType f)
               && negb (existsb (strict_eqb (UploadPo.fileType f))
                          UploadPo.allowedTypes)) with false in Hreply
        by (destruct Htype as [->|Hin]; [reflexivity|];
            rewrite (allowed_type_found _ Hin); now rewrite andb_false_r);
      discriminate Hreply.
    assert (Hne : data <> []) by (intros ->; discriminate Hdata).
    unfold run in Hreply.
    rewrite (validated_request_enters_pipeline base64 e w req f data
               Hmethod Hbody Hdeal Hvalid Hfile Hne Hname Htype) in Hreply.
    destruct (UploadPo.maxSize <? _); [discriminate Hreply|].
    destruct (pipeline_shape_runs e w f (base64 (UploadPo.base64Raw data))
                initial) as [evs [_ Hshape]].
    destruct (UploadPo.pipeline e w f (base64 (UploadPo.base64Raw data))
                initial) as [s r].
    cbn [fst snd] in *. subst r.
    inversion Hshape; subst.
    match goal with
    | H : upload_run _ (Ok _) |- _ => inversion H
    end.
Qed.

End Mime.

Lemma upload_mime_allow_list_witness :
  run (UploadPo.handler base64_reference sample_env (sample_world 200 200 200)
         (request_with_type (JStr (lit "application/zip"))))
  = ([], Ok (Reply 400
               (ErrorBody
                  "File type not allowed. Please upload a PDF, PNG, or JPG."
                  None))).
Proof.
  apply (proj1 (upload_mime_allow_list base64_reference sample_env
                  (sample_world 200 200 200)
                  (request_with_type (JStr (lit "application/zip")))
                  (fields_with_type (JStr (lit "application/zip")))
                  eq_refl eq_refl eq_refl
                  ltac:(vm_compute; reflexivity) eq_refl eq_refl)).
  - reflexivity.
  - intros [H|[H|[H|[]]]]; vm_compute in H; discriminate H.
Defined.

(** *** Recipients of the confirmation *)

(** Starting from the empty recipients the pipeline sets, whatever the
    CRM answers, the look-up of lines 83-136 never leaves a CC that is the
    recipient's own address, nor a CC without a recipient. *)
Theorem recipients_never_cc_themselves (w : world) (dealId : jsval) (s : st) :
  contactEmail s = JStr [] ->
  ccEmail s = JStr [] ->
  recipients_ok (fst (UploadPo.resolve_recipients w dealId s)).
Proof.
  destruct s as [tr dn ce cn cce ccn]. cbn [contactEmail ccEmail].
  intros -> ->. unfold UploadPo.resolve_recipients, recipients_ok.
  run_monad.
  repeat (match goal with
          | |- context [respond ?w ?h ?c] =>
              destruct (respond w h c) as [?|?]
          | |- context [ok ?r] => destruct (ok r)
          | |- context [json ?r] => destruct (json r) as [?|]
          | |- context [payerAssoc ?l] => destruct (payerAssoc l) as [?|]
          | |- context [primaryAssoc ?l] => destruct (primaryAssoc l) as [?|]
          | |- context [contact_properties ?c] =>
              destruct (contact_properties c) as [?|]
          | |- context [if negb (truthy ?x) then _ else _] =>
              let H := fresh "Hrecipient" in
              destruct (truthy x) eqn:H; cbn [negb]
          | |- context [if ?a && ?b then _ else _] =>
              let H := fresh "Hcc" in destruct (a && b) eqn:H
          end; run_monad).
  all: try (left; reflexivity).
  all: right; apply andb_true_iff in Hcc as [Hcc Hother];
    apply negb_true in Hother; auto.
Qed.

Lemma recipients_never_cc_themselves_witness :
  recipients_ok
    (fst (UploadPo.resolve_recipients (sample_world 200 200 200)
            (JStr (lit "12345"))
            (St [] (JStr (lit "Acme")) (JStr []) (JStr []) (JStr []) (JStr [])))).
Proof. apply recipients_never_cc_themselves; reflexivity. Defined.

(** In the sample CRM the Payer (contact 3) is the recipient and the
    Primary Contact (contact 2) is in CC. *)
Example sample_recipients :
  let s := fst (UploadPo.resolve_recipients (sample_world 200 200 200)
                  (JStr (lit "12345"))
                  (St [] (JStr (lit "Acme")) (JStr []) (JStr []) (JStr [])
                      (JStr []))) in
  contactEmail s = JStr (lit "c3@example.com")
  /\ ccEmail s = JStr (lit "c2@example.com")
  /\ contactName s = JStr (lit "Ada").
Proof. vm_compute. auto. Qed.

(* ================================================================== *)
(** ** The token-gated read endpoint *)

Lemma review_reportError_alerts (w : world) (endpoint : string) (error : exn)
    (dealId : jsval) :
  runs (PoQuoteReview.reportError w endpoint error dealId)
       (fun evs r =>
          r = Ok tt
          /\ exists text who alert,
               evs = [Event (ErrorAlert endpoint text who) alert]).
Proof.
  unfold PoQuoteReview.reportError. apply runs_try_catch, runs_bind, runs_fetch.
  - intro reason. cbv beta iota. apply runs_ret. cbn [app].
    split; [reflexivity|]. eauto.
  - intro r. cbv beta iota. apply runs_ret. cbn [app].
    split; [reflexivity|]. eauto.
Qed.

Lemma number_or_truthy (x d : float) :
  falsy d = false -> falsy (number_or x d) = false.
Proof.
  intro Hd. unfold number_or. now destruct (falsy x) eqn:Hx.
Qed.

Lemma resolve_items_runs (items : list lineItemJson) :
  runs (PoQuoteReview.resolve_items items)
       (fun evs r => evs = [] /\ forall l, r = Ok l -> Forall well_resolved l).
Proof.
  induction items as [|item rest IH]; cbn [PoQuoteReview.resolve_items].
  - apply runs_ret. split; [reflexivity|]. intros l H. injection H as <-.
    constructor.
  - unfold PoQuoteReview.resolve_item.
    apply runs_bind, runs_bind. unfold properties_of.
    destruct (item_properties item) as [props|].
    + apply runs_ret. cbv beta iota. apply runs_ret. cbv beta iota.
      apply runs_bind. eapply runs_consequence; [exact IH|].
      intros evs r [-> Hall]. destruct r as [xs|error].
      * apply runs_ret. split; [reflexivity|]. intros l H.
        injection H as <-. constructor; [|now apply Hall].
        unfold well_resolved. cbn [quantity].
        apply number_or_truthy. reflexivity.
      * split; [reflexivity|]. discriminate.
    + apply runs_throw. cbv beta iota. split; [reflexivity|]. discriminate.
Qed.

Lemma no_call_only (Q : call -> bool) {A : Type} (m : M A)
    (P : result A -> Prop) :
  runs m (fun evs r => evs = [] /\ P r) -> only Q m.
Proof.
  intros H s. destruct (H s) as [evs [Htrace [-> _]]]. now exists [].
Qed.

Lemma runs_and_only (Q : call -> bool) {A : Type} (m : M A)
    (P : list event -> result A -> Prop) :
  runs m P -> only Q m -> runs m (fun evs r => P evs r /\ all_calls Q evs).
Proof.
  intros HP HQ s. destruct (HP s) as [evs [Htrace H]].
  destruct (HQ s) as [evs' [Htrace' Hall]].
  assert (evs = evs') by (apply (app_inv_head (trace s)); congruence).
  subst evs'. exists evs. auto.
Qed.

Lemma fetch_line_items_reads (w : world) (dealId : jsval) :
  only is_crm_read (PoQuoteReview.fetch_line_items w dealId)
  /\ only review_call (PoQuoteReview.fetch_line_items w dealId).
Proof.
  split; unfold PoQuoteReview.fetch_line_items; repeat only_step;
    eapply no_call_only; apply resolve_items_runs.
Qed.

Lemma fetch_line_items_runs (w : world) (dealId : jsval) :
  runs (PoQuoteReview.fetch_line_items w dealId)
       (fun evs r =>
          (forall l, r = Ok l -> Forall well_resolved l)
          /\ all_calls is_crm_read evs).
Proof.
  apply runs_and_only; [|apply fetch_line_items_reads].
  unfold PoQuoteReview.fetch_line_items.
  repeat wp_step_eq; cbv beta iota; try discriminate;
    try (intros l' H; injection H as <-; constructor).
  eapply runs_consequence; [apply resolve_items_runs|].
  intros evs r1 [-> H]. exact H.
Qed.

Lemma fetch_contact_reads (w : world) (r : option association) :
  runs (PoQuoteReview.fetch_contact w r)
       (fun evs _ => all_calls is_crm_read evs).
Proof.
  assert (H : only is_crm_read (PoQuoteReview.fetch_contact w r))
    by (unfold PoQuoteReview.fetch_contact; repeat only_step).
  intro s. destruct (H s) as [evs [Htrace Hall]]. now exists evs.
Qed.

Lemma all_calls_app (Q : call -> bool) (evs evs' : list event) :
  all_calls Q evs -> all_calls Q evs' -> all_calls Q (evs ++ evs').
Proof. unfold all_calls. rewrite forallb_app. now intros -> ->. Qed.

Lemma all_calls_nil (Q : call -> bool) : all_calls Q [].
Proof. reflexivity. Qed.

Lemma all_calls_one (Q : call -> bool) (c : call) (a : fetched (body_of c)) :
  Q c = true -> all_calls Q [Event c a].
Proof. unfold all_calls. cbn [forallb ev_call]. now intros ->. Qed.

#[local] Hint Resolve all_calls_app all_calls_nil all_calls_one : only_db.

Ltac review_step :=
  cbv beta iota;
  match goal with
  | |- runs (PoQuoteReview.fetch_line_items _ _) _ =>
      eapply runs_consequence; [apply fetch_line_items_runs|];
      let items := fresh "itemReads" in
      let Hi := fresh "Hitems" in
      let Hq := fresh "HitemReads" in
      intros items ? [Hi Hq]
  | |- runs (PoQuoteReview.fetch_contact _ _) _ =>
      eapply runs_consequence; [apply fetch_contact_reads|];
      let evs := fresh "contactReads" in
      let Hq := fresh "HcontactReads" in
      intros evs ? Hq
  | |- runs (PoQuoteReview.reportError _ _ _ _) _ =>
      eapply runs_consequence; [apply review_reportError_alerts|];
      let text := fresh "text" in
      let who := fresh "who" in
      let alert := fresh "alert" in
      intros ? ? [-> [text [who [alert ->]]]]
  | |- _ => wp_step_eq
  end.

Lemma all_calls_cons (Q : call -> bool) (ev : event) (evs : list event) :
  Q (ev_call ev) = true -> all_calls Q evs -> all_calls Q (ev :: evs).
Proof. unfold all_calls. cbn [forallb]. now intros -> ->. Qed.

#[local] Hint Resolve all_calls_cons : only_db.

Ltac token_verified :=
  match goal with
  | Hv : validateToken _ _ _ = Ok ?a, Ha : ?a = true |- _ =>
      now rewrite Ha in Hv
  end.

Lemma review_shape_runs (e : env) (w : world) (req : PoQuoteReview.request) :
  runs (PoQuoteReview.handler e w req) (review_shape e req).
Proof.
  unfold PoQuoteReview.handler.
  repeat review_step.
  all: cbv beta iota; cbn [app].
  all: repeat match goal with
              | H : negb _ = true |- _ => apply negb_true in H
              | H : negb _ = false |- _ => apply negb_false in H
              end.
  all: try (now apply review_token_throws).
  all: try (apply review_preflight).
  all: try (apply review_refused; cbn [In]; auto; fail).
  all: try (apply review_unconfigured; token_verified).
  all: try (apply review_not_found; [token_verified|assumption]).
  all: try (first [ apply (review_failed e req [_])
                  | apply (review_failed e req (_ :: _)) ];
            [token_verified|auto 10 with only_db]).
  all: apply review_served;
    [token_verified | auto 10 with only_db
    | split; [reflexivity|cbn [qr_lineItems]; auto] ].
Qed.

Lemma review_shape_of_run (e : env) (w : world) (req : PoQuoteReview.request)
    (calls : list event) (r : result reply) :
  run (PoQuoteReview.handler e w req) = (calls, r) ->
  review_shape e req calls r.
Proof. apply run_outcome, review_shape_runs. Qed.

(** Access control of the read endpoint: no call is made, and no view
    model is served, unless the token of the request was verified for its
    deal id. *)
Theorem review_needs_a_verified_token (e : env) (w : world)
    (req : PoQuoteReview.request) (calls : list event) (r : result reply) :
  run (PoQuoteReview.handler e w req) = (calls, r) ->
  calls <> [] \/ (exists view, r = Ok (Reply 200 (ReviewOk view))) ->
  validateToken e (PoQuoteReview.dealId req) (PoQuoteReview.token req)
  = Ok true.
Proof.
  intros Hrun Hserved. apply review_shape_of_run in Hrun.
  destruct Hrun; try assumption; exfalso;
    destruct Hserved as [Hcalls|[view Hview]];
    try (now apply Hcalls); try discriminate Hview.
Qed.

Lemma review_needs_a_verified_token_witness :
  validateToken sample_env (JStr (lit "12345")) (JStr (lit "672b04fffe37d734"))
  = Ok true.
Proof.
  refine (review_needs_a_verified_token sample_env (sample_world 200 200 200)
            (review_request (lit "672b04fffe37d734"))
            (fst (run (PoQuoteReview.handler sample_env
                         (sample_world 200 200 200)
                         (review_request (lit "672b04fffe37d734")))))
            (snd (run (PoQuoteReview.handler sample_env
                         (sample_world 200 200 200)
                         (review_request (lit "672b04fffe37d734")))))
            (surjective_pairing _) _).
  left. vm_compute. discriminate.
Defined.

(** The response invariant: in every view model served, the total is the
    reduce of the handler (the binary64 sum, taken from left to right, of
    the amount or else price times quantity) over the very line items
    served with it, none of which has a quantity that is zero or NaN, and
    the run made only reads of the CRM. *)
Theorem review_view_is_consistent (e : env) (w : world)
    (req : PoQuoteReview.request) (calls : list event) (view : quoteReview) :
  run (PoQuoteReview.handler e w req)
  = (calls, Ok (Reply 200 (ReviewOk view))) ->
  qr_total view = total (qr_lineItems view)
  /\ Forall (fun item => falsy (quantity item) = false) (qr_lineItems view)
  /\ all_calls is_crm_read calls.
Proof.
  intro Hrun. apply review_shape_of_run in Hrun.
  remember (Ok (Reply 200 (ReviewOk view))) as r eqn:Hr.
  destruct Hrun as [ | c text Hc | error Hv | Hv | deal Hv Hok
                   | reads error endpoint text who alert Hv Hreads
                   | reads view' Hv Hreads [Htotal Hitems] ];
    try discriminate Hr.
  injection Hr as ->. repeat split; auto.
Qed.

Lemma review_view_is_consistent_witness :
  exists view,
    snd (run (PoQuoteReview.handler sample_env (sample_world 200 200 200)
                (review_request (lit "672b04fffe37d734"))))
    = Ok (Reply 200 (ReviewOk view))
    /\ qr_total view = 27%float
    /\ qr_total view = total (qr_lineItems view)
    /\ Forall (fun item => falsy (quantity item) = false) (qr_lineItems view).
Proof.
  eexists. split; [vm_compute; reflexivity|]. split; [reflexivity|].
  refine (let H := review_view_is_consistent sample_env
                     (sample_world 200 200 200)
                     (review_request (lit "672b04fffe37d734")) _ _ _ in
          conj (proj1 H) (proj1 (proj2 H))).
  vm_compute. reflexivity.
Defined.

Lemma review_handler_calls (e : env) (w : world)
    (req : PoQuoteReview.request) :
  only review_call (PoQuoteReview.handler e w req).
Proof.
  unfold PoQuoteReview.handler, PoQuoteReview.fetch_contact,
    PoQuoteReview.reportError.
  repeat first [ apply fetch_line_items_reads | only_step ].
Qed.

(** The batch read of line items is only made for a non-empty list of
    ids: a deal without line items costs no batch call. *)
Theorem review_batch_read_needs_ids (e : env) (w : world)
    (req : PoQuoteReview.request) (ev : event) (ids : list Z) :
  In ev (fst (run (PoQuoteReview.handler e w req))) ->
  batch_ids ev = Some ids ->
  ids <> [].
Proof.
  unfold run. intros Hin Hids.
  destruct (review_handler_calls e w req initial) as [evs [Htrace Hall]].
  destruct (PoQuoteReview.handler e w req initial) as [s r].
  cbn [fst trace initial app] in *. subst evs.
  rewrite forallb_forall in Hall. specialize (Hall ev Hin).
  unfold batch_ids in Hids. destruct (ev_call ev); try discriminate Hids.
  injection Hids as ->. intros ->. discriminate Hall.
Qed.

Lemma review_batch_read_needs_ids_witness :
  batch_ids (nth 2 (fst (run (PoQuoteReview.handler sample_env
                                (sample_world 200 200 200)
                                (review_request (lit "672b04fffe37d734")))))
                   (Event (DealGet []) (Rejects [])))
  = Some [1%Z; 2%Z; 3%Z]
  /\ [1%Z; 2%Z; 3%Z] <> [].
Proof.
  split; [vm_compute; reflexivity|].
  apply (review_batch_read_needs_ids sample_env (sample_world 200 200 200)
           (review_request (lit "672b04fffe37d734"))
           (Event (LineItemsBatchRead [1%Z; 2%Z; 3%Z])
              (respond (sample_world 200 200 200) []
                 (LineItemsBatchRead [1%Z; 2%Z; 3%Z])))).
  - vm_compute. do 2 right. left. reflexivity.
  - reflexivity.
Defined.

(** The only exception the read endpoint lets escape is the one of the
    token check, before any call; whatever fails later ends in a reply. *)
Theorem review_exceptions_come_from_the_token_check (e : env) (w : world)
    (req : PoQuoteReview.request) (calls : list event) (error : exn) :
  run (PoQuoteReview.handler e w req) = (calls, Throw error) ->
  calls = []
  /\ validateToken e (PoQuoteReview.dealId req) (PoQuoteReview.token req)
     = Throw error.
Proof.
  intro Hrun. apply review_shape_of_run in Hrun.
  inversion Hrun; subst. auto.
Qed.

Lemma review_exceptions_come_from_the_token_check_witness :
  fst (run (PoQuoteReview.handler sample_env (sample_world 200 200 200)
              (review_request [0xE9]))) = []
  /\ validateToken sample_env (JStr (lit "12345")) (JStr [0xE9])
     = Throw (Exn RangeErrorK
                (lit "Input buffers must have the same byte length")).
Proof.
  apply (review_exceptions_come_from_the_token_check sample_env
           (sample_world 200 200 200) (review_request [0xE9])).
  vm_compute. reflexivity.
Defined.

(** Failures after the checks: the reply is HTTP 500 with the message of
    the exception exactly when the error-alert webhook was called, which
    happens at most once and last. *)
Theorem review_alerts_once_per_failure (e : env) (w : world)
    (req : PoQuoteReview.request) :
  let calls := fst (run (PoQuoteReview.handler e w req)) in
  let r := snd (run (PoQuoteReview.handler e w req)) in
  ((exists details,
       r = Ok (Reply 500 (ErrorBody "Failed to fetch data" (Some details))))
   /\ exists reads alert,
        calls = reads ++ [alert]
        /\ is_alert (ev_call alert) = true /\ alert_calls reads = [])
  \/ ((forall text details,
          r <> Ok (Reply 500 (ErrorBody text (Some details))))
      /\ alert_calls calls = []).
Proof.
  intros calls r.
  pose proof (review_shape_of_run e w req calls r (surjective_pairing _))
    as Hshape.
  clearbody calls r.
  assert (Hreads : forall reads, all_calls is_crm_read reads ->
                                 alert_calls reads = []).
  { unfold all_calls, alert_calls.
    induction reads as [|[c a] reads IH]; [reflexivity|].
    cbn [forallb filter ev_call]. intro H.
    apply andb_true_iff in H as [Hc H].
    destruct c; try discriminate Hc; cbn [is_alert]; auto. }
  destruct Hshape as [ | c text Hc | error Hv | Hv | deal Hv Hok
                     | reads error endpoint text who alert Hv Hall
                     | reads view Hv Hall Hview ].
  - right. split; [congruence|reflexivity].
  - right. split; [congruence|reflexivity].
  - right. split; [congruence|reflexivity].
  - right. split; [congruence|reflexivity].
  - right. split; [congruence|reflexivity].
  - left. split; [eexists; reflexivity|].
    eexists; eexists. split; [reflexivity|]. split; [reflexivity|auto].
  - right. split; [congruence|auto].
Qed.

(** Degraded associations: when the CRM serves the deal but answers every
    association read with a non-success status, the read endpoint still
    replies HTTP 200, with no line item, a zero total and no contact,
    after three calls (the deal and the two association reads). *)
Theorem review_degrades_without_associations (e : env) (w : world)
    (req : PoQuoteReview.request) (deal : response dealJson) (d : dealJson)
    (props : dealProperties) :
  str_eqb (PoQuoteReview.method req) (lit "OPTIONS") = false ->
  truthy (PoQuoteReview.dealId req) = true ->
  validateToken e (PoQuoteReview.dealId req) (PoQuoteReview.token req)
  = Ok true ->
  truthy (env_value (HUBSPOT_TOKEN e)) = true ->
  (forall h, respond w h (DealGet (js_String (PoQuoteReview.dealId req)))
             = Resolves deal) ->
  ok deal = true -> json deal = Some d -> deal_properties d = Some props ->
  (forall h t, exists r : response associationsJson,
      respond w h (AssociationsGet (js_String (PoQuoteReview.dealId req)) t)
      = Resolves r /\ ok r = false) ->
  snd (run (PoQuoteReview.handler e w req))
  = Ok (Reply 200
          (ReviewOk (QuoteReview (deal_id d) (js_or (dealname props) (JStr []))
                       0 [] None None)))
  /\ List.length (fst (run (PoQuoteReview.handler e w req))) = 3%nat.
Proof.
  intros Hmethod Hdeal Hvalid Hcrm Hget Hok Hjson Hprops Hassoc.
  unfold run, PoQuoteReview.handler, PoQuoteReview.fetch_line_items, initial.
  rewrite Hmethod, Hdeal, (validateToken_needs_token _ _ _ Hvalid), Hvalid,
    Hcrm.
  run_monad. cbn [negb]. run_monad. rewrite Hget. run_monad.
  cbn [body_of]. rewrite Hok. cbn [negb]. run_monad. rewrite Hjson.
  run_monad.
  destruct (Hassoc ([] ++ [Event (DealGet (js_String (PoQuoteReview.dealId req)))
                             (Resolves deal)]) "line_items"%string)
    as [items [Hitems Hitems_ok]].
  rewrite Hitems. run_monad. cbn [body_of]. rewrite Hitems_ok. run_monad.
  match goal with
  | |- context [respond w ?h (AssociationsGet ?i "contacts")] =>
      destruct (Hassoc h "contacts"%string) as [contacts [Hc Hc_ok]];
      rewrite Hc
  end.
  run_monad. cbn [body_of]. rewrite Hc_ok. run_monad. rewrite Hprops.
  run_monad. split; reflexivity.
Qed.

Lemma review_degrades_without_associations_witness :
  snd (run (PoQuoteReview.handler sample_env no_association_world
              (review_request (lit "672b04fffe37d734"))))
  = Ok (Reply 200
          (ReviewOk (QuoteReview (JStr (lit "12345")) (JStr (lit "Acme"))
                       0 [] None None)))
  /\ List.length
       (fst (run (PoQuoteReview.handler sample_env no_association_world
                    (review_request (lit "672b04fffe37d734"))))) = 3%nat.
Proof.
  apply (review_degrades_without_associations sample_env no_association_world
           (review_request (lit "672b04fffe37d734"))
           (Response 200 []
              (Some (DealJson (JStr (lit "12345"))
                       (Some (DealProperties (JStr (lit "Acme")) JNull)))))
           (DealJson (JStr (lit "12345"))
              (Some (DealProperties (JStr (lit "Acme")) JNull)))
           (DealProperties (JStr (lit "Acme")) JNull));
    try reflexivity.
  intros h t. eexists. split; reflexivity.
Defined.

(** The total depends on the order in which the line items come back:
    the amounts 0.1, 0.2 and 0.3 add up to 0.6000000000000001 in this
    order and to 0.6 in the reverse order. *)
Theorem total_depends_on_order :
  Permutation tenths (rev tenths)
  /\ total tenths = 0.6000000000000001%float
  /\ total (rev tenths) = 0.6%float
  /\ total tenths <> total (rev tenths).
Proof.
  split; [apply Permutation_rev|].
  split; [reflexivity|]. split; [reflexivity|].
  vm_compute. intro H. discriminate H.
Qed.

(* ================================================================== *)
(** ** The read endpoints without a token *)

Section ReadEndpoints.

Import Reads.

Lemma reads_ret {A : Type} (a : A) (P : list event -> result A -> Prop) :
  P [] (Ok a) -> runs (ret a) P.
Proof. intros H log. exists []. cbn [ret fst snd]. now rewrite app_nil_r. Qed.

Lemma reads_throw {A : Type} (e : exn) (P : list event -> result A -> Prop) :
  P [] (Throw e) -> runs (throw e) P.
Proof. intros H log. exists []. cbn [throw fst snd]. now rewrite app_nil_r. Qed.

Lemma reads_fetch (w : world) (c : call)
    (P : list event -> result (response (body_of c)) -> Prop) :
  (forall reason, P [Event c (Rejects reason)] (Throw (Exn TypeErrorK reason))) ->
  (forall r, P [Event c (Resolves r)] (Ok r)) ->
  runs (fetch w c) P.
Proof.
  intros Hrej Hres log. unfold fetch.
  destruct (w log c) as [reason|r]; cbn [fst snd];
    eexists; split; try reflexivity; auto.
Qed.

Lemma reads_bind {A B : Type} (m : R A) (f : A -> R B)
    (P : list event -> result B -> Prop) :
  runs m (fun evs1 r1 =>
            match r1 with
            | Ok a => runs (f a) (fun evs2 r => P (evs1 ++ evs2) r)
            | Throw e => P evs1 (Throw e)
            end) ->
  runs (bind m f) P.
Proof.
  intros Hm log. unfold bind. destruct (Hm log) as [evs1 [Hlog H]].
  destruct (m log) as [log1 [a|e]]; cbn [fst snd] in *.
  - destruct (H log1) as [evs2 [Hlog2 H2]].
    exists (evs1 ++ evs2). split; [|exact H2].
    now rewrite Hlog2, Hlog, app_assoc.
  - now exists evs1.
Qed.

Lemma reads_try_catch {A : Type} (m : R A) (h : exn -> R A)
    (P : list event -> result A -> Prop) :
  runs m (fun evs1 r1 =>
            match r1 with
            | Ok a => P evs1 (Ok a)
            | Throw e => runs (h e) (fun evs2 r => P (evs1 ++ evs2) r)
            end) ->
  runs (try_catch m h) P.
Proof.
  intros Hm log. unfold try_catch. destruct (Hm log) as [evs1 [Hlog H]].
  destruct (m log) as [log1 [a|e]]; cbn [fst snd] in *.
  - now exists evs1.
  - destruct (H log1) as [evs2 [Hlog2 H2]].
    exists (evs1 ++ evs2). split; [|exact H2].
    now rewrite Hlog2, Hlog, app_assoc.
Qed.

Lemma reads_consequence {A : Type} (m : R A)
    (P P' : list event -> result A -> Prop) :
  runs m P -> (forall evs r, P evs r -> P' evs r) -> runs m P'.
Proof.
  intros Hm Himp log. destruct (Hm log) as [evs [Hlog H]].
  exists evs. auto.
Qed.

Lemma reads_outcome {A : Type} (m : R A) (P : list event -> result A -> Prop)
    (calls : list event) (r : result A) :
  runs m P -> run m = (calls, r) -> P calls r.
Proof.
  intros Hm Hrun. unfold run in Hrun. destruct (Hm []) as [evs [Hlog H]].
  rewrite Hrun in Hlog, H. cbn [fst snd app] in Hlog, H. now subst.
Qed.

Ltac reads_step :=
  cbv beta iota;
  match goal with
  | |- runs (bind _ _) _ => apply reads_bind
  | |- runs (try_catch _ _) _ => apply reads_try_catch
  | |- runs (fetch _ _) _ => apply reads_fetch; intro
  | |- runs (ret _) _ => apply reads_ret
  | |- runs (throw _) _ => apply reads_throw
  | |- runs (read_json ?r) _ =>
      let H := fresh "Hjson" in unfold read_json; destruct (json r) eqn:H
  | |- runs (properties_of ?p) _ =>
      let H := fresh "Hprops" in unfold properties_of; destruct p eqn:H
  | |- runs (if negb ?b then _ else _) _ =>
      let H := fresh "Hif" in destruct b eqn:H; cbn [negb]
  | |- runs (if ?b then _ else _) _ =>
      let H := fresh "Hif" in destruct b eqn:H
  | |- match ?x with Ok _ => _ | Throw _ => _ end =>
      let H := fresh "Hres" in destruct x eqn:H
  | |- runs (match ?x with _ => _ end) _ =>
      let H := fresh "Hcase" in destruct x eqn:H
  end.

(** Resolving the items of a batch makes no call. *)
Lemma resolve_items_silent (l : list itemRecord) :
  runs (resolve_items l) (fun evs _ => evs = []).
Proof.
  induction l as [|r rest IH]; cbn [resolve_items].
  - now apply reads_ret.
  - unfold resolve_item. repeat reads_step; try reflexivity.
    eapply reads_consequence; [apply IH|].
    intros evs [xs|e] ->; cbn [app]; [now apply reads_ret|reflexivity].
Qed.

Lemma described_items_reads (w : world) (dealId : jsval) :
  runs (fetch_line_items w dealId) (fun evs _ => item_reads dealId evs).
Proof.
  unfold fetch_line_items.
  repeat reads_step; cbn [app]; try (now constructor).
  eapply reads_consequence; [apply resolve_items_silent|].
  intros ? ? ->. constructor.
Qed.

Lemma find_deal_lookup (w : world) (dealId : jsval) :
  runs (find_deal w dealId) (lookup dealId).
Proof.
  unfold find_deal.
  repeat reads_step; cbn [app].
  all: try (now constructor).
  all: try (econstructor; eassumption).
  all: try (apply lookup_nothing; [assumption|]; eauto 6).
Qed.

Lemma has_payer_reads (w : world) (hubspotDealId : jsval) :
  runs (Sketch.has_payer w hubspotDealId)
    (fun evs r =>
       exists a,
         evs = [Event (Associations (js_String hubspotDealId) "contacts") a]
         /\ r = Ok (payer_flag a)).
Proof.
  unfold Sketch.has_payer.
  repeat reads_step; cbn [app]; eexists; (split; [reflexivity|]).
  all: cbn [payer_flag andb]; cbn [body_of] in *.
  all: rewrite ?Hif, ?Hjson; reflexivity.
Qed.

Lemma reads_reportError_alerts (w : world) (endpoint : string) (error : exn)
    (dealId : jsval) :
  runs (reportError w endpoint error dealId)
    (fun evs r =>
       r = Ok tt /\ exists alert, evs = [alert] /\ is_alert alert = true).
Proof.
  unfold reportError.
  repeat reads_step; cbn [app]; (split; [reflexivity|]);
    eexists; split; reflexivity.
Qed.

Lemma number_or_cases (x d : float) :
  number_or x d = d \/ x = number_or x d.
Proof.
  unfold number_or. destruct (falsy x); [now left|now right].
Qed.

Lemma view_consistent (deal : dealRecord) (props : dealFields)
    (name : jsval) (lineItems : list describedItem) :
  properties deal = Some props ->
  consistent deal
    (DealView (rec_id deal) name
       (number_or (deal_amount_read props) (total_of lineItems))
       lineItems (total_of lineItems)).
Proof.
  intro Hprops. repeat split; cbn [v_dealId v_total v_lineItems v_amount].
  destruct (number_or_cases (deal_amount_read props) (total_of lineItems))
    as [H|H]; [now left|right; eauto].
Qed.

Ltac handler_step :=
  cbv beta iota;
  match goal with
  | |- runs (find_deal _ _) _ =>
      eapply reads_consequence; [apply find_deal_lookup|];
      let lk := fresh "lk" in
      let Hlk := fresh "Hlookup" in
      intros lk ? Hlk
  | |- runs (fetch_line_items _ _) _ =>
      eapply reads_consequence; [apply described_items_reads|];
      let evs := fresh "itemReads" in
      let Hi := fresh "Hitems" in
      intros evs ? Hi
  | |- runs (Sketch.has_payer _ _) _ =>
      eapply reads_consequence; [apply has_payer_reads|];
      let a := fresh "payer" in
      intros ? ? [a [-> ->]]
  | |- runs (reportError _ _ _ _) _ =>
      eapply reads_consequence; [apply reads_reportError_alerts|];
      let alert := fresh "alert" in
      let Ha := fresh "Halert" in
      intros ? ? [-> [alert [-> Ha]]]
  | |- _ => reads_step
  end.

Lemma deal_shape_runs (e : env) (w : world) (req : request) :
  runs (Deal.handler e w req) (deal_shape req).
Proof.
  unfold Deal.handler.
  repeat handler_step.
  all: cbv beta iota; rewrite ?app_nil_r.
  all: try (apply deal_early; cbn [In]; auto; fail).
  all: try (now apply deal_not_found).
  all: try (now apply deal_lookup_failed).
  all: try (eapply deal_failed; eassumption).
  all: eapply deal_served; try eassumption.
  all: now apply view_consistent.
Qed.

Lemma sketch_shape_runs (e : env) (w : world) (req : request) :
  runs (Sketch.handler e w req) (sketch_shape req).
Proof.
  unfold Sketch.handler.
  repeat handler_step.
  all: cbv beta iota; rewrite ?app_nil_r; cbn [app].
  all: try (apply sketch_early; [cbn [In]; auto|eauto]; fail).
  all: try (now apply sketch_not_found).
  all: try (now apply sketch_lookup_failed).
  all: rewrite <- ?app_assoc; cbn [app].
  all: try (eapply sketch_failed; eassumption).
  all: eapply sketch_served; try eassumption; try reflexivity.
  all: now apply view_consistent.
Qed.

(** The calls of a look-up, one by one. *)
Lemma lookup_calls (dealId : jsval) (lk : list event)
    (r : result (option (dealRecord * jsval))) :
  lookup dealId lk r ->
  exists a, lk = [Event (DealGet (js_String dealId)) a]
            \/ exists b, lk = [Event (DealGet (js_String dealId)) a;
                               Event (DealSearch dealId) b].
Proof. destruct 1; eauto. Qed.

Lemma lookup_found (dealId : jsval) (lk : list event) (deal : dealRecord)
    (hubspotDealId : jsval) :
  lookup dealId lk (Ok (Some (deal, hubspotDealId))) ->
  found_under dealId lk hubspotDealId.
Proof.
  intro H. inversion H; subst; [left|right]; eauto 12.
Qed.

Lemma item_reads_calls (dealId : jsval) (evs : list event) (ev : event)
    (id : jsstring) (kind : string) :
  item_reads dealId evs -> In ev evs -> ev_call ev = Associations id kind ->
  id = js_String dealId /\ kind = "line_items"%string.
Proof.
  intros Hitems Hin Hcall.
  destruct Hitems; cbn [In] in Hin; decompose [or] Hin; subst;
    cbn [ev_call] in Hcall; try discriminate; try contradiction.
  all: now inversion Hcall.
Qed.

Lemma lookup_no_association (dealId : jsval) (lk : list event)
    (r : result (option (dealRecord * jsval))) (ev : event)
    (id : jsstring) (kind : string) :
  lookup dealId lk r -> In ev lk -> ev_call ev <> Associations id kind.
Proof.
  intros Hlk Hin.
  destruct (lookup_calls _ _ _ Hlk) as [a [->|[b ->]]];
    cbn [In] in Hin; decompose [or] Hin; subst; cbn [ev_call];
    try discriminate; try contradiction.
Qed.

Lemma alert_no_association (alert : event) (id : jsstring) (kind : string) :
  is_alert alert = true -> ev_call alert <> Associations id kind.
Proof. unfold is_alert. intros H Hc. now rewrite Hc in H. Qed.

(** Whichever way the deal was found, every association call of the
    deal handler names the id that the look-up settled on: the requested
    id after a direct hit, the id of the first search result after the
    fall-back to the search by name. *)
Theorem sketch_associations_use_the_found_id (e : env) (w : world)
    (req : request) (calls : list event) (r : result reply) (ev : event)
    (id : jsstring) (kind : string) :
  run (Sketch.handler e w req) = (calls, r) ->
  In ev calls ->
  ev_call ev = Associations id kind ->
  (exists resp,
     nth_error calls 0
     = Some (Event (DealGet (js_String (dealId req))) (Resolves resp))
     /\ ok resp = true
     /\ id = js_String (dealId req))
  \/ (exists direct resp j deal rest,
        nth_error calls 0
        = Some (Event (DealGet (js_String (dealId req))) (Resolves direct))
        /\ ok direct = false
        /\ nth_error calls 1
           = Some (Event (DealSearch (dealId req)) (Resolves resp))
        /\ ok resp = true
        /\ json resp = Some j
        /\ found j = Some (deal :: rest)
        /\ id = js_String (rec_id deal)).
Proof.
  intros Hrun Hin Hcall.
  apply (reads_outcome _ _ _ _ (sketch_shape_runs e w req)) in Hrun.
  assert (Hid : forall lk hubspotDealId,
             found_under (dealId req) lk hubspotDealId ->
             forall rest, calls = lk ++ rest ->
             id = js_String hubspotDealId ->
             (exists resp,
                nth_error calls 0
                = Some (Event (DealGet (js_String (dealId req))) (Resolves resp))
                /\ ok resp = true
                /\ id = js_String (dealId req))
             \/ (exists direct resp j deal rest,
                   nth_error calls 0
                   = Some (Event (DealGet (js_String (dealId req)))
                             (Resolves direct))
                   /\ ok direct = false
                   /\ nth_error calls 1
                      = Some (Event (DealSearch (dealId req)) (Resolves resp))
                   /\ ok resp = true
                   /\ json resp = Some j
                   /\ found j = Some (deal :: rest)
                   /\ id = js_String (rec_id deal))).
  { intros lk hid [[resp [-> [Hok ->]]]
                  |[direct [resp [j [deal [more [-> [Hd [Hok [Hj [Hf ->]]]]]]]]]]]
           rest -> ->; [left|right].
    - exists resp. now repeat split.
    - exists direct, resp, j, deal, more. now repeat split. }
  destruct Hrun as [c b Hc Hb
                   |lk Hlk
                   |lk error alert Hlk Halert
                   |lk deal hid a itemReads error alert Hlk Hitems Halert
                   |lk deal hid a itemReads view Hlk Hitems Hview Hpayer].
  - contradiction.
  - now destruct (lookup_no_association _ _ _ _ id kind Hlk Hin).
  - apply in_app_or in Hin. destruct Hin as [Hin|[<-|[]]].
    + now destruct (lookup_no_association _ _ _ _ id kind Hlk Hin).
    + now destruct (alert_no_association _ id kind Halert).
  - apply Hid with (lk := lk) (hubspotDealId := hid)
                   (rest := Event (Associations (js_String hid) "contacts") a
                              :: itemReads ++ [alert]);
      [now apply lookup_found with deal|reflexivity|].
    apply in_app_or in Hin. destruct Hin as [Hin|[<-|Hin]].
    + now destruct (lookup_no_association _ _ _ _ id kind Hlk Hin).
    + cbn [ev_call] in Hcall. now inversion Hcall.
    + apply in_app_or in Hin. destruct Hin as [Hin|[<-|[]]].
      * now destruct (item_reads_calls _ _ _ _ _ Hitems Hin Hcall).
      * now destruct (alert_no_association _ id kind Halert).
  - apply Hid with (lk := lk) (hubspotDealId := hid)
                   (rest := Event (Associations (js_String hid) "contacts") a
                              :: itemReads);
      [now apply lookup_found with deal|reflexivity|].
    apply in_app_or in Hin. destruct Hin as [Hin|[<-|Hin]].
    + now destruct (lookup_no_association _ _ _ _ id kind Hlk Hin).
    + cbn [ev_call] in Hcall. now inversion Hcall.
    + now destruct (item_reads_calls _ _ _ _ _ Hitems Hin Hcall).
Qed.

Lemma sketch_associations_use_the_found_id_witness :
  exists direct resp j deal rest,
    nth_error (fst (run (Sketch.handler sample_env crm (get "D-77")))) 0
    = Some (Event (DealGet (lit "D-77")) (Resolves direct))
    /\ ok direct = false
    /\ nth_error (fst (run (Sketch.handler sample_env crm (get "D-77")))) 1
       = Some (Event (DealSearch (JStr (lit "D-77"))) (Resolves resp))
    /\ ok resp = true
    /\ json resp = Some j
    /\ found j = Some (deal :: rest)
    /\ lit "900" = js_String (rec_id deal).
Proof.
  destruct (sketch_associations_use_the_found_id sample_env crm (get "D-77")
              (fst (run (Sketch.handler sample_env crm (get "D-77"))))
              (snd (run (Sketch.handler sample_env crm (get "D-77"))))
              (Event (Associations (lit "900") "contacts")
                 (crm [] (Associations (lit "900") "contacts")))
              (lit "900") "contacts") as [[resp [H [Hok _]]]|H].
  - now destruct (run (Sketch.handler sample_env crm (get "D-77"))).
  - vm_compute. do 2 right. left. reflexivity.
  - reflexivity.
  - apply (f_equal (fun o => match o with
                             | Some ev => status_of ev
                             | None => None
                             end)) in H.
    assert (Hs : Some 404%Z = Some (status resp)) by exact H.
    injection Hs as Hs. unfold ok in Hok. cbn [body_of] in Hok, Hs.
    rewrite <- Hs in Hok. discriminate Hok.
  - exact H.
Defined.

(** The first deal handler answers 404 only after both look-ups came
    back without a deal: the direct read was refused, and the search by
    name was refused too or listed nothing.  No other call has been made
    by then, and the reply names the id that was asked for. *)
Theorem deal_not_found_after_both_lookups (e : env) (w : world)
    (req : request) (calls : list event) (rep : reply) :
  run (Deal.handler e w req) = (calls, Ok rep) ->
  code rep = 404%Z ->
  exists direct search,
    calls = [Event (DealGet (js_String (dealId req))) (Resolves direct);
             Event (DealSearch (dealId req)) (Resolves search)]
    /\ ok direct = false
    /\ (ok search = false
        \/ exists j, json search = Some j
                     /\ (found j = None \/ found j = Some []))
    /\ body rep = ErrorBody "Deal not found" None (Some (dealId req)).
Proof.
  intros Hrun Hcode.
  apply (reads_outcome _ _ _ _ (deal_shape_runs e w req)) in Hrun.
  remember (Ok rep) as r eqn:Hr.
  destruct Hrun as [c b Hc
                   |lk Hlk
                   |lk error Hlk
                   |lk deal hid itemReads error Hlk Hitems
                   |lk deal hid itemReads view Hlk Hitems Hview];
    injection Hr as <-; cbn [code] in Hcode; try discriminate Hcode.
  - cbn [In] in Hc. lia.
  - inversion Hlk; subst. eauto 8.
Qed.

Lemma deal_not_found_after_both_lookups_witness :
  exists direct search,
    fst (run (Deal.handler sample_env crm (get "D-78")))
    = [Event (DealGet (lit "D-78")) (Resolves direct);
       Event (DealSearch (JStr (lit "D-78"))) (Resolves search)]
    /\ ok direct = false
    /\ (ok search = false
        \/ exists j, json search = Some j
                     /\ (found j = None \/ found j = Some []))
    /\ body (Reply 404 (ErrorBody "Deal not found" None
                          (Some (JStr (lit "D-78")))))
       = ErrorBody "Deal not found" None (Some (JStr (lit "D-78"))).
Proof.
  apply (deal_not_found_after_both_lookups sample_env crm (get "D-78")
           (fst (run (Deal.handler sample_env crm (get "D-78"))))
           (Reply 404 (ErrorBody "Deal not found" None
                         (Some (JStr (lit "D-78")))))).
  - vm_compute. reflexivity.
  - reflexivity.
Defined.

(** The payer flag of the deal handler is set exactly when the contact
    associations were read successfully and one of them carries a type
    that has both the id 102 and the label "Payer": the label alone, or
    the id alone, does not count. *)
Theorem sketch_has_payer_iff (e : env) (w : world) (req : request)
    (calls : list event) (view : sketchView) :
  run (Sketch.handler e w req) = (calls, Ok (Reply 200 (SketchOk view))) ->
  v_hasPayer view = true <->
  exists id resp j rs r ts t,
    In (Event (Associations id "contacts") (Resolves resp)) calls
    /\ ok resp = true
    /\ json resp = Some j
    /\ results j = Some rs
    /\ In r rs
    /\ associationTypes r = Some ts
    /\ In t ts
    /\ typeId t = JNum 102
    /\ label t = JStr (lit "Payer").
Proof.
  intro Hrun.
  apply (reads_outcome _ _ _ _ (sketch_shape_runs e w req)) in Hrun.
  remember (Ok (Reply 200 (SketchOk view))) as r eqn:Hr.
  destruct Hrun as [c b Hc Hb
                   |lk Hlk
                   |lk error alert Hlk Halert
                   |lk deal hid a itemReads error alert Hlk Hitems Halert
                   |lk deal hid a itemReads view' Hlk Hitems Hview Hpayer];
    try discriminate Hr.
  - injection Hr as -> ->. destruct Hb as [Hb|[text Hb]]; discriminate Hb.
  - injection Hr as ->. rewrite Hpayer. split.
    + destruct a as [reason|resp]; cbn [payer_flag]; [discriminate|].
      intro H. apply andb_prop in H. destruct H as [Hok H].
      destruct (json resp) as [j|] eqn:Hj; [|discriminate H].
      destruct (results j) as [rs|] eqn:Hrs; [|discriminate H].
      apply existsb_exists in H. destruct H as [r [Hr H]].
      unfold is_payer in H.
      destruct (associationTypes r) as [ts|] eqn:Hts; [|discriminate H].
      apply existsb_exists in H. destruct H as [t [Ht H]].
      apply andb_prop in H. destruct H as [Hid Hlabel].
      apply strict_eqb_eq in Hid, Hlabel.
      exists (js_String hid), resp, j, rs, r, ts, t.
      repeat split; try assumption.
      apply in_or_app. right. now left.
    + intros (id & resp & j & rs & r0 & ts & t & Hin & Hok & Hj & Hrs & Hr0
                & Hts & Ht & Hid & Hlabel).
      assert (Ha : a = Resolves resp).
      { apply in_app_or in Hin. destruct Hin as [Hin|[Heq|Hin]].
        - now destruct (lookup_no_association _ _ _ _ id "contacts" Hlk Hin).
        - apply (f_equal association_answer) in Heq.
          cbn [association_answer] in Heq. now injection Heq.
        - destruct (item_reads_calls _ _ _ id "contacts" Hitems Hin eq_refl)
            as [_ Hkind].
          discriminate Hkind. }
      subst a. cbn [payer_flag]. cbn [body_of] in *.
      rewrite Hok, Hj, Hrs. cbn [andb].
      apply existsb_exists. exists r0. split; [assumption|].
      unfold is_payer. rewrite Hts. apply existsb_exists.
      exists t. split; [assumption|]. now rewrite Hid, Hlabel.
Qed.

Lemma sketch_has_payer_iff_witness :
  exists id resp j rs r ts t,
    In (Event (Associations id "contacts") (Resolves resp))
       (fst (run (Sketch.handler sample_env crm_with_payer (get "12345"))))
    /\ ok resp = true
    /\ json resp = Some j
    /\ results j = Some rs
    /\ In r rs
    /\ associationTypes r = Some ts
    /\ In t ts
    /\ typeId t = JNum 102
    /\ label t = JStr (lit "Payer").
Proof.
  refine (proj1 (sketch_has_payer_iff sample_env crm_with_payer (get "12345")
                   _ _ _) _).
  - lazy. reflexivity.
  - reflexivity.
Defined.

(** The payer look-up of the deal handler is not critical: whatever its
    association read is answered, and also when it gets no answer at
    all, the next call is the read of the line-item associations of the
    same deal. *)
Theorem sketch_payer_lookup_is_not_critical (e : env) (w : world)
    (req : request) (calls : list event) (r : result reply) (n : nat)
    (id : jsstring) (a : fetched associationsJson) :
  run (Sketch.handler e w req) = (calls, r) ->
  nth_error calls n = Some (Event (Associations id "contacts") a) ->
  exists b,
    nth_error calls (S n) = Some (Event (Associations id "line_items") b).
Proof.
  intros Hrun Hnth.
  apply (reads_outcome _ _ _ _ (sketch_shape_runs e w req)) in Hrun.
  apply (f_equal (option_map ev_call)) in Hnth. cbn [option_map ev_call] in Hnth.
  destruct Hrun as [c b Hc Hb
                   |lk Hlk
                   |lk error alert Hlk Halert
                   |lk deal hid a' itemReads error alert Hlk Hitems Halert
                   |lk deal hid a' itemReads view Hlk Hitems Hview Hpayer].
  - destruct n; discriminate Hnth.
  - destruct (lookup_calls _ _ _ Hlk) as [x [->|[y ->]]];
      repeat (destruct n as [|n]; try discriminate Hnth).
  - destruct alert as [c x]. unfold is_alert in Halert. cbn [ev_call] in Halert.
    destruct (lookup_calls _ _ _ Hlk) as [x' [->|[y ->]]]; cbn [app] in Hnth;
      repeat (destruct n as [|n]; cbn [nth_error option_map ev_call] in Hnth;
              try discriminate Hnth);
      injection Hnth as ->; discriminate Halert.
  - destruct (lookup_calls _ _ _ Hlk) as [x' [->|[y ->]]];
      destruct Hitems; cbn [app] in *;
      repeat (destruct n as [|n]; cbn [nth_error option_map ev_call] in Hnth;
              try discriminate Hnth);
      try (injection Hnth as ->; cbn [nth_error]; eexists; reflexivity).
    all: destruct alert as [c x]; unfold is_alert in Halert;
      cbn [ev_call] in Halert; injection Hnth as ->; discriminate Halert.
  - destruct (lookup_calls _ _ _ Hlk) as [x' [->|[y ->]]];
      destruct Hitems; cbn [app] in *;
      repeat (destruct n as [|n]; cbn [nth_error option_map ev_call] in Hnth;
              try discriminate Hnth);
      try (injection Hnth as ->; cbn [nth_error]; eexists; reflexivity).
Qed.

Lemma sketch_payer_lookup_is_not_critical_witness :
  exists b,
    nth_error (fst (run (Sketch.handler sample_env crm_without_contacts
                           (get "12345")))) 2
    = Some (Event (Associations (lit "12345") "line_items") b).
Proof.
  apply (sketch_payer_lookup_is_not_critical sample_env crm_without_contacts
           (get "12345")
           (fst (run (Sketch.handler sample_env crm_without_contacts
                        (get "12345"))))
           (snd (run (Sketch.handler sample_env crm_without_contacts
                        (get "12345"))))
           1 (lit "12345") (Rejects (lit "fetch failed"))).
  - now destruct (run (Sketch.handler sample_env crm_without_contacts
                         (get "12345"))).
  - vm_compute. reflexivity.
Defined.

Lemma fetch_quote_reads (w : world) (dealId : jsval) :
  runs (PoQuote.fetch_quote w dealId) (fun evs _ => quote_reads dealId evs).
Proof.
  unfold PoQuote.fetch_quote.
  repeat reads_step; cbn [app]; try (now constructor).
  all: cbn [body_of] in *.
  all: destruct (results _) as [[|first more]|] eqn:Hresults;
    try discriminate Hcase; injection Hcase as <- _.
  all: eapply quote_read; eassumption.
Qed.

Lemma fetch_primary_reads (w : world) (dealId : jsval) :
  runs (PoQuote.fetch_primary w dealId)
    (fun evs _ => contact_reads dealId evs).
Proof.
  unfold PoQuote.fetch_primary.
  repeat reads_step; cbn [app]; now constructor.
Qed.

Ltac po_step :=
  cbv beta iota;
  match goal with
  | |- runs (PoQuote.fetch_quote _ _) _ =>
      eapply reads_consequence; [apply fetch_quote_reads|];
      let evs := fresh "quoteReads" in
      let Hq := fresh "Hquote" in
      intros evs ? Hq
  | |- runs (PoQuote.fetch_primary _ _) _ =>
      eapply reads_consequence; [apply fetch_primary_reads|];
      let evs := fresh "contactReads" in
      let Hc := fresh "Hcontact" in
      intros evs ? Hc
  | |- _ => handler_step
  end.

Lemma po_shape_runs (e : env) (w : world) (req : request) :
  runs (PoQuote.handler e w req) (po_shape req).
Proof.
  unfold PoQuote.handler.
  repeat po_step.
  all: cbv beta iota; rewrite ?app_nil_r; cbn [app].
  all: try (apply po_early; cbn [In]; auto; fail).
  all: try (now apply po_not_found).
  all: try (now apply po_unreachable).
  all: rewrite <- ?app_assoc; cbn [app].
  all: try (apply (po_failed req _ []); [assumption|constructor|assumption]).
  all: try (apply po_failed;
            [assumption|now apply po_at_items|assumption]).
  all: try (rewrite (app_assoc itemReads);
            apply po_failed;
            [assumption|now apply po_at_quote|assumption]).
  all: try (replace (itemReads ++ quoteReads ++ contactReads ++ [alert])
              with ((itemReads ++ quoteReads ++ contactReads) ++ [alert])
              by (now rewrite <- !app_assoc);
            apply po_failed;
            [assumption|now apply po_at_contact|assumption]).
  all: now apply po_served.
Qed.

Ltac concrete_reads :=
  repeat match goal with
         | H : po_reads _ _ |- _ => destruct H
         | H : item_reads _ _ |- _ => destruct H
         | H : quote_reads _ _ |- _ => destruct H
         | H : contact_reads _ _ |- _ => destruct H
         | H : is_alert ?alert = true |- _ =>
             let c := fresh "c" in
             destruct alert as [c ?]; unfold is_alert in H;
             cbn [ev_call] in H; destruct c; try discriminate H; clear H
         end;
  cbn [app] in *.

Ltac quote_cases Hin Hcall :=
  cbn [In] in Hin; decompose [or] Hin; subst; cbn [ev_call] in Hcall;
  try discriminate Hcall; try contradiction;
  injection Hcall as <-;
  do 4 eexists; (split; [cbn [In]; eauto 10|]); eauto.

(** The po-quote handler reads at most one quote, and a quote it reads is
    the first one of the list that the quote associations of the deal
    came back with; the other quotes of the list are never looked at. *)
Theorem po_quote_reads_the_first_quote_only (e : env) (w : world)
    (req : request) (calls : list event) (r : result reply) :
  run (PoQuote.handler e w req) = (calls, r) ->
  (List.length (filter is_quote_read calls) <= 1)%nat
  /\ forall ev q,
       In ev calls -> ev_call ev = QuoteGet q ->
       exists resp j first more,
         In (Event (Associations (js_String (dealId req)) "quotes")
               (Resolves resp)) calls
         /\ ok resp = true
         /\ json resp = Some j
         /\ results j = Some (first :: more)
         /\ q = toObjectId first.
Proof.
  intro Hrun.
  apply (reads_outcome _ _ _ _ (po_shape_runs e w req)) in Hrun.
  destruct Hrun as [c b Hc
                   |d Hd
                   |reason error alert Halert
                   |d reads error alert Hd Hreads Halert
                   |d i q c view Hd Hi Hq Hc Hview];
    concrete_reads; (split; [cbn; lia|]); intros ev q' Hin Hcall.
  all: quote_cases Hin Hcall.
Qed.

Lemma po_quote_reads_the_first_quote_only_witness :
  (List.length
     (filter is_quote_read
        (fst (run (PoQuote.handler sample_env crm (get "12345"))))) <= 1)%nat
  /\ forall ev q,
       In ev (fst (run (PoQuote.handler sample_env crm (get "12345")))) ->
       ev_call ev = QuoteGet q ->
       exists resp j first more,
         In (Event (Associations (lit "12345") "quotes") (Resolves resp))
            (fst (run (PoQuote.handler sample_env crm (get "12345"))))
         /\ ok resp = true
         /\ json resp = Some j
         /\ results j = Some (first :: more)
         /\ q = toObjectId first.
Proof.
  apply (po_quote_reads_the_first_quote_only sample_env crm (get "12345")
           (fst (run (PoQuote.handler sample_env crm (get "12345"))))
           (snd (run (PoQuote.handler sample_env crm (get "12345"))))).
  now destruct (run (PoQuote.handler sample_env crm (get "12345"))).
Defined.

(** Unlike the deal handlers, the po-quote handler has no second way to
    find a deal: it never searches by name, and it answers 404 exactly
    when its one read of the deal was refused, without any further
    call. *)
Theorem po_quote_has_no_search_fallback (e : env) (w : world)
    (req : request) (calls : list event) (rep : reply) :
  run (PoQuote.handler e w req) = (calls, Ok rep) ->
  (forall ev value, In ev calls -> ev_call ev <> DealSearch value)
  /\ (code rep = 404%Z <->
      exists r,
        calls = [Event (DealGet (js_String (dealId req))) (Resolves r)]
        /\ ok r = false).
Proof.
  intro Hrun.
  apply (reads_outcome _ _ _ _ (po_shape_runs e w req)) in Hrun.
  remember (Ok rep) as r eqn:Hr.
  destruct Hrun as [c b Hc
                   |d Hd
                   |reason error alert Halert
                   |d reads error alert Hd Hreads Halert
                   |d i q c view Hd Hi Hq Hc Hview];
    injection Hr as <-; concrete_reads; cbn [code].
  all: split;
    [intros ev value Hin Hcall; cbn [In] in Hin; decompose [or] Hin; subst;
     cbn [ev_call] in Hcall; try discriminate Hcall; contradiction|].
  all: split; [intro H404; cbn [In] in *; try lia; try discriminate H404
              |intros [r [Hcalls Hok]]; try discriminate Hcalls].
  all: eauto.
Qed.

Lemma po_quote_has_no_search_fallback_witness :
  (forall ev value,
      In ev (fst (run (PoQuote.handler sample_env crm (get "D-77")))) ->
      ev_call ev <> DealSearch value)
  /\ (code (Reply 404 (ErrorBody "Deal not found" None None)) = 404%Z <->
      exists r,
        fst (run (PoQuote.handler sample_env crm (get "D-77")))
        = [Event (DealGet (lit "D-77")) (Resolves r)]
        /\ ok r = false).
Proof.
  apply (po_quote_has_no_search_fallback sample_env crm (get "D-77")
           (fst (run (PoQuote.handler sample_env crm (get "D-77"))))
           (Reply 404 (ErrorBody "Deal not found" None None))).
  vm_compute. reflexivity.
Defined.

(** No exception escapes the three read handlers that take no token:
    whatever the request, the configuration and the answers of the
    collaborators (refusals, missing answers, unreadable bodies, missing
    properties), each of them ends with a reply. *)
Theorem token_less_reads_never_throw (e : env) (w : world) (req : request) :
  (exists calls rep, run (Deal.handler e w req) = (calls, Ok rep))
  /\ (exists calls rep, run (Sketch.handler e w req) = (calls, Ok rep))
  /\ (exists calls rep, run (PoQuote.handler e w req) = (calls, Ok rep)).
Proof.
  repeat split.
  - destruct (run (Deal.handler e w req)) as [calls r] eqn:Hrun.
    pose proof (reads_outcome _ _ _ _ (deal_shape_runs e w req) Hrun) as H.
    destruct H; eauto.
  - destruct (run (Sketch.handler e w req)) as [calls r] eqn:Hrun.
    pose proof (reads_outcome _ _ _ _ (sketch_shape_runs e w req) Hrun) as H.
    destruct H; eauto.
  - destruct (run (PoQuote.handler e w req)) as [calls r] eqn:Hrun.
    pose proof (reads_outcome _ _ _ _ (po_shape_runs e w req) Hrun) as H.
    destruct H; eauto.
Qed.

Lemma clear_shape_runs (e : env) (w : world) (req : ClearOptions.request) :
  runs (ClearOptions.handler e w req) (clear_shape e req).
Proof.
  unfold ClearOptions.handler.
  repeat reads_step; cbn [app].
  all: try (apply clear_preflight).
  all: try (apply clear_early; cbn [In]; auto; fail).
  all: try (now apply clear_done).
  all: try (now apply clear_refused).
  all: try (now apply clear_unreadable).
  all: try (now apply clear_unreachable).
  apply clear_no_body; try assumption.
  now apply str_eqb_eq.
Qed.

(** The clear-options handler lets an exception escape in exactly one
    situation: a POST, with the CRM token configured, that carries no
    body.  It has made no call by then. *)
Theorem clear_options_throws_without_a_body (e : env) (w : world)
    (req : ClearOptions.request) :
  (forall calls error,
      run (ClearOptions.handler e w req) = (calls, Throw error) ->
      calls = []
      /\ ClearOptions.method req = lit "POST"
      /\ truthy (env_value (HUBSPOT_TOKEN e)) = true
      /\ ClearOptions.body req = None)
  /\ (ClearOptions.method req = lit "POST" ->
      truthy (env_value (HUBSPOT_TOKEN e)) = true ->
      ClearOptions.body req = None ->
      exists error,
        run (ClearOptions.handler e w req) = ([], Throw error)).
Proof.
  split.
  - intros calls error Hrun.
    apply (reads_outcome _ _ _ _ (clear_shape_runs e w req)) in Hrun.
    inversion Hrun; subst. auto.
  - intros Hmethod Hconf Hbody.
    unfold run, ClearOptions.handler. rewrite Hmethod, Hconf, Hbody.
    cbn. unfold throw. eauto.
Qed.

Lemma clear_options_throws_without_a_body_witness :
  exists error,
    run (ClearOptions.handler sample_env crm
           (ClearOptions.Request (lit "POST") None))
    = ([], Throw error).
Proof.
  apply (proj2 (clear_options_throws_without_a_body sample_env crm
                  (ClearOptions.Request (lit "POST") None)));
    reflexivity.
Defined.

(** What the clear-options handler makes of the answer of the CRM: it
    reports success exactly when its one call was answered with a 2xx
    status; a refusal whose body can be read is passed on, under the
    status the CRM gave and with that body as details; a refusal whose
    body cannot be read, and a call that gets no answer, become a 500. *)
Theorem clear_options_passes_the_refusal_on (e : env) (w : world)
    (req : ClearOptions.request) (calls : list event) (rep : reply) :
  run (ClearOptions.handler e w req) = (calls, Ok rep) ->
  (body rep = Success <->
   exists id resp,
     calls = [Event (OptionsClear id) (Resolves resp)] /\ ok resp = true)
  /\ (forall ev resp,
        In ev calls ->
        clear_answer ev = Some (Resolves resp) ->
        ok resp = false ->
        match json resp with
        | Some err =>
            rep = Reply (status resp) (UpstreamBody "HubSpot update failed" err)
        | None =>
            code rep = 500%Z
            /\ exists details,
                 body rep = ErrorBody "Failed to clear options" details None
        end)
  /\ (forall ev reason,
        In ev calls ->
        clear_answer ev = Some (Rejects reason) ->
        code rep = 500%Z
        /\ exists details,
             body rep = ErrorBody "Failed to clear options" details None).
Proof.
  intro Hrun.
  apply (reads_outcome _ _ _ _ (clear_shape_runs e w req)) in Hrun.
  remember (Ok rep) as r eqn:Hr.
  destruct Hrun as [|c text Hc|error Hm Hconf Hbody
                   |dealId resp Hbody Hok
                   |dealId resp err Hbody Hok Hjson
                   |dealId resp error Hbody Hok Hjson
                   |dealId reason error Hbody];
    try discriminate Hr; injection Hr as <-; cbn [body code].
  all: split;
    [split; [intro H; try discriminate H; eauto
            |intros [id [resp' [Hcalls Hok']]]; try discriminate Hcalls;
             try reflexivity]
    |split;
     [intros ev resp' Hin Hanswer Hrefused
     |intros ev reason' Hin Hanswer];
     cbn [In] in Hin; decompose [or] Hin; subst; try contradiction;
     cbn [clear_answer] in Hanswer; try discriminate Hanswer;
     injection Hanswer as <-].
  all: cbn [body_of] in *; unfold ok in *.
  all: try congruence.
  all: try (rewrite Hjson; eauto; fail).
  all: try (split; [reflexivity|eauto]; fail).
  all: try (apply (f_equal (map status_of)) in Hcalls;
            cbn [map status_of] in Hcalls; injection Hcalls as Hs;
            congruence).
Qed.

Lemma clear_options_passes_the_refusal_on_witness :
  snd (run (ClearOptions.handler sample_env crm_in_conflict (clear "12345")))
  = Ok (Reply 409 (UpstreamBody "HubSpot update failed"
                     (JStr (lit "conflict"))))
  /\ Reply 409 (UpstreamBody "HubSpot update failed" (JStr (lit "conflict")))
     = Reply (status (Response 409 [] (Some (JStr (lit "conflict")))))
             (UpstreamBody "HubSpot update failed" (JStr (lit "conflict"))).
Proof.
  split; [vm_compute; reflexivity|].
  apply (proj1 (proj2 (clear_options_passes_the_refusal_on sample_env
                         crm_in_conflict (clear "12345")
                         (fst (run (ClearOptions.handler sample_env
                                      crm_in_conflict (clear "12345"))))
                         (Reply 409 (UpstreamBody "HubSpot update failed"
                                       (JStr (lit "conflict"))))
                         ltac:(vm_compute; reflexivity)))
           (Event (OptionsClear (lit "12345"))
              (Resolves (Response 409 [] (Some (JStr (lit "conflict"))))))
           (Response 409 [] (Some (JStr (lit "conflict"))))).
  - vm_compute. left. reflexivity.
  - reflexivity.
  - reflexivity.
Defined.

End ReadEndpoints.
